(** * ForHire: acquisition and enrichment pipeline

    A shallow embedding of the job pipeline of the ForHire repository:

    - the content script of the browser extension ([scrapeLinkedIn]), with
      its selector cascades and its salary regular expression;
    - the popup of the extension, whose crawl walks a location x keyword
      matrix through timers and browser callbacks ([scrapeNextLocation],
      [scrapeNextKeyword], [scrapeCurrentPage]);
    - the job service ([addJobsToSystem], [getJobs]) over the [jobs] table;
    - the enrichment service ([fetchJobDescription],
      [getJobsNeedingEnrichment], [enrichJobDescriptions]).

    Conventions.  A JavaScript string is a Rocq [string] whose characters
    stand for UTF-16 code units in the range 0..255; the texts below stay in
    that range.  The [jobs] table has [id] as its primary key and is a
    [gmap] from ids to rows; the server compares strings exactly (a binary
    collation), and a call reads the clock once.  Whatever the browser, the
    network or the database server decide is an explicit argument: the
    answers of the DOM to selectors, an oracle for page visits, a fault
    predicate for SQL statements, the inputs delivered by the event loop.
    Reads of the DOM are total, so the [catch] blocks around them are
    never entered. *)

From Stdlib Require Import ZArith String Ascii List Bool Lia.
From stdpp Require Import base option list gmap strings sorting.

Open Scope string_scope.
Open Scope list_scope.
Open Scope nat_scope.

(** ** JavaScript text primitives *)

Module Text.

Definition code (c : ascii) : nat := nat_of_ascii c.

(** [\s] restricted to code units below 256: TAB, LF, VT, FF, CR, SPACE
    and NO-BREAK SPACE. *)
Definition isSpace (c : ascii) : bool :=
  let n := code c in
  ((9 <=? n) && (n <=? 13)) || (n =? 32) || (n =? 160).

(** [\d] *)
Definition isDigit (c : ascii) : bool :=
  let n := code c in (48 <=? n) && (n <=? 57).

Definition oneOf (cs : string) (c : ascii) : bool :=
  existsb (Ascii.eqb c) (list_ascii_of_string cs).

Fixpoint trimStart (s : string) : string :=
  match s with
  | String c t => if isSpace c then trimStart t else s
  | EmptyString => EmptyString
  end.

Definition rev (s : string) : string :=
  string_of_list_ascii (List.rev (list_ascii_of_string s)).

Definition trimEnd (s : string) : string := rev (trimStart (rev s)).

(** [String.prototype.trim] *)
Definition trim (s : string) : string := trimEnd (trimStart s).

Definition lowerChar (c : ascii) : ascii :=
  let n := code c in
  if ((65 <=? n) && (n <=? 90))
     || ((192 <=? n) && (n <=? 222) && negb (n =? 215))
  then ascii_of_nat (n + 32) else c.

(** [String.prototype.toLowerCase] *)
Fixpoint toLowerCase (s : string) : string :=
  match s with
  | String c t => String (lowerChar c) (toLowerCase t)
  | EmptyString => EmptyString
  end.

(** [String.prototype.includes] *)
Fixpoint includes (s needle : string) : bool :=
  String.prefix needle s ||
  match s with
  | String _ t => includes t needle
  | EmptyString => false
  end.

(** [s.substring(0, n)] *)
Definition substring0 (n : nat) (s : string) : string := String.substring 0 n s.

(** The number of bytes of [s] in UTF-8, which is what [LENGTH(s)] counts
    in MySQL: code units from 128 to 255 take two bytes. *)
Fixpoint byteLength (s : string) : nat :=
  match s with
  | String c t => (if code c <? 128 then 1 else 2) + byteLength t
  | EmptyString => 0
  end.

(** [a || b] on strings that may be absent: the empty string is falsy. *)
Definition orElse (a : option string) (b : string) : string :=
  match a with
  | Some s => if String.eqb s "" then b else s
  | None => b
  end.

(** Truthiness of a possibly absent string. *)
Definition truthy (a : option string) : option string :=
  match a with
  | Some s => if String.eqb s "" then None else Some s
  | None => None
  end.

End Text.

(** ** Regular expressions with JavaScript's backtracking semantics *)

Module Regex.

Inductive regex : Type :=
| Eps
| Lit (c : ascii)
| Class (p : ascii -> bool)
| Seq (r1 r2 : regex)
| Opt (r : regex)         (* r?  greedy *)
| Star (r : regex).       (* r*  greedy *)

Definition Plus (r : regex) : regex := Seq r (Star r).

Fixpoint lits (s : string) : regex :=
  match s with
  | String c t => Seq (Lit c) (lits t)
  | EmptyString => Eps
  end.

(** [matchK r k s] matches [r] at the start of [s] and hands the rest of
    the input to the continuation [k]; the first success in priority
    order (greedy alternatives first) is the answer, like the
    backtracking matcher of ECMAScript.  An iteration of [Star] that
    consumes nothing is rejected, as there. *)
Fixpoint matchK (r : regex) (k : string -> option string) (s : string)
  : option string :=
  match r with
  | Eps => k s
  | Lit c =>
      match s with
      | String a t => if Ascii.eqb a c then k t else None
      | EmptyString => None
      end
  | Class p =>
      match s with
      | String a t => if p a then k t else None
      | EmptyString => None
      end
  | Seq r1 r2 => matchK r1 (matchK r2 k) s
  | Opt r1 =>
      match matchK r1 k s with
      | Some rest => Some rest
      | None => k s
      end
  | Star r1 =>
      (fix iter (n : nat) (s : string) {struct n} : option string :=
         match n with
         | O => k s
         | S n' =>
             match matchK r1
                     (fun s' => if String.length s' <? String.length s
                                then iter n' s' else None) s with
             | Some rest => Some rest
             | None => k s
             end
         end) (String.length s) s
  end.

(** The match of [r] anchored at the start of [s], if any. *)
Definition matchAt (r : regex) (s : string) : option string :=
  match matchK r Some s with
  | Some rest =>
      Some (String.substring 0 (String.length s - String.length rest) s)
  | None => None
  end.

(** [s.match(r)] for a regular expression without the [g] flag: element
    0 of the result, that is the leftmost match. *)
Fixpoint search (r : regex) (s : string) : option string :=
  match matchAt r s with
  | Some m => Some m
  | None =>
      match s with
      | String _ t => search r t
      | EmptyString => None
      end
  end.

(** [r.test(s)] / truthiness of [s.match(r)] *)
Definition test (r : regex) (s : string) : bool :=
  match search r s with Some _ => true | None => false end.

(** A continuation that hands back a suffix no longer than its input. *)
Definition shrinks (k : string -> option string) : Prop :=
  forall s rest, k s = Some rest -> String.length rest <= String.length s.

End Regex.

(** ** The content script: [scrapeLinkedIn] *)

Module Content.
Import Text Regex.

(** What the script reads of a DOM element. *)
Record Element : Type := {
  innerText : string;
  tagName : string;
  href : string;
  src : string;
  getAttribute : string -> option string
}.

(** A job card: an element that is also queried with selectors. *)
Record Card : Type := {
  cardText : string;                        (* card.innerText *)
  cardAttribute : string -> option string;  (* card.getAttribute(name) *)
  cardQueryAll : string -> list Element     (* card.querySelectorAll(sel) *)
}.

(** [card.querySelector(sel)]: the first element of
    [card.querySelectorAll(sel)], or null. *)
Definition cardQuery (card : Card) (sel : string) : option Element :=
  head (cardQueryAll card sel).

(** [document.querySelectorAll(sel)] restricted to what the script does
    with the result: the cards it iterates over. *)
Definition Document : Type := string -> list Card.

Record Job : Type := {
  id : string;
  title : string;
  company : string;
  location : string;
  salary : string;
  easyApply : bool;
  url : string;
  image : string;
  source : string
}.

Definition dq : string := String "034"%char "".
Definition quoted (s : string) : string := dq +:+ s +:+ dq.

Definition jobCardSelectors : list string :=
  [ ".job-card-container";
    ".jobs-search-results__list-item";
    ".scaffold-layout__list-item";
    "li.jobs-search-results__list-item";
    "div[data-job-id]" ].

Definition titleSelectors : list string :=
  [ ".job-card-list__title--link";
    ".job-card-list__title";
    ".job-card-container__link";
    ".disabled-ember-anchor";
    "a.job-card-container__link";
    ".base-card__full-link";
    ".base-search-card__title";
    "a[data-tracking-control-name*=" +:+ quoted "job" +:+ "]" ].

Definition companySelectors : list string :=
  [ ".artdeco-entity-lockup__subtitle";
    ".job-card-container__company-name";
    ".base-search-card__subtitle";
    "a.job-card-container__company-link";
    ".job-card-container__primary-description" ].

Definition locationSelectors : list string :=
  [ ".job-card-container__metadata-wrapper li";
    ".job-card-container__metadata-item";
    ".base-search-card__metadata";
    ".job-search-card__location" ].

(** [for (const selector of jobCardSelectors) { jobCards =
    document.querySelectorAll(selector); if (jobCards.length > 0) break; }] *)
Fixpoint selectCards (document : Document) (selectors : list string)
  : list Card :=
  match selectors with
  | [] => []
  | selector :: rest =>
      match document selector with
      | [] => selectCards document rest
      | jobCards => jobCards
      end
  end.

(** [for (const selector of selectors) { element =
    card.querySelector(selector); if (element) break; }] *)
Fixpoint firstElement (card : Card) (selectors : list string)
  : option Element :=
  match selectors with
  | [] => None
  | selector :: rest =>
      match cardQuery card selector with
      | Some element => Some element
      | None => firstElement card rest
      end
  end.

(** The text of a field: the trimmed text of the first element found, or
    the sentinel. *)
Definition fieldText (card : Card) (selectors : list string)
  (sentinel : string) : string :=
  match firstElement card selectors with
  | Some element => trim (innerText element)
  | None => sentinel
  end.

Fixpoint seqs (rs : list regex) : regex :=
  match rs with
  | [] => Eps
  | r :: rest => Seq r (seqs rest)
  end.

(** [\$\d+[.,]?\d*[KkMm]?(\/yr)?] *)
Definition amount : regex :=
  seqs [ Lit "$"; Plus (Class isDigit); Opt (Class (oneOf ".,"));
         Star (Class isDigit); Opt (Class (oneOf "KkMm"));
         Opt (lits "/yr") ].

(** [/\$\d+[.,]?\d*[KkMm]?(\/yr)?(\s*-\s*\$\d+[.,]?\d*[KkMm]?(\/yr)?)?/] *)
Definition salaryRegex : regex :=
  Seq amount
      (Opt (seqs [ Star (Class isSpace); Lit "-"; Star (Class isSpace);
                   amount ])).

Definition notListed : string := "Not listed".

(** [for (const el of els) { const text = el.innerText.trim();
    if (text.match(salaryRegex)) { salary = text; break; } }] *)
Fixpoint firstSalaryText (els : list Element) : option string :=
  match els with
  | [] => None
  | el :: rest =>
      let text := trim (innerText el) in
      if test salaryRegex text then Some text else firstSalaryText rest
  end.

(** Step 5 of the card loop, before the cleaning. *)
Definition rawSalary (card : Card) : string :=
  let salary :=
    match cardQuery card ".artdeco-entity-lockup__metadata" with
    | Some metadataSection =>
        match search salaryRegex (trim (innerText metadataSection)) with
        | Some m => m
        | None => notListed
        end
    | None => notListed
    end in
  let salary :=
    if String.eqb salary notListed then
      match firstSalaryText
              (cardQueryAll card ("span[dir=" +:+ quoted "ltr" +:+ "]")) with
      | Some text => text
      | None => salary
      end
    else salary in
  if String.eqb salary notListed then
    match firstSalaryText
            (cardQueryAll card
               ".job-card-container__metadata-wrapper li, .artdeco-entity-lockup__metadata li") with
    | Some text => text
    | None => salary
    end
  else salary.

(** The cleaning: [salary.match(salaryRegex)[0]] when there is a match. *)
Definition cleanSalary (salary : string) : string :=
  if String.eqb salary notListed then salary
  else match search salaryRegex salary with
       | Some m => m
       | None => salary
       end.

Definition extractSalary (card : Card) : string :=
  cleanSalary (rawSalary card).

Definition footerSpansSelector : string :=
  ".job-card-container__footer-wrapper span[dir=" +:+ quoted "ltr"
    +:+ "], .job-card-list__footer-wrapper span[dir=" +:+ quoted "ltr"
    +:+ "]".

Definition footerItemsSelector : string :=
  ".job-card-container__footer-wrapper li, .job-card-list__footer-wrapper li".

(** Step 6: the three tiers of the Easy Apply detection. *)
Definition extractEasyApply (card : Card) : bool :=
  existsb (fun span =>
             String.eqb (toLowerCase (trim (innerText span))) "easy apply")
          (cardQueryAll card footerSpansSelector)
  || existsb (fun item => includes (toLowerCase (innerText item)) "easy apply")
             (cardQueryAll card footerItemsSelector)
  || includes (toLowerCase (cardText card)) "easy apply".

(** [/\/jobs\/view\/(\d+)/] *)
Definition jobViewRegex : regex :=
  Seq (lits "/jobs/view/") (Plus (Class isDigit)).

(** Group 1 of a match of [jobViewRegex]: what follows the 11
    characters of [/jobs/view/]. *)
Definition jobViewId (link : string) : option string :=
  match search jobViewRegex link with
  | Some m => Some (String.substring 11 (String.length m - 11) m)
  | None => None
  end.

(** Step 7; [random] is [Math.random().toString(36).substr(2, 9)]. *)
Definition extractJobId (card : Card) (link : string) (random : string)
  : string :=
  let jobId :=
    match truthy (cardAttribute card "data-job-id") with
    | Some v => Some v
    | None =>
        match truthy (cardAttribute card "data-occludable-job-id") with
        | Some v => Some v
        | None =>
            match cardQuery card "[data-job-id]" with
            | Some el => truthy (getAttribute el "data-job-id")
            | None => None
            end
        end
    end in
  match jobId with
  | Some v => v
  | None =>
      match jobViewId link with
      | Some v => v
      | None => "li-" +:+ random
      end
  end.

(** Step 1: the link that goes with the title element. *)
Definition extractLink (card : Card) : string :=
  match firstElement card titleSelectors with
  | Some titleElement =>
      if String.eqb (toLowerCase (tagName titleElement)) "a"
      then href titleElement
      else match cardQuery card ("a[href*=" +:+ quoted "/jobs/view/" +:+ "]") with
           | Some linkAnchor => href linkAnchor
           | None => "#"
           end
  | None => "#"
  end.

Definition extractImage (card : Card) : string :=
  match cardQuery card
          ".job-card-list__logo img, .ivm-view-attr__img--centered, img.artdeco-entity-image, .job-card-square-logo img" with
  | Some imgElement => src imgElement
  | None => ""
  end.

(** The body of [jobCards.forEach]: the record pushed for a card, if
    any (a card whose title stays [Unknown Title] is dropped). *)
Definition scrapeCard (card : Card) (random : string) : option Job :=
  let title := fieldText card titleSelectors "Unknown Title" in
  let link := extractLink card in
  if String.eqb title "Unknown Title" then None
  else Some {| id := extractJobId card link random;
               title := title;
               company := fieldText card companySelectors "Unknown Company";
               location := fieldText card locationSelectors "Remote/Unknown";
               salary := extractSalary card;
               easyApply := extractEasyApply card;
               url := link;
               image := extractImage card;
               source := "LinkedIn" |}.

(** [scrapeLinkedIn()]; [random i] is the random suffix drawn for the
    [i]-th card. *)
Definition scrapeLinkedIn (document : Document) (random : nat -> string)
  : list Job :=
  omap (fun '(i, card) => scrapeCard card (random i))
       (imap (fun i card => (i, card))
             (selectCards document jobCardSelectors)).

(** A text that begins with a dollar sign and a digit. *)
Definition amountLike (m : string) : Prop :=
  exists d rest, m = String "$" (String d rest) /\ isDigit d = true.

(** The field [field] of a job is read with the cascade [selectors]:
    when the selectors before [s1] find nothing in the card and [s1]
    finds [e1], the field is the text of [e1], whatever the selectors
    after [s1] find. *)
Definition readFirst (field : Job -> string) (selectors : list string)
  (card : Card) (job : Job) : Prop :=
  forall pre s1 post e1,
    selectors = pre ++ s1 :: post ->
    Forall (fun s => cardQuery card s = None) pre ->
    cardQuery card s1 = Some e1 ->
    field job = trim (innerText e1).

End Content.

(** ** The [jobs] table and the MySQL server *)

Module Db.

(** A row of [jobs], without its primary key [id], which is the key of
    the table.  Text columns are nullable. *)
Record Row : Type := {
  title : option string;
  company : option string;
  location : option string;
  type : option string;
  salary : option string;
  posted_date : option string;
  description : option string;
  url : option string;
  source : option string;
  added_at : Z;
  expires_at : option Z
}.

Abbreviation Table := (gmap string Row).

(** The statements the services send. *)
Inductive Stmt : Type :=
| SelectId (id : string)                 (* SELECT id FROM jobs WHERE id = ? *)
| InsertJob (id : string) (row : Row)    (* INSERT INTO jobs ... *)
| SelectLive (params : list string)      (* SELECT * FROM jobs WHERE expires_at > NOW() ... *)
| SelectNeedingEnrichment                (* the candidate query of the enricher *)
| UpdateDescription (id description : string).  (* UPDATE jobs SET description = ? WHERE id = ? *)

(** The server as the services see it: whether [pool.getConnection()]
    resolves, and which statements make [execute] throw. *)
Record Server : Type := {
  getConnection : bool;
  faulty : Stmt -> bool
}.

Definition healthy : Server :=
  {| getConnection := true; faulty := fun _ => false |}.

Definition setDescription (d : string) (r : Row) : Row :=
  {| title := title r; company := company r; location := location r;
     type := type r; salary := salary r; posted_date := posted_date r;
     description := Some d; url := url r; source := source r;
     added_at := added_at r; expires_at := expires_at r |}.

End Db.

(** ** The job service: [addJobsToSystem] and [getJobs] *)

Module JobService.
Import Text Db.

(** A job object as uploaded: every property but [id] may be missing. *)
Record RawJob : Type := {
  id : string;
  title : option string;
  company : option string;
  location : option string;
  type : option string;
  salary : option string;
  posted : option string;
  description : option string;
  url : option string;
  source : option string
}.

(** The outcome of a call: what the promise resolved to ([None] when it
    rejected), the table afterwards, whether the [catch] branch logged
    an error. *)
Record Outcome (A : Type) : Type := {
  returned : option A;
  table : Table;
  loggedError : bool
}.
Arguments returned {A} _.
Arguments table {A} _.
Arguments loggedError {A} _.

Section WithDates.
(** [d.setMonth(d.getMonth() + 1)] and [d.toLocaleDateString()] of the
    JavaScript runtime, on milliseconds since the epoch. *)
Variable plusOneMonth : Z -> Z.
Variable toLocaleDateString : Z -> string.

(** The values bound by the INSERT for [job] at time [now]. *)
Definition newRow (now : Z) (job : RawJob) : Row :=
  {| Db.title := Some (orElse (title job) "Unknown Title");
     Db.company := Some (orElse (company job) "Unknown Company");
     Db.location := Some (orElse (location job) "Remote");
     Db.type := Some (orElse (type job) "Full-time");
     Db.salary := Some (orElse (salary job) "Not listed");
     Db.posted_date := Some (orElse (posted job) (toLocaleDateString now));
     Db.description := Some (orElse (description job) "");
     Db.url := Some (orElse (url job) "");
     Db.source := Some (orElse (source job) "External");
     Db.added_at := now;
     Db.expires_at := Some (plusOneMonth now) |}.

(** The [for (const job of newJobs)] loop inside the [try] block.  The
    third component tells whether an [execute] threw, which leaves
    the loop for the [catch] block. *)
Fixpoint insertLoop (server : Server) (now : Z) (jobs : list RawJob)
  (tbl : Table) (addedCount : nat) : Table * nat * bool :=
  match jobs with
  | [] => (tbl, addedCount, false)
  | job :: rest =>
      if faulty server (SelectId (id job)) then (tbl, addedCount, true)
      else match tbl !! id job with
           | Some _ => insertLoop server now rest tbl addedCount
           | None =>
               let row := newRow now job in
               if faulty server (InsertJob (id job) row)
               then (tbl, addedCount, true)
               else insertLoop server now rest (<[id job := row]> tbl)
                               (S addedCount)
           end
  end.

(** [addJobsToSystem(newJobs)] at time [now]. *)
Definition addJobsToSystem (server : Server) (now : Z)
  (newJobs : list RawJob) (tbl : Table) : Outcome nat :=
  match newJobs with
  | [] => {| returned := Some 0; table := tbl; loggedError := false |}
  | _ =>
      if getConnection server then
        let '(tbl', addedCount, threw) :=
          insertLoop server now newJobs tbl 0 in
        {| returned := Some addedCount; table := tbl';
           loggedError := threw |}
      else {| returned := None; table := tbl; loggedError := false |}
  end.

End WithDates.

(** The [filters] argument of [getJobs]. *)
Record Filters : Type := {
  search : option string;
  f_location : option string
}.

(** A filter is applied when it is present and not blank. *)
Definition active (f : option string) : option string :=
  match truthy f with
  | Some s => if String.eqb (trim s) "" then None else Some s
  | None => None
  end.

(** A row as [getJobs] returns it: the columns and a copy of
    [posted_date] under the name [posted]. *)
Record Listing : Type := {
  l_id : string;
  l_row : Row;
  l_posted : option string
}.

Section WithLike.
(** [value LIKE pattern] of the server, under the collation of the
    table. *)
Variable like : string -> string -> bool.

(** A comparison with NULL is not true. *)
Definition likeColumn (column : option string) (pattern : string) : bool :=
  match column with
  | Some v => like v pattern
  | None => false
  end.

Definition wild (s : string) : string := "%" +:+ s +:+ "%".

(** The WHERE clause built by [getJobs], evaluated at time [now]. *)
Definition selected (now : Z) (filters : option Filters) (r : Row) : bool :=
  match expires_at r with
  | Some e => (now <? e)%Z
  | None => false
  end
  && match filters ≫= (fun f => active (search f)) with
     | Some s =>
         likeColumn (Db.title r) (wild s)
         || likeColumn (Db.company r) (wild s)
         || likeColumn (Db.description r) (wild s)
     | None => true
     end
  && match filters ≫= (fun f => active (f_location f)) with
     | Some s => likeColumn (Db.location r) (wild s)
     | None => true
     end.

(** The parameters bound to the query. *)
Definition params (filters : option Filters) : list string :=
  match filters ≫= (fun f => active (search f)) with
  | Some s => [wild s; wild s; wild s]
  | None => []
  end ++
  match filters ≫= (fun f => active (f_location f)) with
  | Some s => [wild s]
  | None => []
  end.

(** ORDER BY added_at DESC *)
Definition newerFirst (a b : string * Row) : Prop :=
  (added_at (snd b) <= added_at (snd a))%Z.

#[local] Instance newerFirst_dec a b : Decision (newerFirst a b).
Proof. unfold newerFirst. apply _. Defined.

(** [getJobs(filters)] at time [now]: the listing, or the empty array
    when the query throws. *)
Definition getJobs (server : Server) (now : Z) (filters : option Filters)
  (tbl : Table) : list Listing :=
  if negb (getConnection server)
     || faulty server (SelectLive (params filters))
  then []
  else
    (fun '(i, r) =>
       {| l_id := i; l_row := r; l_posted := posted_date r |})
      <$> merge_sort newerFirst
            (filter (fun p => selected now filters (snd p) = true)
                    (map_to_list tbl)).

End WithLike.

Section Statements.
Variable plusOneMonth : Z -> Z.
Variable toLocaleDateString : Z -> string.

(** The statements that the loop of [addJobsToSystem] hands to
    [connection.execute], in order: for each record its SELECT and, when
    the id is not stored, its INSERT, up to the first statement that
    throws. *)
Fixpoint sentByLoop (server : Server) (now : Z) (jobs : list RawJob)
  (tbl : Table) : list Stmt :=
  match jobs with
  | [] => []
  | job :: rest =>
      SelectId (id job)
        :: (if faulty server (SelectId (id job)) then []
            else match tbl !! id job with
                 | Some _ => sentByLoop server now rest tbl
                 | None =>
                     let row := newRow plusOneMonth toLocaleDateString now job in
                     InsertJob (id job) row
                       :: (if faulty server (InsertJob (id job) row) then []
                           else sentByLoop server now rest
                                  (<[id job := row]> tbl))
                 end)
  end.

(** The statements sent by a call of [addJobsToSystem]. *)
Definition sent (server : Server) (now : Z) (newJobs : list RawJob)
  (tbl : Table) : list Stmt :=
  match newJobs with
  | [] => []
  | _ => if getConnection server then sentByLoop server now newJobs tbl
         else []
  end.

(** The effect on the table of a statement that was sent. *)
Definition applied (server : Server) (tbl : Table) (stmt : Stmt) : Table :=
  match stmt with
  | InsertJob i row => if faulty server stmt then tbl else <[i := row]> tbl
  | _ => tbl
  end.

End Statements.

End JobService.

(** ** The enrichment service *)

Module Enricher.
Import Text Db.

Definition BATCH_SIZE : nat := 5.
Definition TIMEOUT : Z := 30000%Z.
Definition MAX_RETRIES : nat := 2.

(** A row as the candidate query returns it:
    [SELECT id, title, company, url, source, description]. *)
Record Candidate : Type := {
  id : string;
  title : option string;
  company : option string;
  url : option string;
  source : option string;
  description : option string
}.

(** A loaded page as the description extractors use it. *)
Record Page : Type := {
  waitForSelector : string -> bool;         (* does the wait resolve within 10 s *)
  evaluates : bool;                         (* does page.evaluate resolve *)
  querySelector : string -> option string;  (* innerText of document.querySelector(sel) *)
  bodyText : string                         (* document.body.innerText *)
}.

(** What a run writes to the console and when it sleeps. *)
Inductive Event : Type :=
| SelectionFailed                          (* Error fetching jobs needing enrichment *)
| BrowserLaunched
| BatchStart (ids : list string)           (* Processing batch ... *)
| Attempt (id : string) (retryCount : nat)  (* fetchJobDescription entered *)
| RetryWait                                (* 2 s before a retry after an error *)
| Enriched (id : string)
| FailedUpdate (id : string)
| FailedFetch (id : string)
| CoolDown                                 (* 5 s between batches *)
| BrowserClosed.

#[global] Instance Event_eq_dec : EqDecision Event.
Proof. solve_decision. Defined.

(** [for (const selector of selectors) { const element =
    document.querySelector(selector); if (element) return
    element.innerText.trim(); } return null;] *)
Fixpoint firstText (page : Page) (selectors : list string) : option string :=
  match selectors with
  | [] => None
  | selector :: rest =>
      match querySelector page selector with
      | Some text => Some (trim text)
      | None => firstText page rest
      end
  end.

Definition placeholder : string := "Description not available".

(** The shape shared by the three source-specific extractors. *)
Definition extractAfterWait (waitFor : string) (selectors : list string)
  (page : Page) : option string :=
  if waitForSelector page waitFor && evaluates page
  then Some (orElse (firstText page selectors) placeholder)
  else None.

Definition extractLinkedInDescription : Page -> option string :=
  extractAfterWait
    ".show-more-less-html__markup, .description__text, .jobs-description"
    [ ".show-more-less-html__markup"; ".description__text";
      ".jobs-description__content"; ".jobs-box__html-content";
      "article.jobs-description" ].

Definition extractIndeedDescription : Page -> option string :=
  extractAfterWait
    "#jobDescriptionText, .jobsearch-jobDescriptionText, .job-description"
    [ "#jobDescriptionText"; ".jobsearch-jobDescriptionText";
      ".job-description";
      "[id*=" +:+ Content.quoted "jobdescription" +:+ "]";
      "[class*=" +:+ Content.quoted "jobdescription" +:+ "]" ].

Definition extractWeWorkRemotelyDescription : Page -> option string :=
  extractAfterWait
    ".listing-container, .job-description"
    [ ".listing-container .listing-container-description";
      ".job-description"; ".listing-job-description"; "article .content" ].

(** [if (element && element.innerText.length > 200) return
    element.innerText.trim();] over the generic selectors. *)
Fixpoint firstLongText (page : Page) (selectors : list string)
  : option string :=
  match selectors with
  | [] => None
  | selector :: rest =>
      match querySelector page selector with
      | Some text =>
          if 200 <? String.length text then Some (trim text)
          else firstLongText page rest
      | None => firstLongText page rest
      end
  end.

Definition genericSelectors : list string :=
  [ "[class*=" +:+ Content.quoted "description" +:+ "]";
    "[id*=" +:+ Content.quoted "description" +:+ "]";
    "[class*=" +:+ Content.quoted "job-detail" +:+ "]";
    "[class*=" +:+ Content.quoted "content" +:+ "]";
    "article"; "main" ].

Definition extractGenericDescription (page : Page) : option string :=
  if evaluates page then
    let description :=
      match firstLongText page genericSelectors with
      | Some text => text
      | None => substring0 2000 (bodyText page)
      end in
    Some (orElse (Some description) placeholder)
  else None.

(** The dispatch on [job.source]. *)
Definition extractDescription (job : Candidate) (page : Page) : option string :=
  match source job with
  | Some "LinkedIn" => extractLinkedInDescription page
  | Some "Indeed" => extractIndeedDescription page
  | Some "We Work Remotely" => extractWeWorkRemotelyDescription page
  | _ => extractGenericDescription page
  end.

(** The web as a run meets it: [site job n] is the page that the visit
    made with [retryCount = n] loads, or [None] when opening, preparing,
    loading or closing the page throws. *)
Definition Site : Type := Candidate -> nat -> option Page.

(** [description && description.length > 50] *)
Definition viable (description : option string) : option string :=
  match description with
  | Some d => if 50 <? String.length d then Some d else None
  | None => None
  end.

(** [fetchJobDescription(browser, job, retryCount)].  The recursion of the
    source is on [retryCount + 1] under the test [retryCount <
    MAX_RETRIES]; [fuel] bounds its depth. *)
Fixpoint fetchFrom (fuel : nat) (site : Site) (job : Candidate)
  (retryCount : nat) : option string * list Event :=
  match fuel with
  | O => (None, [])
  | S fuel' =>
      let retry (wait : list Event) : option string * list Event :=
        if retryCount <? MAX_RETRIES then
          let '(d, events) := fetchFrom fuel' site job (S retryCount) in
          (d, wait ++ events)
        else (None, []) in
      let '(d, events) :=
        match site job retryCount with
        | Some page =>
            match viable (extractDescription job page) with
            | Some d => (Some d, [])
            | None => retry []
            end
        | None => retry [RetryWait]
        end in
      (d, Attempt (id job) retryCount :: events)
  end.

Definition fetchJobDescription (site : Site) (job : Candidate)
  : option string * list Event :=
  fetchFrom (S MAX_RETRIES) site job 0.

(** [updateJobDescription(jobId, description)] *)
Definition updateJobDescription (server : Server) (jobId description : string)
  (tbl : Table) : bool * Table :=
  if negb (getConnection server)
     || faulty server (UpdateDescription jobId description)
  then (false, tbl)
  else (true, alter (setDescription description) jobId tbl).

(** The WHERE clause of the candidate query. *)
Definition needsEnrichment (r : Row) : bool :=
  match Db.url r with
  | Some u => negb (String.eqb u "") && negb (String.eqb u "#")
  | None => false
  end
  && match Db.description r with
     | None => true
     | Some d =>
         String.eqb d ""
         || String.eqb d "View posting for details"
         || String.prefix "Job scraped from" d
         || (byteLength d <? 100)
     end.

Definition candidateOf (p : string * Row) : Candidate :=
  {| id := fst p; title := Db.title (snd p); company := Db.company (snd p);
     url := Db.url (snd p); source := Db.source (snd p);
     description := Db.description (snd p) |}.

(** ORDER BY added_at DESC *)
Definition newerFirst (a b : string * Row) : Prop :=
  (added_at (snd b) <= added_at (snd a))%Z.

#[global] Instance newerFirst_dec a b : Decision (newerFirst a b).
Proof. unfold newerFirst. apply _. Defined.

(** [getJobsNeedingEnrichment()]: the rows and what was logged. *)
Definition getJobsNeedingEnrichment (server : Server) (tbl : Table)
  : list Candidate * list Event :=
  if negb (getConnection server) || faulty server SelectNeedingEnrichment
  then ([], [SelectionFailed])
  else (candidateOf <$>
          take 100 (merge_sort newerFirst
                      (filter (fun p => needsEnrichment (snd p) = true)
                              (map_to_list tbl))),
        []).

(** The mutable state of a run. *)
Record Progress : Type := {
  tbl : Table;
  enrichedCount : nat;
  failedCount : nat;
  log : list Event
}.

Definition say (events : list Event) (st : Progress) : Progress :=
  {| tbl := tbl st; enrichedCount := enrichedCount st;
     failedCount := failedCount st; log := log st ++ events |}.

(** The body of the [for (let j = 0; j < batch.length; j++)] loop for one
    job and the value its fetch resolved to. *)
Definition record (server : Server) (st : Progress)
  (settled : Candidate * option string) : Progress :=
  let '(job, value) := settled in
  match truthy value with
  | Some d =>
      let '(success, tbl') := updateJobDescription server (id job) d (tbl st) in
      if success
      then {| tbl := tbl'; enrichedCount := S (enrichedCount st);
              failedCount := failedCount st;
              log := log st ++ [Enriched (id job)] |}
      else {| tbl := tbl'; enrichedCount := enrichedCount st;
              failedCount := S (failedCount st);
              log := log st ++ [FailedUpdate (id job)] |}
  | None =>
      {| tbl := tbl st; enrichedCount := enrichedCount st;
         failedCount := S (failedCount st);
         log := log st ++ [FailedFetch (id job)] |}
  end.

(** One batch: the fetches of all its jobs settle, then the results are
    written one after the other.  The console lines of the concurrent
    fetches are logged job by job. *)
Definition processBatch (server : Server) (site : Site)
  (batch : list Candidate) (st : Progress) : Progress :=
  let results := fetchJobDescription site <$> batch in
  let st := say (BatchStart (id <$> batch) :: concat (snd <$> results)) st in
  foldl (record server) st (zip batch (fst <$> results)).

(** [for (let i = 0; i < jobs.length; i += BATCH_SIZE)]; [fuel] bounds the
    number of iterations. *)
Fixpoint batchLoop (fuel : nat) (server : Server) (site : Site)
  (jobs : list Candidate) (i : nat) (st : Progress) : Progress :=
  match fuel with
  | O => st
  | S fuel' =>
      if i <? length jobs then
        let batch := take BATCH_SIZE (drop i jobs) in
        let st := processBatch server site batch st in
        let st := if i + BATCH_SIZE <? length jobs
                  then say [CoolDown] st else st in
        batchLoop fuel' server site jobs (i + BATCH_SIZE) st
      else st
  end.

Record Summary : Type := {
  total : nat;
  enriched : nat;
  failed : nat
}.

(** A finished run: the summary the promise resolved to ([None] when it
    rejected), the table and the log. *)
Record Run : Type := {
  result : option Summary;
  table : Table;
  events : list Event
}.

(** [enrichJobDescriptions()]; [launches] tells whether
    [puppeteer.launch] resolves. *)
Definition enrichJobDescriptions (server : Server) (site : Site)
  (launches : bool) (tbl0 : Table) : Run :=
  let '(jobs, selection) := getJobsNeedingEnrichment server tbl0 in
  match jobs with
  | [] =>
      {| result := Some {| total := 0; enriched := 0; failed := 0 |};
         table := tbl0; events := selection |}
  | _ =>
      if launches then
        let st :=
          batchLoop (length jobs) server site jobs 0
            {| tbl := tbl0; enrichedCount := 0; failedCount := 0;
               log := selection ++ [BrowserLaunched] |} in
        {| result := Some {| total := length jobs;
                             enriched := enrichedCount st;
                             failed := failedCount st |};
           table := tbl st;
           events := log st ++ [BrowserClosed] |}
      else {| result := None; table := tbl0; events := selection |}
  end.

(** *** Notions used to state and prove the properties of a run *)

(** The cadence of a run: its batches, by the ids of their jobs, and its
    cool-downs. *)
Inductive Beat : Type :=
| Batch (ids : list string)
| Pause.

Fixpoint cadence (events : list Event) : list Beat :=
  match events with
  | [] => []
  | BatchStart ids :: rest => Batch ids :: cadence rest
  | CoolDown :: rest => Pause :: cadence rest
  | _ :: rest => cadence rest
  end.

(** The retry counts of the visits made for the job [i]. *)
Fixpoint visitsOf (i : string) (events : list Event) : list nat :=
  match events with
  | [] => []
  | Attempt j n :: rest =>
      if String.eqb i j then n :: visitsOf i rest else visitsOf i rest
  | _ :: rest => visitsOf i rest
  end.

Definition isFailure (e : Event) : bool :=
  match e with
  | FailedUpdate _ | FailedFetch _ => true
  | _ => false
  end.

(** The number of jobs a log reports as failed. *)
Definition failures (events : list Event) : nat :=
  length (filter (fun e => isFailure e = true) events).
Arguments failures : simpl never.

(** A job with the value its fetch settles to. *)
Definition settle (site : Site) (job : Candidate) : Candidate * option string :=
  (job, fst (fetchJobDescription site job)).

(** The line [record] logs for a settled job. *)
Definition verdict (server : Server) (settled : Candidate * option string)
  : Event :=
  match truthy (snd settled) with
  | Some d =>
      if negb (getConnection server)
         || faulty server (UpdateDescription (id (fst settled)) d)
      then FailedUpdate (id (fst settled))
      else Enriched (id (fst settled))
  | None => FailedFetch (id (fst settled))
  end.

(** The cadence expected of the batch loop over [jobs] from index [i]. *)
Fixpoint beats (fuel : nat) (jobs : list Candidate) (i : nat) : list Beat :=
  match fuel with
  | O => []
  | S fuel' =>
      if i <? length jobs then
        Batch (id <$> take BATCH_SIZE (drop i jobs))
          :: (if i + BATCH_SIZE <? length jobs then [Pause] else [])
          ++ beats fuel' jobs (i + BATCH_SIZE)
      else []
  end.

(** The log of a batch: its header, the events of its fetches, its
    verdicts. *)
Definition batchLog (server : Server) (site : Site) (batch : list Candidate)
  : list Event :=
  BatchStart (id <$> batch)
    :: concat ((fun j => snd (fetchJobDescription site j)) <$> batch)
    ++ (verdict server <$> (settle site <$> batch)).

(** One turn of the batch loop at index [i]. *)
Definition turn (server : Server) (site : Site) (jobs : list Candidate)
  (i : nat) (st : Progress) : Progress :=
  let st := processBatch server site (take BATCH_SIZE (drop i jobs)) st in
  if i + BATCH_SIZE <? length jobs then say [CoolDown] st else st.

(** What the loop has done since [st0] when the first [i] jobs are
    behind it: the failures it counted are those it logged, every job
    was counted once, its visits are those of the fetches, a fetch that
    gave nothing is reported, and a row is as it was unless a fetch for
    its id gave a description. *)
Record Settled (site : Site) (jobs : list Candidate) (st0 : Progress)
  (i : nat) (st : Progress) : Prop := {
  settled_failed :
    failedCount st + failures (log st0) = failedCount st0 + failures (log st);
  settled_total :
    enrichedCount st + failedCount st
    = enrichedCount st0 + failedCount st0 + length (take i jobs);
  settled_visits : forall k,
    visitsOf k (log st)
    = visitsOf k (log st0)
      ++ concat ((fun j => visitsOf k (snd (fetchJobDescription site j)))
                   <$> take i jobs);
  settled_reported :
    Forall (fun j => fst (fetchJobDescription site j) = None ->
                     FailedFetch (id j) ∈ log st)
           (take i jobs);
  settled_table : forall k,
    Forall (fun j => id j = k -> fst (fetchJobDescription site j) = None)
           (take i jobs) ->
    tbl st !! k = tbl st0 !! k
}.


(** The viable description, if any, that the visit with the retry count
    [n] gives. *)
Definition viableAt (site : Site) (job : Candidate) (n : nat) : option string :=
  site job n ≫= fun page => viable (extractDescription job page).

(** The table a run leaves, job by job: the description of a job is
    written when its fetch gave one and its UPDATE went through. *)
Definition written (server : Server) (site : Site) (jobs : list Candidate)
  (tbl0 : Table) : Table :=
  foldl (fun t job =>
           match fst (fetchJobDescription site job) with
           | Some d =>
               if negb (getConnection server)
                  || faulty server (UpdateDescription (id job) d)
               then t
               else alter (setDescription d) (id job) t
           | None => t
           end)
        tbl0 jobs.



End Enricher.

(** ** The popup of the extension: the crawl over locations and keywords *)

Module Popup.
Import Text.

Record Location : Type := {
  name : string;
  geoId : option string
}.

#[global] Instance Location_eq_dec : EqDecision Location.
Proof. solve_decision. Defined.

(** What a crawl is started with: [selectedLocations], [config.json] and
    the check boxes of the popup. *)
Record Crawl : Type := {
  selectedLocations : list Location;
  keywords : list string;
  delayBetweenSearches : option nat;
  remoteOnly : bool;
  easyApplyOnly : bool;
  autoUpload : bool
}.

(** What is waiting in the event loop for the crawl: a promise of the
    browser API or a timer, with the code that runs when it settles. *)
Inductive Cont : Type :=
| AwaitTabQuery (location : Location) (keyword : string)
    (* scrapeNextKeyword, at [await chrome.tabs.query] *)
| AwaitTabUpdate
    (* scrapeNextKeyword, at [await chrome.tabs.update] *)
| SettleTimer
    (* [setTimeout(async () => { ... }, 5000)] *)
| AwaitPageTabQuery
    (* scrapeCurrentPage, at [await chrome.tabs.query] *)
| NextTimer (ms : nat).
    (* [setTimeout(() => { if (isRunning) scrapeNextKeyword(); }, ms)] *)

(** What the event loop delivers. *)
Inductive Input : Type :=
| Resolve (tab : bool)   (* the awaited promise resolves; [tab]: a tab was found *)
| Reject                 (* the awaited promise rejects *)
| Fire                   (* the pending timer fires *)
| Reply (response : option (list Content.Job))
                         (* the callback of sendMessage runs; [None]: lastError *)
| StopClick.             (* the Stop button *)

(** What the crawl does to the outside. *)
Inductive Effect : Type :=
| StepInfo (location : Location) (keyword : string)   (* updateStepInfo *)
| Navigate (location : Location) (keyword : string)
    (* chrome.tabs.update to the [linkedinUrl] of the pair *)
| ScrapeRequest                                       (* chrome.tabs.sendMessage *)
| ShowError
| Finished
| Upload (jobs : list Content.Job).                   (* uploadToDatabase *)

(** The ambient variables of the popup, the event loop and the effects
    so far.  The machine follows one crawl, from the click on Start; the
    only other click it knows is Stop. *)
Record State : Type := {
  isRunning : bool;
  currentLocationIndex : nat;
  currentKeywordIndex : nat;
  allJobs : list Content.Job;
  pending : list Cont;
  awaited : nat;            (* scrape requests whose callback has not run *)
  trace : list Effect
}.

Definition setRunning (b : bool) (st : State) : State :=
  {| isRunning := b; currentLocationIndex := currentLocationIndex st;
     currentKeywordIndex := currentKeywordIndex st; allJobs := allJobs st;
     pending := pending st; awaited := awaited st; trace := trace st |}.

Definition setLocationIndex (i : nat) (st : State) : State :=
  {| isRunning := isRunning st; currentLocationIndex := i;
     currentKeywordIndex := currentKeywordIndex st; allJobs := allJobs st;
     pending := pending st; awaited := awaited st; trace := trace st |}.

Definition setKeywordIndex (k : nat) (st : State) : State :=
  {| isRunning := isRunning st;
     currentLocationIndex := currentLocationIndex st;
     currentKeywordIndex := k; allJobs := allJobs st;
     pending := pending st; awaited := awaited st; trace := trace st |}.

Definition setAllJobs (jobs : list Content.Job) (st : State) : State :=
  {| isRunning := isRunning st;
     currentLocationIndex := currentLocationIndex st;
     currentKeywordIndex := currentKeywordIndex st; allJobs := jobs;
     pending := pending st; awaited := awaited st; trace := trace st |}.

Definition setPending (ks : list Cont) (st : State) : State :=
  {| isRunning := isRunning st;
     currentLocationIndex := currentLocationIndex st;
     currentKeywordIndex := currentKeywordIndex st; allJobs := allJobs st;
     pending := ks; awaited := awaited st; trace := trace st |}.

Definition setAwaited (n : nat) (st : State) : State :=
  {| isRunning := isRunning st;
     currentLocationIndex := currentLocationIndex st;
     currentKeywordIndex := currentKeywordIndex st; allJobs := allJobs st;
     pending := pending st; awaited := n; trace := trace st |}.

Definition emit (es : list Effect) (st : State) : State :=
  {| isRunning := isRunning st;
     currentLocationIndex := currentLocationIndex st;
     currentKeywordIndex := currentKeywordIndex st; allJobs := allJobs st;
     pending := pending st; awaited := awaited st; trace := trace st ++ es |}.

Definition suspend (k : Cont) (st : State) : State :=
  setPending (pending st ++ [k]) st.

(** [config.delayBetweenSearches || 3000] *)
Definition searchDelay (c : Crawl) : nat :=
  match delayBetweenSearches c with
  | Some 0 | None => 3000
  | Some ms => ms
  end.

Section WithEncoding.
(** [encodeURIComponent] of the JavaScript runtime. *)
Variable encodeURIComponent : string -> string.

(** The address a search step navigates to. *)
Definition linkedinUrl (c : Crawl) (location : Location) (keyword : string)
  : string :=
  "https://www.linkedin.com/jobs/search/?keywords="
    +:+ encodeURIComponent keyword
    +:+ "&origin=JOB_SEARCH_PAGE_SEARCH_BUTTON&refresh=true"
    +:+ match truthy (geoId location) with
        | Some g => "&geoId=" +:+ g
        | None => ""
        end
    +:+ (if remoteOnly c then "&f_WT=2" else "")
    +:+ (if easyApplyOnly c then "&f_AL=true" else "").
End WithEncoding.

(** The branch of [scrapeNextLocation] taken when the crawl is over. *)
Definition finish (c : Crawl) (st : State) : State :=
  let st := emit [Finished] (setRunning false st) in
  if autoUpload c && (0 <? length (allJobs st))
  then emit [Upload (allJobs st)] st else st.

(** [scrapeNextLocation()] and [scrapeNextKeyword()] up to their first
    [await]; they call each other, and [fuel] bounds the depth of the
    calls. *)
Fixpoint scrapeNextLocation (fuel : nat) (c : Crawl) (st : State) : State :=
  match fuel with
  | O => st
  | S fuel' =>
      if negb (isRunning st)
         || (length (selectedLocations c) <=? currentLocationIndex st)
      then finish c st
      else scrapeNextKeyword fuel' c (setKeywordIndex 0 st)
  end
with scrapeNextKeyword (fuel : nat) (c : Crawl) (st : State) : State :=
  match fuel with
  | O => st
  | S fuel' =>
      if negb (isRunning st) then st
      else if length (keywords c) <=? currentKeywordIndex st
      then scrapeNextLocation fuel' c
             (setLocationIndex (S (currentLocationIndex st)) st)
      else
        match selectedLocations c !! currentLocationIndex st,
              keywords c !! currentKeywordIndex st with
        | Some location, Some keyword =>
            suspend (AwaitTabQuery location keyword)
                    (emit [StepInfo location keyword] st)
        | _, _ => st
        end
  end.

(** Enough for every chain of calls between the two functions. *)
Definition depth (c : Crawl) : nat := 3 + 2 * length (selectedLocations c).

(** The [catch] block of [scrapeNextKeyword]. *)
Definition skipAfterError (st : State) : State :=
  suspend (NextTimer 2000)
    (setKeywordIndex (S (currentKeywordIndex st)) (emit [ShowError] st)).

(** What follows [await scrapeCurrentPage()] in the settle callback. *)
Definition advance (c : Crawl) (st : State) : State :=
  suspend (NextTimer (searchDelay c))
    (setKeywordIndex (S (currentKeywordIndex st)) st).

(** The code that runs when the continuation [k] is resumed by [i]; an
    input of the wrong kind leaves [k] pending.  In [scrapeNextKeyword], a
    tab that is not found ends the crawl with an error message, and a
    rejected promise leads to the [catch] block.  The settle callback
    returns when the crawl was stopped and calls [scrapeCurrentPage]
    otherwise; there, a rejected tab query escapes the callback, and a
    missing tab throws inside the [try] block, after which the callback
    goes on. *)
Definition resume (c : Crawl) (k : Cont) (i : Input) (st : State)
  : option State :=
  match k, i with
  | AwaitTabQuery location keyword, Resolve true =>
      Some (suspend AwaitTabUpdate (emit [Navigate location keyword] st))
  | AwaitTabQuery _ _, Resolve false => Some (emit [ShowError] st)
  | AwaitTabQuery _ _, Reject => Some (skipAfterError st)
  | AwaitTabUpdate, Resolve _ => Some (suspend SettleTimer st)
  | AwaitTabUpdate, Reject => Some (skipAfterError st)
  | SettleTimer, Fire =>
      Some (if negb (isRunning st) then st else suspend AwaitPageTabQuery st)
  | AwaitPageTabQuery, Resolve true =>
      Some (advance c (setAwaited (S (awaited st)) (emit [ScrapeRequest] st)))
  | AwaitPageTabQuery, Resolve false =>
      Some (advance c (emit [ShowError] st))
  | AwaitPageTabQuery, Reject => Some st
  | NextTimer _, Fire =>
      Some (if isRunning st then scrapeNextKeyword (depth c) c st else st)
  | _, _ => None
  end.

(** One turn of the event loop.  The callback of a scrape request shows an
    error on [lastError] and appends the jobs of an answer that has
    some. *)
Definition step (c : Crawl) (st : State) (i : Input) : State :=
  match i with
  | StopClick => setRunning false st
  | Reply response =>
      match awaited st with
      | O => st
      | S n =>
          let st := setAwaited n st in
          match response with
          | Some (job :: jobs) => setAllJobs (allJobs st ++ job :: jobs) st
          | Some [] => st
          | None => emit [ShowError] st
          end
      end
  | _ =>
      match pending st with
      | [] => st
      | k :: rest =>
          match resume c k i (setPending rest st) with
          | Some st' => st'
          | None => st
          end
      end
  end.

Definition run (c : Crawl) (st : State) (inputs : list Input) : State :=
  foldl (step c) st inputs.

(** The click on Start. *)
Definition start (c : Crawl) : State :=
  let idle := {| isRunning := false; currentLocationIndex := 0;
                 currentKeywordIndex := 0; allJobs := []; pending := [];
                 awaited := 0; trace := [] |} in
  match keywords c with
  | [] => emit [ShowError] idle
  | _ => scrapeNextLocation (depth c) c (setRunning true idle)
  end.

(** *** Notions used to state and prove the properties of a crawl *)

(** The searches issued, in order. *)
Fixpoint visits (es : list Effect) : list (Location * string) :=
  match es with
  | [] => []
  | Navigate location keyword :: rest => (location, keyword) :: visits rest
  | _ :: rest => visits rest
  end.

(** The search steps begun, in order. *)
Fixpoint steps (es : list Effect) : list (Location * string) :=
  match es with
  | [] => []
  | StepInfo location keyword :: rest => (location, keyword) :: steps rest
  | _ :: rest => steps rest
  end.

Fixpoint scrapeRequests (es : list Effect) : nat :=
  match es with
  | [] => 0
  | ScrapeRequest :: rest => S (scrapeRequests rest)
  | _ :: rest => scrapeRequests rest
  end.

(** The inputs of one search step that meets no obstacle: the tab is
    found, the navigation succeeds, the settle timer fires, the tab is
    found again, the content script answers, the next timer fires. *)
Definition calmStep (response : option (list Content.Job)) : list Input :=
  [Resolve true; Resolve true; Fire; Resolve true; Reply response; Fire].



(** A trace made of error messages only. *)
Definition errorsOnly (es : list Effect) : Prop :=
  Forall (fun e => e = ShowError) es.

(** A stopped crawl with nothing to resume but, at most, the settle
    timer of the search it had issued. *)
Definition abandoned (st : State) : Prop :=
  isRunning st = false /\ (pending st = [] \/ pending st = [SettleTimer]).

(** A stopped crawl that has nothing to resume but a continuation that
    only reads [isRunning] and returns, or the navigation promise that
    leads to one. *)
Definition windingDown (st : State) : Prop :=
  isRunning st = false
  /\ (pending st = [] \/ pending st = [SettleTimer]
      \/ pending st = [AwaitTabUpdate]
      \/ exists ms, pending st = [NextTimer ms]).

(** The searches whose tab query is in flight. *)
Fixpoint lookups (ks : list Cont) : list (Location * string) :=
  match ks with
  | [] => []
  | AwaitTabQuery location keyword :: rest =>
      (location, keyword) :: lookups rest
  | _ :: rest => lookups rest
  end.

(** The jobs a response adds to [allJobs]. *)
Definition jobsOf (response : option (list Content.Job)) : list Content.Job :=
  match response with
  | Some jobs => jobs
  | None => []
  end.

(** What the callback of a scrape request shows. *)
Definition replyEffects (response : option (list Content.Job)) : list Effect :=
  match response with
  | Some _ => []
  | None => [ShowError]
  end.

(** The state in which the search step for the keyword [k] of the
    location [i] has begun and waits for the tab. *)
Definition ready (i k : nat) (location : Location) (keyword : string)
  (jobs : list Content.Job) (es : list Effect) : State :=
  {| isRunning := true; currentLocationIndex := i;
     currentKeywordIndex := k; allJobs := jobs;
     pending := [AwaitTabQuery location keyword]; awaited := 0;
     trace := es |}.

(** The pairs that are still to be searched when the step for the keyword
    [k] of [location] begins and [later] are the locations after it. *)
Definition remaining (c : Crawl) (location : Location) (k : nat)
  (later : list Location) : list (Location * string) :=
  map (pair location) (drop k (keywords c)) ++ list_prod later (keywords c).

(** How a search step goes: the page is scraped and the callback runs
    with [response] before the next timer fires; or [scrapeCurrentPage]
    finds no tab; or the tab query of [scrapeNextKeyword] rejects; or the
    navigation rejects. *)
Inductive Course : Type :=
| Scraped (response : option (list Content.Job))
| PageTabMissing
| LookupFailed
| NavigationFailed.

(** What the event loop delivers during a step, up to the timer that
    starts the next one. *)
Definition inputsOf (course : Course) : list Input :=
  match course with
  | Scraped response => calmStep response
  | PageTabMissing => [Resolve true; Resolve true; Fire; Resolve false; Fire]
  | LookupFailed => [Reject; Fire]
  | NavigationFailed => [Resolve true; Reject; Fire]
  end.

Definition script (courses : list Course) : list Input :=
  concat (inputsOf <$> courses).

Definition found (course : Course) : list Content.Job :=
  match course with
  | Scraped response => jobsOf response
  | _ => []
  end.

(** The effects of a step after its announcement. *)
Definition outcomeOf (search : Location * string) (course : Course)
  : list Effect :=
  match course with
  | Scraped response =>
      [Navigate (fst search) (snd search); ScrapeRequest]
        ++ replyEffects response
  | PageTabMissing => [Navigate (fst search) (snd search); ShowError]
  | LookupFailed => [ShowError]
  | NavigationFailed => [Navigate (fst search) (snd search); ShowError]
  end.

Definition effectsOf (search : Location * string) (course : Course)
  : list Effect :=
  StepInfo (fst search) (snd search) :: outcomeOf search course.

(** The effects of the end of a crawl that collected [jobs]. *)
Definition closing (c : Crawl) (jobs : list Content.Job) : list Effect :=
  Finished :: if autoUpload c && (0 <? length jobs) then [Upload jobs] else [].


End Popup.

(** ** The content script: [scrapeIndeed] and [scrapeJobsFromPage] *)

Module Indeed.
Import Text Content.

(** A job object as [scrapeIndeed] pushes it. *)
Record Job : Type := {
  id : string;
  title : string;
  company : string;
  location : string;
  type : string;
  salary : string;
  url : string;
  description : string;
  source : string
}.

(** [s.replace(needle, '')] with a string for [needle]: the first
    occurrence is removed. *)
Fixpoint removeFirst (needle s : string) : string :=
  if String.prefix needle s
  then String.substring (String.length needle)
         (String.length s - String.length needle) s
  else match s with
       | String c t => String c (removeFirst needle t)
       | EmptyString => EmptyString
       end.

(** [el.id]: the [id] attribute, or the empty string. *)
Definition elementId (el : Element) : string :=
  default "" (getAttribute el "id").

Definition cardsSelector : string := ".resultContent, .job_seen_beacon".
Definition titleSelector : string := ".jobTitle a, a.jcs-JobTitle".
Definition companySelector : string :=
  "[data-testid=" +:+ quoted "company-name" +:+ "]".
Definition locationSelector : string :=
  "[data-testid=" +:+ quoted "text-location" +:+ "]".
Definition metadataSelector : string :=
  ".metadataContainer li, .salary-snippet-container".

(** [link = titleElement.href || "#"; if (link.startsWith('/')) link =
    'https://www.indeed.com' + link;] *)
Definition extractLink (titleElement : Element) : string :=
  let link := orElse (Some (href titleElement)) "#" in
  if String.prefix "/" link then "https://www.indeed.com" +:+ link else link.

(** The id: [data-jk], else the element id without [job_], else the
    random one drawn at the start of the card. *)
Definition extractJobId (titleElement : Element) (random : string) : string :=
  match truthy (getAttribute titleElement "data-jk") with
  | Some jk => jk
  | None =>
      if String.eqb (elementId titleElement) "" then "ind-" +:+ random
      else removeFirst "job_" (elementId titleElement)
  end.

Definition mentions (text : string) (words : list string) : bool :=
  existsb (includes text) words.

(** [metadataItems.forEach]: the type and the salary, each from the last
    item that mentions one of its words. *)
Definition metadata (items : list Element) : string * string :=
  foldl (fun '(type, salary) item =>
           let text := toLowerCase (innerText item) in
           (if mentions text ["full-time"; "contract"; "part-time"]
            then trim (innerText item) else type,
            if mentions text ["$"; "year"; "hour"]
            then trim (innerText item) else salary))
        ("Full-time", "Not listed") items.

Definition optionalText (card : Card) (selector sentinel : string) : string :=
  match cardQuery card selector with
  | Some element => trim (innerText element)
  | None => sentinel
  end.

(** The body of [jobCards.forEach]; [random] is
    [Math.random().toString(36).substr(2, 9)]. *)
Definition scrapeCard (card : Card) (random : string) : option Job :=
  match cardQuery card titleSelector with
  | None => None
  | Some titleElement =>
      let title := trim (innerText titleElement) in
      let '(type, salary) := metadata (cardQueryAll card metadataSelector) in
      if String.eqb title "Unknown Title" then None
      else Some {| id := extractJobId titleElement random;
                   title := title;
                   company := optionalText card companySelector "Unknown Company";
                   location := optionalText card locationSelector "Unknown Location";
                   type := type;
                   salary := salary;
                   url := extractLink titleElement;
                   description := "View posting for details";
                   source := "Indeed" |}
  end.

(** [scrapeIndeed()]; [random i] is the random suffix drawn for the
    [i]-th card. *)
Definition scrapeIndeed (document : Document) (random : nat -> string)
  : list Job :=
  omap (fun '(i, card) => scrapeCard card (random i))
       (imap (fun i card => (i, card)) (document cardsSelector)).

(** An element of the array that [scrapeJobsFromPage] returns. *)
Inductive PageJob : Type :=
| FromLinkedIn (job : Content.Job)
| FromIndeed (job : Job).

(** [scrapeJobsFromPage()] *)
Definition scrapeJobsFromPage (document : Document)
  (randomLinkedIn randomIndeed : nat -> string) : list PageJob :=
  let jobs := [] in
  let linkedInJobs := FromLinkedIn <$> scrapeLinkedIn document randomLinkedIn in
  let jobs := if 0 <? length linkedInJobs then jobs ++ linkedInJobs else jobs in
  let indeedJobs := FromIndeed <$> scrapeIndeed document randomIndeed in
  if 0 <? length indeedJobs then jobs ++ indeedJobs else jobs.

End Indeed.

(** ** The scrapers of the server: We Work Remotely and RemoteOK *)

Module Scraper.
Import Text Content JobService.

(** A node of the result list as the scrapers read it. *)
Record Node : Type := {
  classList : string -> bool;              (* node.classList.contains(name) *)
  attribute : string -> option string;     (* node.getAttribute(name) *)
  queryAll : string -> list Element        (* node.querySelectorAll(sel) *)
}.

Definition query (node : Node) (sel : string) : option Element :=
  head (queryAll node sel).

(** The headless browser of one scrape: whether [puppeteer.launch]
    resolves, the nodes that [page.evaluate] iterates over ([None] when
    opening or loading the page throws), whether [browser.close]
    resolves. *)
Record Browser : Type := {
  launches : bool;
  nodes : option (list Node);
  closes : bool
}.

(** String concatenation with a value that may be [null]. *)
Definition orNull (a : option string) : string := default "null" a.

(** The body of [jobNodes.forEach] of We Work Remotely. *)
Definition scrapeNode (node : Node) (random : string) : option RawJob :=
  if (classList node "view-all" || classList node "feature")
     && negb (bool_decide (is_Some (query node "a")))
  then None
  else
    match query node "a" with
    | None => None
    | Some anchor =>
        match query node ".title", query node ".company" with
        | Some titleNode, Some companyNode =>
            Some {| id := "wwr-" +:+ random;
                    title := Some (trim (innerText titleNode));
                    company := Some (trim (innerText companyNode));
                    location :=
                      Some match query node ".region" with
                           | Some regionNode => trim (innerText regionNode)
                           | None => "Remote"
                           end;
                    type := Some "Full-Time";
                    salary := Some "See details";
                    posted := Some "Recently";
                    description :=
                      Some "Job scraped from We Work Remotely. Click Apply to see full details.";
                    url := Some ("https://weworkremotely.com"
                                 +:+ orNull (getAttribute anchor "href"));
                    source := Some "We Work Remotely" |}
        | _, _ => None
        end
    end.

(** What a scrape makes of the nodes of its page: [None] when the promise
    rejects, the empty array when an exception is caught. *)
Definition scraped (browser : Browser) (jobs : option (list RawJob))
  : option (list RawJob) :=
  if launches browser && closes browser
  then Some (default [] jobs)
  else None.

(** [scrapeWeWorkRemotely(search)]; [random i] is the random suffix drawn
    for the [i]-th node. *)
Definition scrapeWeWorkRemotely (browser : Browser) (random : nat -> string)
  : option (list RawJob) :=
  scraped browser
    (nodes browser ≫= fun jobNodes =>
       Some (omap (fun '(i, node) => scrapeNode node (random i))
                  (imap (fun i node => (i, node)) jobNodes))).

(** [locationsAndTags.forEach]: the salary is the text of the last tag
    with a dollar sign, the locations are the texts of the others. *)
Definition tags (locationsAndTags : list Element) : string * list string :=
  foldl (fun '(salary, locations) tag =>
           if includes (innerText tag) "$"
           then (innerText tag, locations)
           else (salary, locations ++ [innerText tag]))
        ("Competitive", []) locationsAndTags.

(** The address of a row of RemoteOK; [None] when the evaluation throws:
    [anchor] is the string of [data-url] when there is one, and a string
    has no [getAttribute]. *)
Definition rowUrl (row : Node) : option string :=
  match truthy (attribute row "data-href") with
  | Some h => Some ("https://remoteok.com" +:+ h)
  | None =>
      match truthy (attribute row "data-url") with
      | Some _ => None
      | None =>
          match query row ".preventLink" ≫= fun anchor =>
                  truthy (getAttribute anchor "href") with
          | Some h => Some ("https://remoteok.com" +:+ h)
          | None =>
              match truthy (attribute row "data-id") with
              | Some i => Some ("https://remoteok.com/l/" +:+ i)
              | None => Some ""
              end
          end
      end
  end.

(** The body of [jobRows.forEach] of RemoteOK: [None] when it throws,
    [Some None] when the row is skipped. *)
Definition scrapeRow (row : Node) : option (option RawJob) :=
  if classList row "do-not-expand" then Some None
  else
    match query row ".company_and_position h2",
          query row ".company_and_position h3" with
    | Some titleNode, Some companyNode =>
        let '(salary, locations) := tags (queryAll row ".location") in
        match rowUrl row with
        | None => None
        | Some jobUrl =>
            Some (Some
              {| id := "rok-" +:+ orNull (attribute row "data-id");
                 title := Some (trim (innerText titleNode));
                 company := Some (trim (innerText companyNode));
                 location := Some (default "Remote" (head locations));
                 type := Some "Contract/Full-time";
                 salary := Some salary;
                 posted := Some "Recently";
                 description :=
                   Some "Job scraped from RemoteOK. Click Apply to see full details.";
                 url := Some jobUrl;
                 source := Some "RemoteOK" |})
        end
    | _, _ => Some None
    end.

(** The rows in order, until one throws. *)
Fixpoint scrapeRows (rows : list Node) : option (list RawJob) :=
  match rows with
  | [] => Some []
  | row :: rest =>
      match scrapeRow row with
      | None => None
      | Some pushed =>
          match scrapeRows rest with
          | Some jobs => Some (option_list pushed ++ jobs)
          | None => None
          end
      end
  end.

(** [scrapeRemoteOK(search)] *)
Definition scrapeRemoteOK (browser : Browser) : option (list RawJob) :=
  scraped browser (nodes browser ≫= scrapeRows).

Section WithDates.
Variable plusOneMonth : Z -> Z.
Variable toLocaleDateString : Z -> string.

(** [refreshJobCache()]; [apiJobs] are the jobs mapped from the answer of
    Adzuna, none when it is not configured or fails.  A scrape that
    rejects is caught and adds nothing. *)
Definition refreshJobCache (server : Db.Server) (now : Z)
  (apiJobs : list RawJob) (wwr rok : Browser) (random : nat -> string)
  (tbl : Db.Table) : Outcome unit :=
  let newJobs := apiJobs in
  let newJobs := newJobs ++ default [] (scrapeWeWorkRemotely wwr random) in
  let newJobs := newJobs ++ default [] (scrapeRemoteOK rok) in
  if 0 <? length newJobs then
    let outcome :=
      addJobsToSystem plusOneMonth toLocaleDateString server now newJobs tbl in
    {| returned := match returned outcome with
                   | Some _ => Some tt
                   | None => None
                   end;
       table := table outcome;
       loggedError := loggedError outcome |}
  else {| returned := Some tt; table := tbl; loggedError := false |}.

End WithDates.

End Scraper.

(** ** The upload route and what it stores of the scraped jobs *)

Module Routes.
Import Text Db JobService.

(** The answer of [POST /api/upload]. *)
Inductive Response : Type :=
| Received (added : nat)    (* 200, { message: 'Jobs received', added } *)
| BadRequest                (* 400 *)
| ServerError               (* 500 *)
| Rejected (status : nat).  (* the answer to a request that the body
                               parser refuses *)

(** What [express.json()], mounted before the routes
    ([app.use(express.json())] in server.js), makes of a request: it
    refuses the request, which is then answered with an error status
    without the route being run (413 for a body over the limit of the
    parser, 400 for a body that is not JSON), or it hands the parsed
    body to the route; [None] stands for a body that is not an array. *)
Inductive Request : Type :=
| Refused (status : nat)
| Parsed (body : option (list RawJob)).

(** A job of the extension as [addJobsToSystem] reads it from the body
    of the upload. *)
Definition ofLinkedIn (job : Content.Job) : RawJob :=
  {| id := Content.id job;
     title := Some (Content.title job);
     company := Some (Content.company job);
     location := Some (Content.location job);
     type := None;
     salary := Some (Content.salary job);
     posted := None;
     description := None;
     url := Some (Content.url job);
     source := Some (Content.source job) |}.

Definition ofIndeed (job : Indeed.Job) : RawJob :=
  {| id := Indeed.id job;
     title := Some (Indeed.title job);
     company := Some (Indeed.company job);
     location := Some (Indeed.location job);
     type := Some (Indeed.type job);
     salary := Some (Indeed.salary job);
     posted := None;
     description := Some (Indeed.description job);
     url := Some (Indeed.url job);
     source := Some (Indeed.source job) |}.

Definition ofPageJob (job : Indeed.PageJob) : RawJob :=
  match job with
  | Indeed.FromLinkedIn j => ofLinkedIn j
  | Indeed.FromIndeed j => ofIndeed j
  end.

Section WithDates.
Variable plusOneMonth : Z -> Z.
Variable toLocaleDateString : Z -> string.

(** [router.post('/api/upload', ...)]; [body] is [None] when the body is
    not an array. *)
Definition upload (server : Server) (now : Z) (body : option (list RawJob))
  (tbl : Table) : Response * Table :=
  match body with
  | None => (BadRequest, tbl)
  | Some jobs =>
      let outcome :=
        addJobsToSystem plusOneMonth toLocaleDateString server now jobs tbl in
      match returned outcome with
      | Some addedCount => (Received addedCount, table outcome)
      | None => (ServerError, table outcome)
      end
  end.

(** [POST /api/upload] as the server serves it: the body parser first,
    then the route. *)
Definition served (server : Server) (now : Z) (request : Request)
  (tbl : Table) : Response * Table :=
  match request with
  | Refused status => (Rejected status, tbl)
  | Parsed body => upload server now body tbl
  end.

End WithDates.

End Routes.

(** ** Concrete inputs used by the examples below *)

Module Samples.
Import Text.

(** U+00B7 MIDDLE DOT *)
Definition middot : string := String "183"%char "".

Definition salaryText : string :=
  "$101K/yr - $120.4K/yr " +:+ middot +:+ " 401k".

Definition textElement (text : string) : Content.Element :=
  {| Content.innerText := text; Content.tagName := "SPAN";
     Content.href := ""; Content.src := "";
     Content.getAttribute := fun _ => None |}.

Definition ltrSpans : string := "span[dir=" +:+ Content.quoted "ltr" +:+ "]".

Definition metadataItems : string :=
  ".job-card-container__metadata-wrapper li, .artdeco-entity-lockup__metadata li".

(** A card with a metadata block, left-to-right spans and metadata list
    items carrying the given texts, and nothing else. *)
Definition salaryCard (metadata : option string) (spans items : list string)
  : Content.Card :=
  {| Content.cardText := "";
     Content.cardAttribute := fun _ => None;
     Content.cardQueryAll := fun selector =>
       if String.eqb selector ".artdeco-entity-lockup__metadata"
       then textElement <$> option_list metadata
       else if String.eqb selector ltrSpans then textElement <$> spans
       else if String.eqb selector metadataItems then textElement <$> items
       else [] |}.

(** A page where the second and the fifth card selector find cards. *)
Definition twoLayouts : Content.Document := fun selector =>
  if String.eqb selector ".jobs-search-results__list-item"
  then [salaryCard None [] []]
  else if String.eqb selector "div[data-job-id]"
  then [salaryCard None [] []; salaryCard (Some salaryText) [] []]
  else [].

(** A card where the second and the fifth title selector find an
    element. *)
Definition twoTitles : Content.Card :=
  {| Content.cardText := "";
     Content.cardAttribute := fun _ => None;
     Content.cardQueryAll := fun selector =>
       if String.eqb selector ".job-card-list__title"
       then [textElement " Analyst "]
       else if String.eqb selector "a.job-card-container__link"
       then [textElement "Engineer"]
       else [] |}.

(** A page where the second and the fifth card selector find cards with
    a title. *)
Definition twoTitledLayouts : Content.Document := fun selector =>
  if String.eqb selector ".jobs-search-results__list-item"
  then [twoTitles]
  else if String.eqb selector "div[data-job-id]"
  then [twoTitles; salaryCard (Some salaryText) [] []]
  else [].

(** A LIKE that looks for the text between the two [%] of the pattern. *)
Definition contains (value pattern : string) : bool :=
  includes value (String.substring 1 (String.length pattern - 2) pattern).

Definition rowExpiring (title : string) (added : Z) (expires : option Z)
  : Db.Row :=
  {| Db.title := Some title; Db.company := Some "Acme";
     Db.location := Some "Remote"; Db.type := Some "Full-time";
     Db.salary := Some "Not listed"; Db.posted_date := Some "1/1/2026";
     Db.description := Some ""; Db.url := Some "https://example.org/1";
     Db.source := Some "External"; Db.added_at := added;
     Db.expires_at := expires |}.

Definition oldAndNew : gmap string Db.Row :=
  <["old" := rowExpiring "Analyst" 10%Z (Some 999%Z)]>
    (<["new" := rowExpiring "Analyst" 20%Z (Some 2000%Z)]> ∅).

Definition searchAnalyst : JobService.Filters :=
  {| JobService.search := Some "Analyst"; JobService.f_location := None |}.

Definition nextMonth (t : Z) : Z := (t + 2592000000)%Z.

Definition dateText (t : Z) : string := "1/1/2026".

Definition rawJob (i : string) : JobService.RawJob :=
  {| JobService.id := i; JobService.title := Some "Analyst";
     JobService.company := None; JobService.location := Some "";
     JobService.type := None; JobService.salary := None;
     JobService.posted := None; JobService.description := None;
     JobService.url := Some "https://example.org/job";
     JobService.source := Some "LinkedIn" |}.

Definition threeJobs : list JobService.RawJob :=
  [rawJob "a"; rawJob "new"; rawJob "b"; rawJob "a"].

(** A server on which every INSERT of the id [a] fails. *)
Definition flaky : Db.Server :=
  {| Db.getConnection := true;
     Db.faulty := fun stmt =>
       match stmt with
       | Db.InsertJob i _ => String.eqb i "a"
       | _ => false
       end |}.

(** A LinkedIn posting whose page shows a description of nine
    characters. *)
Definition shortPage : Enricher.Page :=
  {| Enricher.waitForSelector := fun _ => true;
     Enricher.evaluates := true;
     Enricher.querySelector := fun selector =>
       if String.eqb selector ".description__text"
       then Some "  too short " else None;
     Enricher.bodyText := "" |}.

Definition shortSite : Enricher.Site := fun _ _ => Some shortPage.

Definition pendingRow (added : Z) : Db.Row :=
  {| Db.title := Some "Analyst"; Db.company := Some "Acme";
     Db.location := Some "Remote"; Db.type := Some "Full-time";
     Db.salary := Some "Not listed"; Db.posted_date := Some "1/1/2026";
     Db.description := Some "View posting for details";
     Db.url := Some "https://www.linkedin.com/jobs/view/1";
     Db.source := Some "LinkedIn"; Db.added_at := added;
     Db.expires_at := Some 2000%Z |}.

Definition pendingJob : Enricher.Candidate :=
  Enricher.candidateOf ("j1", pendingRow 30%Z).

Definition onePending : gmap string Db.Row :=
  <["j1" := pendingRow 30%Z]> oldAndNew.

Definition twelvePending : gmap string Db.Row :=
  list_to_map
    ((fun n => ("k" +:+ String (ascii_of_nat (65 + n)) "",
                pendingRow (Z.of_nat n))) <$> seq 0 12).

Definition unreachable : Db.Server :=
  {| Db.getConnection := false; Db.faulty := fun _ => false |}.

Definition A : Popup.Location :=
  {| Popup.name := "A"; Popup.geoId := Some "101" |}.

Definition B : Popup.Location :=
  {| Popup.name := "B"; Popup.geoId := None |}.

Definition crawlAB : Popup.Crawl :=
  {| Popup.selectedLocations := [A; B]; Popup.keywords := ["x"; "y"];
     Popup.delayBetweenSearches := None; Popup.remoteOnly := false;
     Popup.easyApplyOnly := false; Popup.autoUpload := false |}.

Definition foundJob : Content.Job :=
  {| Content.id := "4001"; Content.title := "Analyst";
     Content.company := "Acme"; Content.location := "Remote";
     Content.salary := "Not listed"; Content.easyApply := false;
     Content.url := "https://www.linkedin.com/jobs/view/4001";
     Content.image := ""; Content.source := "LinkedIn" |}.

(** The crawl of [crawlAB] once the search for (A, x) is issued and its
    settle delay runs. *)
Definition settling : Popup.State :=
  Popup.run crawlAB (Popup.start crawlAB)
    [Popup.Resolve true; Popup.Resolve true].

(** A LinkedIn posting whose page shows a description of more than 100
    characters. *)
Definition longText : string :=
  "We are looking for an analyst who will monitor alerts, triage incidents and write detection rules for our team.".

Definition longPage : Enricher.Page :=
  {| Enricher.waitForSelector := fun _ => true;
     Enricher.evaluates := true;
     Enricher.querySelector := fun selector =>
       if String.eqb selector ".description__text"
       then Some ("  " +:+ longText +:+ " ") else None;
     Enricher.bodyText := "" |}.

Definition goodSite : Enricher.Site := fun _ _ => Some longPage.




(** A filter made of blanks. *)
Definition blankSearch : JobService.Filters :=
  {| JobService.search := Some "  "; JobService.f_location := None |}.

(** A page of LinkedIn with one card, which has a title. *)
Definition oneCard : Content.Document := fun selector =>
  if String.eqb selector ".job-card-container" then [twoTitles] else [].

Definition analystJob : Content.Job :=
  {| Content.id := "li-r"; Content.title := "Analyst";
     Content.company := "Unknown Company";
     Content.location := "Remote/Unknown";
     Content.salary := "Not listed"; Content.easyApply := false;
     Content.url := "#"; Content.image := ""; Content.source := "LinkedIn" |}.

(** A page of Indeed with one card: a title with a relative link and the
    job key, and three metadata items. *)
Definition indeedTitle : Content.Element :=
  {| Content.innerText := " Security Engineer "; Content.tagName := "A";
     Content.href := "/rc/clk?jk=77"; Content.src := "";
     Content.getAttribute := fun name =>
       if String.eqb name "data-jk" then Some "77" else None |}.

Definition indeedItems : list Content.Element :=
  [textElement "Contract"; textElement " $50 an hour "; textElement "Remote"].

Definition indeedCard : Content.Card :=
  {| Content.cardText := "";
     Content.cardAttribute := fun _ => None;
     Content.cardQueryAll := fun selector =>
       if String.eqb selector Indeed.titleSelector then [indeedTitle]
       else if String.eqb selector Indeed.metadataSelector then indeedItems
       else [] |}.

Definition indeedPage : Content.Document := fun selector =>
  if String.eqb selector Indeed.cardsSelector then [indeedCard] else [].

Definition engineerJob : Indeed.Job :=
  {| Indeed.id := "77"; Indeed.title := "Security Engineer";
     Indeed.company := "Unknown Company";
     Indeed.location := "Unknown Location";
     Indeed.type := "Contract"; Indeed.salary := "$50 an hour";
     Indeed.url := "https://www.indeed.com/rc/clk?jk=77";
     Indeed.description := "View posting for details";
     Indeed.source := "Indeed" |}.

(** A node of We Work Remotely with a link, a title and a company. *)
Definition linkElement (target : string) : Content.Element :=
  {| Content.innerText := ""; Content.tagName := "A";
     Content.href := target; Content.src := "";
     Content.getAttribute := fun name =>
       if String.eqb name "href" then Some target else None |}.

Definition listedNode : Scraper.Node :=
  {| Scraper.classList := fun name => String.eqb name "feature";
     Scraper.attribute := fun _ => None;
     Scraper.queryAll := fun selector =>
       if String.eqb selector "a" then [linkElement "/remote-jobs/1"]
       else if String.eqb selector ".title" then [textElement " Analyst "]
       else if String.eqb selector ".company" then [textElement "Acme"]
       else [] |}.

Definition listing : Scraper.Browser :=
  {| Scraper.launches := true; Scraper.nodes := Some [listedNode];
     Scraper.closes := true |}.

Definition listedJob : JobService.RawJob :=
  {| JobService.id := "wwr-r"; JobService.title := Some "Analyst";
     JobService.company := Some "Acme"; JobService.location := Some "Remote";
     JobService.type := Some "Full-Time";
     JobService.salary := Some "See details";
     JobService.posted := Some "Recently";
     JobService.description :=
       Some "Job scraped from We Work Remotely. Click Apply to see full details.";
     JobService.url := Some "https://weworkremotely.com/remote-jobs/1";
     JobService.source := Some "We Work Remotely" |}.

(** Rows of RemoteOK with a title and a company: one with [data-href],
    one with [data-url] only. *)
Definition remoteRow (attributes : string -> option string) : Scraper.Node :=
  {| Scraper.classList := fun _ => false;
     Scraper.attribute := attributes;
     Scraper.queryAll := fun selector =>
       if String.eqb selector ".company_and_position h2"
       then [textElement "Analyst"]
       else if String.eqb selector ".company_and_position h3"
       then [textElement "Acme"]
       else [] |}.

Definition hrefRow : Scraper.Node :=
  remoteRow (fun name =>
    if String.eqb name "data-href" then Some "/remote-jobs/2"
    else if String.eqb name "data-id" then Some "2" else None).

Definition urlRow : Scraper.Node :=
  remoteRow (fun name =>
    if String.eqb name "data-url" then Some "/remote-jobs/3"
    else if String.eqb name "data-id" then Some "3" else None).

Definition remoteBoard : Scraper.Browser :=
  {| Scraper.launches := true; Scraper.nodes := Some [hrefRow; urlRow];
     Scraper.closes := true |}.

(** A browser that cannot be launched. *)
Definition noBrowser : Scraper.Browser :=
  {| Scraper.launches := false; Scraper.nodes := None;
     Scraper.closes := true |}.

(** The crawl of [crawlAB] with the automatic upload on. *)
Definition crawlUp : Popup.Crawl :=
  {| Popup.selectedLocations := [A; B]; Popup.keywords := ["x"; "y"];
     Popup.delayBetweenSearches := None; Popup.remoteOnly := false;
     Popup.easyApplyOnly := false; Popup.autoUpload := true |}.

(** Four steps of which only the first is scraped. *)
Definition roughCourses : list Popup.Course :=
  [Popup.Scraped (Some [foundJob]); Popup.LookupFailed;
   Popup.NavigationFailed; Popup.PageTabMissing].

End Samples.

(** * Properties *)

(** ** The content script *)

Section ContentScript.
Import Text Regex Content Samples.

(** C7.  On the text [$101K/yr - $120.4K/yr], a middle dot and [401k],
    the salary regular expression matches exactly
    [$101K/yr - $120.4K/yr], and so does the salary of a card that shows
    this text in its metadata block, in its first left-to-right span or in
    its first metadata item: the first match wins and matching the found
    text again cuts the benefits after the separator. *)
Theorem salary_of_sample_text :
  search salaryRegex salaryText = Some "$101K/yr - $120.4K/yr"
  /\ cleanSalary salaryText = "$101K/yr - $120.4K/yr"
  /\ (forall spans items,
        extractSalary (salaryCard (Some salaryText) spans items)
        = "$101K/yr - $120.4K/yr")
  /\ (forall spans items,
        extractSalary (salaryCard None (salaryText :: spans) items)
        = "$101K/yr - $120.4K/yr")
  /\ (forall items,
        extractSalary (salaryCard None [] (salaryText :: items))
        = "$101K/yr - $120.4K/yr").
Proof.
  repeat split; intros; vm_compute; reflexivity.
Qed.

Lemma firstElement_skip (card : Card) (pre rest : list string) :
  Forall (fun s => cardQuery card s = None) pre ->
  firstElement card (pre ++ rest) = firstElement card rest.
Proof.
  induction 1 as [|s pre Hs _ IH]; simpl; [reflexivity|].
  rewrite Hs. exact IH.
Qed.

Lemma selectCards_skip (document : Document) (pre rest : list string) :
  Forall (fun s => document s = []) pre ->
  selectCards document (pre ++ rest) = selectCards document rest.
Proof.
  induction 1 as [|s pre Hs _ IH]; simpl; [reflexivity|].
  rewrite Hs. exact IH.
Qed.

Lemma selectCards_hit (document : Document) (s : string) (rest : list string) :
  document s <> [] -> selectCards document (s :: rest) = document s.
Proof. simpl. destruct (document s); [congruence | reflexivity]. Qed.

Lemma fieldText_first (card : Card) (selectors : list string)
  (sentinel : string) (pre : list string) (s1 : string) (post : list string)
  (e1 : Element) :
  selectors = pre ++ s1 :: post ->
  Forall (fun s => cardQuery card s = None) pre ->
  cardQuery card s1 = Some e1 ->
  fieldText card selectors sentinel = trim (innerText e1).
Proof.
  intros -> Hpre H1. unfold fieldText.
  rewrite firstElement_skip by assumption. simpl. rewrite H1. reflexivity.
Qed.

(** C8.  Selector cascades stop at the first hit.  When the card
    selectors before [cardSelector] find nothing on the page and
    [cardSelector] finds at least one card, [scrapeLinkedIn] returns the
    jobs of the cards of [cardSelector] and of no other card, whatever
    the later selectors find.  For each of these cards whose first title
    element, found by [s1], has a title, the job of the card is returned,
    its title is the text of this element, whatever the title selectors
    after [s1] find, and its company and its location are read in the
    same way from the first element that their selectors find. *)
Theorem cascade_short_circuit
  (document : Document) (random : nat -> string)
  (cardsBefore : list string) (cardSelector : string)
  (cardsAfter : list string) :
  jobCardSelectors = cardsBefore ++ cardSelector :: cardsAfter ->
  Forall (fun s => document s = []) cardsBefore ->
  document cardSelector <> [] ->
  scrapeLinkedIn document random
  = omap (fun '(i, card) => scrapeCard card (random i))
         (imap (fun i card => (i, card)) (document cardSelector))
  /\ forall i card pre s1 post e1,
       document cardSelector !! i = Some card ->
       titleSelectors = pre ++ s1 :: post ->
       Forall (fun s => cardQuery card s = None) pre ->
       cardQuery card s1 = Some e1 ->
       trim (innerText e1) <> "Unknown Title" ->
       exists job,
         job ∈ scrapeLinkedIn document random
         /\ scrapeCard card (random i) = Some job
         /\ title job = trim (innerText e1)
         /\ readFirst company companySelectors card job
         /\ readFirst location locationSelectors card job.
Proof.
  intros Hsel Hbefore Hhit.
  assert (Hcards : selectCards document jobCardSelectors
                   = document cardSelector).
  { rewrite Hsel, selectCards_skip by assumption.
    apply selectCards_hit, Hhit. }
  assert (Hscrape : scrapeLinkedIn document random
                    = omap (fun '(i, card) => scrapeCard card (random i))
                        (imap (fun i card => (i, card))
                              (document cardSelector))).
  { unfold scrapeLinkedIn. rewrite Hcards. reflexivity. }
  split; [exact Hscrape|].
  intros i card pre s1 post e1 Hcard Htitle Hpre H1 Hnamed.
  pose proof (fieldText_first card titleSelectors "Unknown Title"
                pre s1 post e1 Htitle Hpre H1) as Hfield.
  assert (Hjob : exists job, scrapeCard card (random i) = Some job
                             /\ title job = trim (innerText e1)
                             /\ readFirst company companySelectors card job
                             /\ readFirst location locationSelectors card job).
  { unfold scrapeCard. rewrite Hfield.
    destruct (String.eqb_spec (trim (innerText e1)) "Unknown Title");
      [contradiction|].
    eexists. split; [reflexivity|]. cbn [title company location].
    split; [reflexivity|].
    split; intros pre' s' post' e' Hs' Hpre' He';
      exact (fieldText_first card _ _ pre' s' post' e' Hs' Hpre' He'). }
  destruct Hjob as (job & Hjob & Hfields).
  exists job. split; [|split; [exact Hjob | exact Hfields]].
  rewrite Hscrape. apply list_elem_of_omap. exists (i, card).
  split; [|exact Hjob].
  apply (elem_of_lookup_imap_2 (fun i card => (i, card))). exact Hcard.
Qed.

Lemma cascade_short_circuit_witness :
  scrapeLinkedIn twoTitledLayouts (fun _ => "r") = [analystJob].
Proof.
  refine (eq_trans
            (proj1 (cascade_short_circuit twoTitledLayouts (fun _ => "r")
                      [".job-card-container"]
                      ".jobs-search-results__list-item"
                      (List.tail (List.tail jobCardSelectors)) _ _ _)) _).
  - reflexivity.
  - repeat constructor.
  - vm_compute. discriminate.
  - vm_compute. reflexivity.
Defined.

End ContentScript.

(** ** The job service *)

Section JobServiceRead.
Import Db JobService.
Variable like : string -> string -> bool.

Lemma selected_not_expired (now : Z) (filters : option Filters) (r : Row) :
  selected like now filters r = true ->
  exists e, expires_at r = Some e /\ (now < e)%Z.
Proof.
  unfold selected. intros H.
  apply andb_prop in H as [H _]. apply andb_prop in H as [H _].
  destruct (expires_at r) as [e|]; [|discriminate].
  exists e. split; [reflexivity|]. apply Z.ltb_lt, H.
Qed.

Lemma getJobs_listed (server : Server) (now : Z) (filters : option Filters)
  (tbl : Table) (l : Listing) :
  l ∈ getJobs like server now filters tbl ->
  tbl !! l_id l = Some (l_row l)
  /\ selected like now filters (l_row l) = true.
Proof.
  unfold getJobs.
  destruct (negb (getConnection server) || faulty server _).
  - intros H. inversion H.
  - intros H. apply list_elem_of_fmap in H as [[i r] [-> H]]. simpl.
    rewrite merge_sort_Permutation in H.
    apply list_elem_of_filter in H as [Hsel H]. simpl in Hsel.
    apply elem_of_map_to_list in H. split; assumption.
Qed.

(** C9.  A stored job whose [expires_at] is earlier than the time of the
    read is in no result of [getJobs], whatever the filters, the LIKE of
    the server and the state of the connection; the job is still a row of
    the table, which [getJobs] only reads. *)
Theorem expired_jobs_are_not_listed (server : Server) (now : Z)
  (filters : option Filters) (tbl : Table) (i : string) (r : Row) (e : Z) :
  tbl !! i = Some r ->
  expires_at r = Some e ->
  (e < now)%Z ->
  i ∉ l_id <$> getJobs like server now filters tbl.
Proof.
  intros Hrow He Hlt Hin.
  apply list_elem_of_fmap in Hin as [l [-> Hl]].
  apply getJobs_listed in Hl as [Hl Hsel].
  rewrite Hrow in Hl. injection Hl as Hr. subst r.
  apply selected_not_expired in Hsel as [e' [He' Hnow]].
  rewrite He in He'. injection He' as <-. lia.
Qed.

End JobServiceRead.

Lemma expired_jobs_are_not_listed_witness :
  "old" ∉ JobService.l_id
          <$> JobService.getJobs Samples.contains Db.healthy 1000%Z
                (Some Samples.searchAnalyst) Samples.oldAndNew.
Proof.
  apply (expired_jobs_are_not_listed Samples.contains Db.healthy 1000%Z
           (Some Samples.searchAnalyst) Samples.oldAndNew
           "old" (Samples.rowExpiring "Analyst" 10%Z (Some 999%Z)) 999%Z).
  - vm_compute. reflexivity.
  - reflexivity.
  - lia.
Defined.

Section JobServiceWrite.
Import Db JobService.
Variable plusOneMonth : Z -> Z.
Variable toLocaleDateString : Z -> string.

Abbreviation insertLoop' := (insertLoop plusOneMonth toLocaleDateString).
Abbreviation addJobs := (addJobsToSystem plusOneMonth toLocaleDateString).
Abbreviation newRow' := (newRow plusOneMonth toLocaleDateString).
Abbreviation sentByLoop' := (sentByLoop plusOneMonth toLocaleDateString).
Abbreviation sent' := (sent plusOneMonth toLocaleDateString).

(** A batch whose ids are all stored leaves the table and the counter as
    they are, whatever fails. *)
Lemma insertLoop_all_present (server : Server) (now : Z) (jobs : list RawJob)
  (tbl : Table) (n : nat) :
  Forall (fun j => is_Some (tbl !! id j)) jobs ->
  exists threw, insertLoop' server now jobs tbl n = (tbl, n, threw).
Proof.
  induction 1 as [|j jobs [r Hr] _ [threw IH]]; simpl.
  - exists false. reflexivity.
  - destruct (faulty server (SelectId (id j))).
    + exists true. reflexivity.
    + rewrite Hr. exists threw. exact IH.
Qed.

(** A loop that ends without an exception has stored every id of the
    batch, kept what was stored, and counted the rows it added. *)
Lemma insertLoop_completed (server : Server) (now : Z) (jobs : list RawJob) :
  forall (tbl : Table) (n : nat) (tbl' : Table) (n' : nat),
  insertLoop' server now jobs tbl n = (tbl', n', false) ->
  Forall (fun j => is_Some (tbl' !! id j)) jobs
  /\ dom tbl' = dom tbl ∪ list_to_set (id <$> jobs)
  /\ size tbl' + n = size tbl + n'.
Proof.
  induction jobs as [|j jobs IH]; simpl; intros tbl n tbl' n' H.
  - injection H as Ht Hn. subst tbl' n'.
    split; [constructor|]. split; [|lia].
    change (dom tbl = dom tbl ∪ (∅ : gset string)).
    rewrite union_empty_r_L. reflexivity.
  - destruct (faulty server (SelectId (id j))); [discriminate|].
    change (list_to_set (id <$> j :: jobs))
      with ({[id j]} ∪ list_to_set (id <$> jobs) : gset string).
    destruct (tbl !! id j) as [r|] eqn:Hj.
    + apply IH in H as (Hall & Hdom & Hsize).
      assert (Hin : id j ∈ dom tbl) by (apply elem_of_dom; eauto).
      split; [|split].
      * constructor; [|exact Hall].
        apply elem_of_dom. rewrite Hdom. apply elem_of_union_l, Hin.
      * rewrite Hdom. apply set_eq. intros x.
        rewrite !elem_of_union, elem_of_singleton.
        split; [tauto | intros [Hx|[->|Hx]]; auto].
      * exact Hsize.
    + destruct (faulty server (InsertJob (id j) (newRow' now j)));
        [discriminate|].
      apply IH in H as (Hall & Hdom & Hsize).
      rewrite dom_insert_L in Hdom.
      split; [|split].
      * constructor; [|exact Hall].
        apply elem_of_dom. rewrite Hdom.
        apply elem_of_union_l, elem_of_union_l, elem_of_singleton.
        reflexivity.
      * rewrite Hdom. apply set_eq. intros x.
        rewrite !elem_of_union. tauto.
      * rewrite map_size_insert_None in Hsize by exact Hj. lia.
Qed.

Lemma insertLoop_app (server : Server) (now : Z) (pre rest : list RawJob) :
  forall (tbl : Table) (n : nat),
  insertLoop' server now (pre ++ rest) tbl n
  = match insertLoop' server now pre tbl n with
    | (tbl1, n1, false) => insertLoop' server now rest tbl1 n1
    | aborted => aborted
    end.
Proof.
  induction pre as [|j pre IH]; simpl; intros tbl n; [reflexivity|].
  destruct (faulty server (SelectId (id j))); [reflexivity|].
  destruct (tbl !! id j); [apply IH|].
  destruct (faulty server (InsertJob (id j) (newRow' now j)));
    [reflexivity | apply IH].
Qed.

(** C1.  Ingestion is idempotent.  If a first call of [addJobsToSystem]
    on the records [R] returns [n1] without having met a storage failure,
    then every id of [R] is stored, the ids stored are those stored before
    and those of [R], and the table has grown by exactly the [n1] rows
    counted: each new id was inserted once.  A second call on the same
    [R] inserts nothing, whatever the server does, and returns 0 as soon
    as it obtains its connection. *)
Theorem ingestion_is_idempotent (server1 server2 : Server) (now1 now2 : Z)
  (R : list RawJob) (tbl : Table) (n1 : nat) :
  returned (addJobs server1 now1 R tbl) = Some n1 ->
  loggedError (addJobs server1 now1 R tbl) = false ->
  (getConnection server2 = true ->
   returned (addJobs server2 now2 R (table (addJobs server1 now1 R tbl)))
   = Some 0)
  /\ table (addJobs server2 now2 R (table (addJobs server1 now1 R tbl)))
     = table (addJobs server1 now1 R tbl)
  /\ Forall (fun j => is_Some (table (addJobs server1 now1 R tbl) !! id j)) R
  /\ dom (table (addJobs server1 now1 R tbl))
     = dom tbl ∪ list_to_set (id <$> R)
  /\ size (table (addJobs server1 now1 R tbl)) = size tbl + n1.
Proof.
  intros Hret Hlog.
  destruct R as [|j R].
  { simpl in *. injection Hret as Hn. subst n1.
    repeat split; [constructor | | lia].
    change (dom tbl = dom tbl ∪ (∅ : gset string)).
    rewrite union_empty_r_L. reflexivity. }
  unfold addJobsToSystem in Hret, Hlog |- *.
  destruct (getConnection server1); [|discriminate].
  destruct (insertLoop' server1 now1 (j :: R) tbl 0)
    as [[tbl1 m] threw] eqn:Hloop.
  simpl in Hret, Hlog. injection Hret as ->. subst threw.
  apply insertLoop_completed in Hloop as (Hall & Hdom & Hsize).
  cbn [table].
  destruct (insertLoop_all_present server2 now2 (j :: R) tbl1 0 Hall)
    as [threw Hsecond].
  rewrite Hsecond.
  split; [intros ->; reflexivity|].
  split; [destruct (getConnection server2); reflexivity|].
  repeat split; [exact Hall | exact Hdom | lia].
Qed.

Lemma sentByLoop_app (server : Server) (now : Z) (pre rest : list RawJob) :
  forall (tbl : Table) (n : nat),
  sentByLoop' server now (pre ++ rest) tbl
  = sentByLoop' server now pre tbl
    ++ match insertLoop' server now pre tbl n with
       | (tbl1, _, false) => sentByLoop' server now rest tbl1
       | _ => []
       end.
Proof.
  induction pre as [|j pre IH]; simpl; intros tbl n; [reflexivity|].
  f_equal.
  destruct (faulty server (SelectId (id j))); [reflexivity|].
  destruct (tbl !! id j); [apply IH|].
  simpl. f_equal.
  destruct (faulty server (InsertJob (id j) (newRow' now j)));
    [reflexivity | apply IH].
Qed.

(** The table that the loop leaves is the table on which the statements
    sent have taken effect. *)
Lemma insertLoop_replays (server : Server) (now : Z) (jobs : list RawJob) :
  forall (tbl : Table) (n : nat),
  (insertLoop' server now jobs tbl n).1.1
  = foldl (applied server) tbl (sentByLoop' server now jobs tbl).
Proof.
  induction jobs as [|j jobs IH]; simpl; intros tbl n; [reflexivity|].
  destruct (faulty server (SelectId (id j))); [reflexivity|].
  destruct (tbl !! id j); [apply IH|].
  simpl.
  destruct (faulty server (InsertJob (id j) (newRow' now j)));
    [reflexivity | apply IH].
Qed.

(** C2, as the code has it.  The loop runs inside one [try] block: when
    the records before [j] were handled without failure, leaving the
    table [tbl1] and the counter [n1], and the SELECT for [j] throws, or
    [j] is new and its INSERT throws, the call logs the error and returns
    [n1] with the table [tbl1]: [j] is not inserted.  The statements sent
    are those of the records before [j], then the SELECT for [j] and,
    when it is the INSERT that throws, the INSERT for [j]; no statement
    is sent for the records after [j], and [tbl1] is the table on which
    the statements sent have taken effect. *)
Theorem storage_failure_ends_the_batch (server : Server) (now : Z)
  (pre : list RawJob) (j : RawJob) (post : list RawJob)
  (tbl tbl1 : Table) (n1 : nat) :
  getConnection server = true ->
  insertLoop' server now pre tbl 0 = (tbl1, n1, false) ->
  faulty server (SelectId (id j)) = true
  \/ (tbl1 !! id j = None
      /\ faulty server (InsertJob (id j) (newRow' now j)) = true) ->
  addJobs server now (pre ++ j :: post) tbl
  = {| returned := Some n1; table := tbl1; loggedError := true |}
  /\ sent' server now (pre ++ j :: post) tbl
     = sentByLoop' server now pre tbl
       ++ SelectId (id j)
       :: (if faulty server (SelectId (id j)) then []
           else [InsertJob (id j) (newRow' now j)])
  /\ foldl (applied server) tbl (sent' server now (pre ++ j :: post) tbl)
     = tbl1.
Proof.
  intros Hconn Hpre Hfail.
  assert (Hsent : sent' server now (pre ++ j :: post) tbl
                  = sentByLoop' server now pre tbl
                    ++ SelectId (id j)
                    :: (if faulty server (SelectId (id j)) then []
                        else [InsertJob (id j) (newRow' now j)])).
  { unfold sent. rewrite Hconn.
    destruct (pre ++ j :: post) eqn:Hlist.
    { destruct pre; discriminate. }
    rewrite <- Hlist, (sentByLoop_app server now pre (j :: post) tbl 0), Hpre.
    simpl. do 2 f_equal.
    destruct Hfail as [Hsel | [Hnew Hins]].
    - rewrite Hsel. reflexivity.
    - destruct (faulty server (SelectId (id j))); [reflexivity|].
      rewrite Hnew, Hins. reflexivity. }
  assert (Hcall : addJobs server now (pre ++ j :: post) tbl
                  = {| returned := Some n1; table := tbl1;
                       loggedError := true |}).
  { unfold addJobsToSystem. rewrite Hconn.
    destruct (pre ++ j :: post) eqn:Hlist.
    { destruct pre; discriminate. }
    rewrite <- Hlist, insertLoop_app, Hpre. simpl.
    destruct Hfail as [Hsel | [Hnew Hins]].
    - rewrite Hsel. reflexivity.
    - destruct (faulty server (SelectId (id j))); [reflexivity|].
      rewrite Hnew, Hins. reflexivity. }
  split; [exact Hcall|]. split; [exact Hsent|].
  rewrite Hsent, foldl_app.
  rewrite <- (insertLoop_replays server now pre tbl 0), Hpre. cbn [fst].
  destruct Hfail as [Hsel | [Hnew Hins]].
  - rewrite Hsel. reflexivity.
  - destruct (faulty server (SelectId (id j))); [reflexivity|].
    simpl. rewrite Hins. reflexivity.
Qed.

End JobServiceWrite.

Lemma ingestion_is_idempotent_witness :
  JobService.returned
    (JobService.addJobsToSystem Samples.nextMonth Samples.dateText
       Samples.flaky 7%Z Samples.threeJobs
       (JobService.table
          (JobService.addJobsToSystem Samples.nextMonth Samples.dateText
             Db.healthy 5%Z Samples.threeJobs Samples.oldAndNew)))
  = Some 0.
Proof.
  refine (proj1 (ingestion_is_idempotent Samples.nextMonth Samples.dateText
                   Db.healthy Samples.flaky 5%Z 7%Z Samples.threeJobs
                   Samples.oldAndNew 2 _ _) _).
  - vm_compute. reflexivity.
  - vm_compute. reflexivity.
  - reflexivity.
Defined.

(** C2 fails on the code: the INSERT for [a] throws, and [b], which comes
    after it and is new, is neither looked up nor inserted. *)
Lemma failure_on_one_record_aborts_the_rest :
  Db.faulty Samples.flaky
    (Db.InsertJob "a"
       (JobService.newRow Samples.nextMonth Samples.dateText 5%Z
          (Samples.rawJob "a"))) = true
  /\ Samples.oldAndNew !! "b" = None
  /\ JobService.table
       (JobService.addJobsToSystem Samples.nextMonth Samples.dateText
          Samples.flaky 5%Z [Samples.rawJob "a"; Samples.rawJob "b"]
          Samples.oldAndNew) !! "b" = None
  /\ JobService.returned
       (JobService.addJobsToSystem Samples.nextMonth Samples.dateText
          Samples.flaky 5%Z [Samples.rawJob "a"; Samples.rawJob "b"]
          Samples.oldAndNew) = Some 0.
Proof. vm_compute. repeat split; reflexivity. Qed.

Lemma storage_failure_ends_the_batch_witness :
  JobService.addJobsToSystem Samples.nextMonth Samples.dateText
    Samples.flaky 5%Z
    ([Samples.rawJob "new"; Samples.rawJob "c"]
       ++ Samples.rawJob "a" :: [Samples.rawJob "b"])
    Samples.oldAndNew
  = {| JobService.returned := Some 1;
       JobService.table :=
         <["c" := JobService.newRow Samples.nextMonth Samples.dateText 5%Z
                    (Samples.rawJob "c")]> Samples.oldAndNew;
       JobService.loggedError := true |}
  /\ JobService.sent Samples.nextMonth Samples.dateText Samples.flaky 5%Z
       ([Samples.rawJob "new"; Samples.rawJob "c"]
          ++ Samples.rawJob "a" :: [Samples.rawJob "b"])
       Samples.oldAndNew
     = [Db.SelectId "new"; Db.SelectId "c";
        Db.InsertJob "c"
          (JobService.newRow Samples.nextMonth Samples.dateText 5%Z
             (Samples.rawJob "c"));
        Db.SelectId "a";
        Db.InsertJob "a"
          (JobService.newRow Samples.nextMonth Samples.dateText 5%Z
             (Samples.rawJob "a"))].
Proof.
  destruct (storage_failure_ends_the_batch Samples.nextMonth
              Samples.dateText Samples.flaky 5%Z
              [Samples.rawJob "new"; Samples.rawJob "c"] (Samples.rawJob "a")
              [Samples.rawJob "b"] Samples.oldAndNew
              (<["c" := JobService.newRow Samples.nextMonth Samples.dateText
                          5%Z (Samples.rawJob "c")]> Samples.oldAndNew) 1)
    as (Hcall & Hsent & _).
  - reflexivity.
  - vm_compute. reflexivity.
  - right. split; vm_compute; reflexivity.
  - split; [exact Hcall|]. rewrite Hsent. reflexivity.
Defined.

(** ** The enrichment service *)

Section Fuel.
Import Enricher.
Variable site : Site.
Variable job : Candidate.

(** The fuel of [fetchJobDescription] is never used up: more fuel gives
    the same result. *)
Lemma fetchFrom_enough (fuel1 : nat) :
  forall fuel2 retryCount,
  MAX_RETRIES - retryCount < fuel1 ->
  MAX_RETRIES - retryCount < fuel2 ->
  fetchFrom fuel1 site job retryCount = fetchFrom fuel2 site job retryCount.
Proof.
  induction fuel1 as [|fuel1 IH]; intros fuel2 retryCount H1 H2; [lia|].
  destruct fuel2 as [|fuel2]; [lia|].
  cbn [fetchFrom].
  destruct (Nat.ltb_spec retryCount MAX_RETRIES) as [Hlt|Hge];
    [|reflexivity].
  rewrite (IH fuel2 (S retryCount)) by lia. reflexivity.
Qed.

Lemma fetchJobDescription_enough (extra : nat) :
  fetchFrom (S MAX_RETRIES + extra) site job 0 = fetchJobDescription site job.
Proof. apply fetchFrom_enough; unfold MAX_RETRIES; lia. Qed.

(** The same for the batch loop. *)
Lemma batchLoop_enough (server : Db.Server) (jobs : list Candidate)
  (fuel1 : nat) :
  forall fuel2 i st,
  length jobs <= i + fuel1 * BATCH_SIZE ->
  length jobs <= i + fuel2 * BATCH_SIZE ->
  batchLoop fuel1 server site jobs i st = batchLoop fuel2 server site jobs i st.
Proof.
  unfold BATCH_SIZE.
  induction fuel1 as [|fuel1 IH]; intros fuel2 i st H1 H2.
  - destruct fuel2; [reflexivity|]. cbn [batchLoop].
    destruct (Nat.ltb_spec i (length jobs)); [lia | reflexivity].
  - destruct fuel2 as [|fuel2]; cbn [batchLoop];
      destruct (Nat.ltb_spec i (length jobs)); try reflexivity; try lia.
    apply IH; unfold BATCH_SIZE; lia.
Qed.

End Fuel.


Section EnrichmentRun.
Import Text Db Enricher.
Variable server : Server.
Variable site : Site.

Lemma failures_app (es1 es2 : list Event) :
  failures (es1 ++ es2) = failures es1 + failures es2.
Proof. unfold failures. rewrite filter_app, length_app. reflexivity. Qed.

Lemma failures_cons (e : Event) (es : list Event) :
  failures (e :: es) = failures [e] + failures es.
Proof. apply (failures_app [e]). Qed.

Lemma visitsOf_app (i : string) (es1 es2 : list Event) :
  visitsOf i (es1 ++ es2) = visitsOf i es1 ++ visitsOf i es2.
Proof.
  induction es1 as [|e es1 IH]; simpl; [reflexivity|].
  destruct e; try exact IH.
  destruct (String.eqb i id0); simpl; rewrite IH; reflexivity.
Qed.

Lemma cadence_app (es1 es2 : list Event) :
  cadence (es1 ++ es2) = cadence es1 ++ cadence es2.
Proof.
  induction es1 as [|e es1 IH]; simpl; [reflexivity|].
  destruct e; simpl; rewrite ?IH; reflexivity.
Qed.

(** The events of a fetch are attempts for its job and waits. *)
Definition ofFetch (job : Candidate) (e : Event) : Prop :=
  match e with
  | Attempt i _ => i = id job
  | RetryWait => True
  | _ => False
  end.

Lemma fetchFrom_events (fuel : nat) (job : Candidate) :
  forall retryCount,
  Forall (ofFetch job) (snd (fetchFrom fuel site job retryCount)).
Proof.
  induction fuel as [|fuel IH]; intros retryCount; simpl; [constructor|].
  assert (Hretry : forall wait, Forall (ofFetch job) wait ->
            Forall (ofFetch job)
              (snd (if retryCount <? MAX_RETRIES
                    then let '(d, events) :=
                           fetchFrom fuel site job (S retryCount) in
                         (d, wait ++ events)
                    else (None, [])))).
  { intros wait Hwait. destruct (retryCount <? MAX_RETRIES); [|constructor].
    specialize (IH (S retryCount)).
    destruct (fetchFrom fuel site job (S retryCount)) as [d events].
    simpl in *. apply Forall_app. split; assumption. }
  destruct (site job retryCount) as [page|].
  - destruct (viable (extractDescription job page)).
    + simpl. constructor; [reflexivity | constructor].
    + specialize (Hretry [] (List.Forall_nil _)).
      destruct (if retryCount <? MAX_RETRIES then _ else _) as [d events].
      simpl in *. constructor; [reflexivity | exact Hretry].
  - assert (Hwait : Forall (ofFetch job) [RetryWait])
      by (repeat constructor).
    specialize (Hretry [RetryWait] Hwait).
    destruct (if retryCount <? MAX_RETRIES then _ else _) as [d events].
    simpl in *. constructor; [reflexivity | exact Hretry].
Qed.

Lemma ofFetch_quiet (job : Candidate) (es : list Event) :
  Forall (ofFetch job) es ->
  failures es = 0 /\ cadence es = []
  /\ forall i, i <> id job -> visitsOf i es = [].
Proof.
  induction 1 as [|e es He _ (IHf & IHc & IHv)]; [done|].
  destruct e; simpl in He; try contradiction; subst.
  - split; [|split]; [exact IHf | exact IHc |].
    intros i Hi. simpl.
    destruct (String.eqb_spec i (id job)); [contradiction | auto].
  - split; [|split]; [exact IHf | exact IHc | auto].
Qed.

Abbreviation outcome := (fetchJobDescription site).
Abbreviation settle' := (settle site).
Abbreviation verdict' := (verdict server).

Lemma outcome_quiet (job : Candidate) :
  failures (snd (outcome job)) = 0 /\ cadence (snd (outcome job)) = []
  /\ forall i, i <> id job -> visitsOf i (snd (outcome job)) = [].
Proof. apply ofFetch_quiet, fetchFrom_events. Qed.

Lemma verdict_quiet (p : Candidate * option string) (i : string) :
  visitsOf i [verdict' p] = [] /\ cadence [verdict' p] = [].
Proof.
  unfold verdict. destruct (truthy (snd p)); [|done].
  destruct (negb (getConnection server) || faulty server _); done.
Qed.

(** What [record] does, in terms of the verdict. *)
Lemma record_spec (st : Progress) (p : Candidate * option string) :
  log (record server st p) = log st ++ [verdict' p]
  /\ failedCount (record server st p)
     = failedCount st + failures [verdict' p]
  /\ enrichedCount (record server st p) + failedCount (record server st p)
     = S (enrichedCount st + failedCount st)
  /\ forall k, (id (fst p) = k -> truthy (snd p) = None) ->
       tbl (record server st p) !! k = tbl st !! k.
Proof.
  destruct p as [job value]. unfold record, verdict, updateJobDescription.
  simpl. destruct (truthy value) as [d|]; simpl.
  - destruct (negb (getConnection server) || faulty server _); simpl.
    + repeat split; try reflexivity; unfold failures; simpl; lia.
    + repeat split; try reflexivity; try (unfold failures; simpl; lia).
      intros k Hk. apply lookup_alter_ne. intros Heq.
      specialize (Hk Heq). discriminate.
  - repeat split; try reflexivity; unfold failures; simpl; lia.
Qed.

Lemma records_spec (ps : list (Candidate * option string)) :
  forall st : Progress,
  log (foldl (record server) st ps) = log st ++ (verdict' <$> ps)
  /\ failedCount (foldl (record server) st ps)
     = failedCount st + failures (verdict' <$> ps)
  /\ enrichedCount (foldl (record server) st ps)
     + failedCount (foldl (record server) st ps)
     = enrichedCount st + failedCount st + length ps
  /\ forall k, Forall (fun p => id (fst p) = k -> truthy (snd p) = None) ps ->
       tbl (foldl (record server) st ps) !! k = tbl st !! k.
Proof.
  induction ps as [|p ps IH]; intros st.
  - simpl. rewrite app_nil_r.
    repeat split; unfold failures; simpl; lia || auto.
  - rewrite fmap_cons. cbn [foldl length].
    destruct (IH (record server st p)) as (Hlog & Hfail & Hsum & Htbl).
    destruct (record_spec st p) as (Hlog1 & Hfail1 & Hsum1 & Htbl1).
    split; [|split; [|split]].
    + rewrite Hlog, Hlog1, <- app_assoc. reflexivity.
    + rewrite Hfail, Hfail1, (failures_cons _ (verdict' <$> ps)). lia.
    + rewrite Hsum. lia.
    + intros k Hk. apply Forall_cons in Hk as [Hp Hps].
      rewrite Htbl by exact Hps. apply Htbl1, Hp.
Qed.

Lemma zip_settle (batch : list Candidate) :
  zip batch (fst <$> (fetchJobDescription site <$> batch)) = settle' <$> batch.
Proof.
  induction batch as [|j batch IH]; [reflexivity|].
  rewrite !fmap_cons. cbn [zip zip_with]. rewrite <- IH. reflexivity.
Qed.

Abbreviation batchLog := (Enricher.batchLog server site).

Lemma processBatch_spec (batch : list Candidate) (st : Progress) :
  log (processBatch server site batch st) = log st ++ batchLog batch
  /\ failedCount (processBatch server site batch st)
     = failedCount st + failures (verdict' <$> (settle' <$> batch))
  /\ enrichedCount (processBatch server site batch st)
     + failedCount (processBatch server site batch st)
     = enrichedCount st + failedCount st + length batch
  /\ forall k, Forall (fun j => id j = k -> fst (outcome j) = None) batch ->
       tbl (processBatch server site batch st) !! k = tbl st !! k.
Proof.
  unfold processBatch. rewrite zip_settle.
  match goal with |- context [foldl _ ?s _] => set (st1 := s) end.
  destruct (records_spec (settle' <$> batch) st1) as (Hlog & Hf & Hs & Ht).
  split; [|split; [|split]].
  - rewrite Hlog. unfold st1, say, Enricher.batchLog. cbn [log].
    rewrite <- list_fmap_compose, <- app_assoc. reflexivity.
  - rewrite Hf. reflexivity.
  - rewrite Hs, length_fmap. reflexivity.
  - intros k Hk. rewrite Ht; [reflexivity|].
    apply Forall_fmap. eapply Forall_impl; [exact Hk|].
    intros j Hj Hid. simpl in *. rewrite (Hj Hid). reflexivity.
Qed.

Variable jobs : list Candidate.

Abbreviation turn := (Enricher.turn server site jobs).

(** An invariant of the turns holds when the loop is left, and the loop
    is left with an index past the last job when the fuel is enough. *)
Lemma batchLoop_invariant (Q : nat -> Progress -> Prop) :
  (forall i st, i < length jobs -> Q i st -> Q (i + BATCH_SIZE) (turn i st)) ->
  forall fuel i st,
  length jobs <= i + fuel * BATCH_SIZE ->
  Q i st ->
  exists i', length jobs <= i'
             /\ Q i' (batchLoop fuel server site jobs i st).
Proof.
  intros Hturn. induction fuel as [|fuel IH]; intros i st Hfuel HQ.
  - exists i. split; [simpl in Hfuel; lia | exact HQ].
  - cbn [batchLoop]. destruct (Nat.ltb_spec i (length jobs)) as [Hi|Hi].
    + apply (IH (i + BATCH_SIZE) (turn i st)).
      * unfold BATCH_SIZE in *. lia.
      * apply Hturn; assumption.
    + exists i. split; assumption.
Qed.

Abbreviation Settled := (Enricher.Settled site jobs).

Lemma failures_quiet (batch : list Candidate) :
  failures (concat ((fun j => snd (outcome j)) <$> batch)) = 0.
Proof.
  induction batch as [|j batch IH]; [reflexivity|].
  rewrite fmap_cons. cbn [concat]. rewrite failures_app, IH.
  destruct (outcome_quiet j) as (-> & _). reflexivity.
Qed.

Lemma visitsOf_concat (k : string) (ess : list (list Event)) :
  visitsOf k (concat ess) = concat (visitsOf k <$> ess).
Proof.
  induction ess as [|es ess IH]; [reflexivity|].
  rewrite fmap_cons. cbn [concat]. rewrite visitsOf_app, IH. reflexivity.
Qed.

Lemma visitsOf_verdicts (k : string) (ps : list (Candidate * option string)) :
  visitsOf k (verdict' <$> ps) = [].
Proof.
  induction ps as [|p ps IH]; [reflexivity|].
  rewrite fmap_cons.
  change (verdict' p :: (verdict' <$> ps))
    with ([verdict' p] ++ (verdict' <$> ps)).
  rewrite visitsOf_app, IH. destruct (verdict_quiet p k) as [-> _].
  reflexivity.
Qed.

Lemma batchLog_facts (batch : list Candidate) :
  failures (batchLog batch) = failures (verdict' <$> (settle' <$> batch))
  /\ (forall k, visitsOf k (batchLog batch)
                = concat ((fun j => visitsOf k (snd (outcome j))) <$> batch))
  /\ Forall (fun j => fst (outcome j) = None ->
                      FailedFetch (id j) ∈ batchLog batch) batch.
Proof.
  unfold Enricher.batchLog. split; [|split].
  - rewrite failures_cons, failures_app, failures_quiet. reflexivity.
  - intros k.
    change (BatchStart (id <$> batch) :: ?l) with ([BatchStart (id <$> batch)] ++ l).
    rewrite !visitsOf_app, visitsOf_concat, visitsOf_verdicts, app_nil_r.
    rewrite <- list_fmap_compose. reflexivity.
  - apply Forall_forall. intros j Hj Hnone.
    apply elem_of_cons. right. apply elem_of_app. right.
    apply list_elem_of_fmap. exists (settle' j). split.
    + unfold verdict, settle. simpl. rewrite Hnone. reflexivity.
    + apply list_elem_of_fmap. exists j. split; [reflexivity | exact Hj].
Qed.

Lemma say_spec (es : list Event) (st : Progress) :
  log (say es st) = log st ++ es /\ tbl (say es st) = tbl st
  /\ failedCount (say es st) = failedCount st
  /\ enrichedCount (say es st) = enrichedCount st.
Proof. done. Qed.

Lemma turn_spec (i : nat) (st : Progress) :
  let batch := take BATCH_SIZE (drop i jobs) in
  exists pause,
    log (turn i st) = log st ++ batchLog batch ++ pause
    /\ (pause = [] \/ pause = [CoolDown])
    /\ failedCount (turn i st)
       = failedCount st + failures (verdict' <$> (settle' <$> batch))
    /\ enrichedCount (turn i st) + failedCount (turn i st)
       = enrichedCount st + failedCount st + length batch
    /\ forall k, Forall (fun j => id j = k -> fst (outcome j) = None) batch ->
         tbl (turn i st) !! k = tbl st !! k.
Proof.
  intros batch. unfold Enricher.turn. fold batch.
  destruct (processBatch_spec batch st) as (Hlog & Hf & Hs & Ht).
  destruct (i + BATCH_SIZE <? length jobs).
  - exists [CoolDown]. cbn [say log tbl failedCount enrichedCount].
    rewrite Hlog, <- app_assoc. auto 6.
  - exists []. rewrite app_nil_r. auto 6.
Qed.

Lemma turn_settled (st0 : Progress) (i : nat) (st : Progress) :
  i < length jobs ->
  Settled st0 i st -> Settled st0 (i + BATCH_SIZE) (turn i st).
Proof.
  intros _ [Hf Hs Hv Hr Ht].
  destruct (turn_spec i st) as (pause & Hlog & Hpause & Hf' & Hs' & Ht').
  set (batch := take BATCH_SIZE (drop i jobs)) in *.
  destruct (batchLog_facts batch) as (Bf & Bv & Br).
  assert (Pf : failures pause = 0) by (destruct Hpause as [-> | ->]; done).
  assert (Pv : forall k, visitsOf k pause = [])
    by (intros k; destruct Hpause as [-> | ->]; done).
  constructor; rewrite <- ?(take_take_drop jobs i BATCH_SIZE); fold batch.
  - rewrite Hf', Hlog, !failures_app, Bf, Pf. lia.
  - rewrite Hs', length_app. lia.
  - intros k. rewrite Hlog, !visitsOf_app, Hv, Bv, Pv, app_nil_r.
    rewrite fmap_app, concat_app, <- app_assoc. reflexivity.
  - apply Forall_app. split.
    + eapply Forall_impl; [exact Hr|]. intros j Hj Hnone.
      rewrite Hlog. apply elem_of_app. left. auto.
    + eapply Forall_impl; [exact Br|]. intros j Hj Hnone.
      rewrite Hlog. apply elem_of_app. right. apply elem_of_app. left. auto.
  - intros k Hk. apply Forall_app in Hk as [Hk1 Hk2].
    rewrite Ht' by exact Hk2. apply Ht, Hk1.
Qed.

Lemma settled_start (st0 : Progress) : Settled st0 0 st0.
Proof.
  constructor; rewrite ?take_0.
  - reflexivity.
  - cbn [length]. lia.
  - intros k. cbn [fmap list_fmap concat]. rewrite app_nil_r. reflexivity.
  - constructor.
  - reflexivity.
Qed.

(** The batch loop of a run settles every job. *)
Lemma batchLoop_settles (st0 : Progress) :
  exists i, length jobs <= i
            /\ Settled st0 i (batchLoop (length jobs) server site jobs 0 st0).
Proof.
  apply (batchLoop_invariant (Settled st0) (turn_settled st0)).
  - unfold BATCH_SIZE. lia.
  - apply settled_start.
Qed.

Lemma cadence_quiet (batch : list Candidate) :
  cadence (concat ((fun j => snd (outcome j)) <$> batch)) = []
  /\ cadence (verdict' <$> (settle' <$> batch)) = [].
Proof.
  induction batch as [|j batch [IH1 IH2]]; [done|].
  rewrite !fmap_cons. cbn [concat]. split.
  - rewrite cadence_app, IH1. destruct (outcome_quiet j) as (_ & -> & _).
    reflexivity.
  - change (cadence ([verdict' (settle' j)]
                       ++ (verdict' <$> (settle' <$> batch))) = []).
    rewrite cadence_app, IH2.
    destruct (verdict_quiet (settle' j) "") as [_ ->]. reflexivity.
Qed.

Lemma turn_cadence (i : nat) (st : Progress) :
  cadence (log (turn i st))
  = cadence (log st)
    ++ Batch (id <$> take BATCH_SIZE (drop i jobs))
    :: (if i + BATCH_SIZE <? length jobs then [Pause] else []).
Proof.
  unfold Enricher.turn.
  destruct (processBatch_spec (take BATCH_SIZE (drop i jobs)) st)
    as (Hlog & _).
  destruct (cadence_quiet (take BATCH_SIZE (drop i jobs))) as [Hc1 Hc2].
  assert (Hbatch : cadence (log (processBatch server site
                                   (take BATCH_SIZE (drop i jobs)) st))
                   = cadence (log st)
                     ++ [Batch (id <$> take BATCH_SIZE (drop i jobs))]).
  { rewrite Hlog, cadence_app. unfold Enricher.batchLog. cbn [cadence].
    rewrite cadence_app, Hc1, Hc2. reflexivity. }
  destruct (i + BATCH_SIZE <? length jobs).
  - cbn [say log]. rewrite cadence_app, Hbatch, <- app_assoc. reflexivity.
  - rewrite Hbatch. reflexivity.
Qed.

Lemma batchLoop_cadence (fuel : nat) :
  forall i st,
  cadence (log (batchLoop fuel server site jobs i st))
  = cadence (log st) ++ beats fuel jobs i.
Proof.
  induction fuel as [|fuel IH]; intros i st; cbn [batchLoop beats].
  - rewrite app_nil_r. reflexivity.
  - destruct (i <? length jobs); [|rewrite app_nil_r; reflexivity].
    change (batchLoop fuel server site jobs (i + BATCH_SIZE) ?s)
      with (batchLoop fuel server site jobs (i + BATCH_SIZE) (turn i st)).
    rewrite IH, turn_cadence, <- app_assoc. reflexivity.
Qed.

End EnrichmentRun.

Section EnrichmentClaims.
Import Text Db Enricher.
Variable server : Server.
Variable site : Site.



Lemma selection_quiet (tbl0 : Table) :
  failures (snd (getJobsNeedingEnrichment server tbl0)) = 0
  /\ cadence (snd (getJobsNeedingEnrichment server tbl0)) = []
  /\ forall k, visitsOf k (snd (getJobsNeedingEnrichment server tbl0)) = [].
Proof.
  unfold getJobsNeedingEnrichment.
  destruct (negb (getConnection server) || faulty server _); done.
Qed.



(** The run, when there are candidates and the browser launches. *)
Lemma run_settles (tbl0 : Table) (jobs : list Candidate) :
  fst (getJobsNeedingEnrichment server tbl0) = jobs ->
  jobs <> [] ->
  exists st,
    Settled site jobs
      {| tbl := tbl0; enrichedCount := 0; failedCount := 0;
         log := snd (getJobsNeedingEnrichment server tbl0)
                ++ [BrowserLaunched] |}
      (length jobs) st
    /\ cadence (log st) = beats (length jobs) jobs 0
    /\ enrichJobDescriptions server site true tbl0
       = {| result := Some {| total := length jobs;
                              enriched := enrichedCount st;
                              failed := failedCount st |};
            table := tbl st;
            events := log st ++ [BrowserClosed] |}.
Proof.
  intros Hjobs Hne. unfold enrichJobDescriptions.
  destruct (getJobsNeedingEnrichment server tbl0) as [jobs' selection] eqn:Hsel.
  simpl in Hjobs. subst jobs'.
  destruct jobs as [|j jobs]; [congruence|].
  set (st0 := {| tbl := tbl0; enrichedCount := 0; failedCount := 0;
                 log := selection ++ [BrowserLaunched] |}).
  exists (batchLoop (length (j :: jobs)) server site (j :: jobs) 0 st0).
  split; [|split; [|reflexivity]].
  - destruct (batchLoop_settles server site (j :: jobs) st0)
      as (i & Hi & [Hf Hs Hv Hr Ht]).
    rewrite take_ge in Hs, Hv, Hr, Ht by exact Hi.
    constructor; rewrite ?take_ge by reflexivity; assumption.
  - rewrite batchLoop_cadence. cbn [log st0].
    rewrite cadence_app.
    pose proof (selection_quiet tbl0) as (_ & Hc & _).
    rewrite Hsel in Hc. simpl in Hc. rewrite Hc. reflexivity.
Qed.



(** C4.  With 12 candidates and batches of 5, the run makes three
    batches, of the first five, the next five and the last two
    candidates in order, and sleeps after the first and after the second
    batch only. *)
Theorem twelve_candidates_three_batches (tbl0 : Table) :
  length (fst (getJobsNeedingEnrichment server tbl0)) = 12 ->
  cadence (events (enrichJobDescriptions server site true tbl0))
  = [ Batch (id <$> take 5 (fst (getJobsNeedingEnrichment server tbl0)));
      Pause;
      Batch (id <$> take 5
               (drop 5 (fst (getJobsNeedingEnrichment server tbl0))));
      Pause;
      Batch (id <$> drop 10 (fst (getJobsNeedingEnrichment server tbl0))) ]
  /\ length (take 5 (fst (getJobsNeedingEnrichment server tbl0))) = 5
  /\ length (take 5 (drop 5 (fst (getJobsNeedingEnrichment server tbl0)))) = 5
  /\ length (drop 10 (fst (getJobsNeedingEnrichment server tbl0))) = 2
  /\ take 5 (fst (getJobsNeedingEnrichment server tbl0))
     ++ take 5 (drop 5 (fst (getJobsNeedingEnrichment server tbl0)))
     ++ drop 10 (fst (getJobsNeedingEnrichment server tbl0))
     = fst (getJobsNeedingEnrichment server tbl0).
Proof.
  intros Hlen.
  assert (Hne : fst (getJobsNeedingEnrichment server tbl0) <> [])
    by (intros Hnil; rewrite Hnil in Hlen; discriminate).
  destruct (run_settles tbl0 _ eq_refl Hne) as (st & _ & Hc & ->).
  set (jobs := fst (getJobsNeedingEnrichment server tbl0)) in *.
  cbn [events]. rewrite cadence_app, Hc, Hlen.
  assert (Hlast : take 5 (drop 10 jobs) = drop 10 jobs)
    by (apply take_ge; rewrite length_drop, Hlen; simpl; lia).
  split; [|split; [|split; [|split]]].
  - unfold beats, BATCH_SIZE. rewrite Hlen. cbn [Nat.ltb Nat.leb Nat.add].
    rewrite drop_0, Hlast. reflexivity.
  - rewrite length_take, Hlen. reflexivity.
  - rewrite length_take, length_drop, Hlen. reflexivity.
  - rewrite length_drop, Hlen. reflexivity.
  - change 10 with (5 + 5). rewrite <- (drop_drop jobs 5 5), take_drop.
    apply take_drop.
Qed.

(** C10, as the code has it.  When the candidate query cannot be run,
    because no connection is obtained or the statement throws,
    [getJobsNeedingEnrichment] logs the error and returns no rows, so the
    run ends normally with the summary 0/0/0, whether or not a browser
    could be launched.  When there are candidates and the browser cannot
    be launched, the run rejects: no job is visited and the table is
    untouched. *)
Theorem run_level_failures (tbl0 : Table) (launches : bool) :
  (getConnection server = false
   \/ faulty server SelectNeedingEnrichment = true ->
   enrichJobDescriptions server site launches tbl0
   = {| result := Some {| total := 0; enriched := 0; failed := 0 |};
        table := tbl0; events := [SelectionFailed] |})
  /\ (fst (getJobsNeedingEnrichment server tbl0) <> [] ->
      enrichJobDescriptions server site false tbl0
      = {| result := None; table := tbl0; events := [] |}).
Proof.
  unfold enrichJobDescriptions, getJobsNeedingEnrichment. split.
  - intros [-> | Hf]; [reflexivity|].
    rewrite Hf, orb_true_r. reflexivity.
  - destruct (negb (getConnection server) || faulty server _);
      [intros H; contradiction H; reflexivity|].
    cbn [fst]. intros Hne.
    destruct (candidateOf <$> _); [congruence | reflexivity].
Qed.

End EnrichmentClaims.


Lemma twelve_candidates_three_batches_witness :
  Enricher.cadence
    (Enricher.events
       (Enricher.enrichJobDescriptions Db.healthy Samples.shortSite true
          Samples.twelvePending))
  = [ Enricher.Batch ["kL"; "kK"; "kJ"; "kI"; "kH"]; Enricher.Pause;
      Enricher.Batch ["kG"; "kF"; "kE"; "kD"; "kC"]; Enricher.Pause;
      Enricher.Batch ["kB"; "kA"] ].
Proof.
  refine (eq_trans
            (proj1 (twelve_candidates_three_batches Db.healthy
                      Samples.shortSite Samples.twelvePending _)) _).
  - vm_compute. reflexivity.
  - vm_compute. reflexivity.
Defined.

(** C10 fails on the code for the store: with no connection to the
    database, the run resolves, with a summary of nothing to do. *)
Lemma unreachable_store_is_not_propagated :
  Enricher.result
    (Enricher.enrichJobDescriptions Samples.unreachable Samples.shortSite
       true Samples.onePending)
  = Some {| Enricher.total := 0; Enricher.enriched := 0;
            Enricher.failed := 0 |}
  /\ Enricher.result
       (Enricher.enrichJobDescriptions Samples.unreachable Samples.shortSite
          true Samples.onePending) <> None.
Proof. split; [reflexivity | discriminate]. Qed.

Lemma run_level_failures_witness :
  Enricher.enrichJobDescriptions Samples.unreachable Samples.shortSite true
    Samples.onePending
  = {| Enricher.result :=
         Some {| Enricher.total := 0; Enricher.enriched := 0;
                 Enricher.failed := 0 |};
       Enricher.table := Samples.onePending;
       Enricher.events := [Enricher.SelectionFailed] |}
  /\ Enricher.enrichJobDescriptions Db.healthy Samples.shortSite false
       Samples.onePending
     = {| Enricher.result := None; Enricher.table := Samples.onePending;
          Enricher.events := [] |}.
Proof.
  split.
  - apply (proj1 (run_level_failures Samples.unreachable Samples.shortSite
                    Samples.onePending true)).
    left. reflexivity.
  - apply (proj2 (run_level_failures Db.healthy Samples.shortSite
                    Samples.onePending true)).
    vm_compute. discriminate.
Defined.

(** ** The crawl of the popup *)

Section CrawlFuel.
Import Popup.
Variable c : Crawl.

(** The fuel of the two functions is never used up: with the fuel that
    the locations still ahead require, more fuel gives the same state. *)
Lemma scrapeNext_enough (fuel1 : nat) :
  forall fuel2,
  (forall st,
     2 * (length (selectedLocations c) - currentLocationIndex st) + 1
       <= fuel1 ->
     2 * (length (selectedLocations c) - currentLocationIndex st) + 1
       <= fuel2 ->
     scrapeNextLocation fuel1 c st = scrapeNextLocation fuel2 c st)
  /\ (forall st,
        Nat.max 2 (2 * (length (selectedLocations c)
                        - currentLocationIndex st)) <= fuel1 ->
        Nat.max 2 (2 * (length (selectedLocations c)
                        - currentLocationIndex st)) <= fuel2 ->
        scrapeNextKeyword fuel1 c st = scrapeNextKeyword fuel2 c st).
Proof.
  induction fuel1 as [|fuel1 IH]; intros fuel2.
  { split; intros st H1 H2; lia. }
  destruct fuel2 as [|fuel2]; [split; intros st H1 H2; lia|].
  destruct (IH fuel2) as [IHl IHk].
  split; intros st H1 H2; cbn [scrapeNextLocation scrapeNextKeyword].
  - destruct (negb (isRunning st)); cbn [orb]; [reflexivity|].
    destruct (Nat.leb_spec (length (selectedLocations c))
                (currentLocationIndex st)); [reflexivity|].
    apply IHk; cbn [setKeywordIndex currentLocationIndex]; lia.
  - destruct (negb (isRunning st)); [reflexivity|].
    destruct (length (keywords c) <=? currentKeywordIndex st);
      [|reflexivity].
    apply IHl; cbn [setLocationIndex currentLocationIndex]; lia.
Qed.

Lemma depth_is_enough (extra : nat) (st : State) :
  scrapeNextLocation (depth c + extra) c st = scrapeNextLocation (depth c) c st
  /\ scrapeNextKeyword (depth c + extra) c st
     = scrapeNextKeyword (depth c) c st.
Proof.
  destruct (scrapeNext_enough (depth c + extra) (depth c)) as [Hl Hk].
  unfold depth in *. split; [apply Hl | apply Hk]; lia.
Qed.

End CrawlFuel.

Section Crawl.
Import Popup.
Variable c : Crawl.

(** Unfolds the updates of the state and reads the fields. *)
Ltac fields :=
  cbv beta iota zeta delta
    [advance skipAfterError suspend emit setAwaited setPending setAllJobs
     setKeywordIndex setLocationIndex setRunning
     isRunning currentLocationIndex currentKeywordIndex allJobs pending
     awaited trace].

(** Unfolds the updates of the state only. *)
Ltac setters :=
  cbv beta iota zeta delta
    [advance skipAfterError suspend emit setAwaited setPending setAllJobs
     setKeywordIndex setLocationIndex setRunning].

Lemma visits_app (es1 es2 : list Effect) :
  visits (es1 ++ es2) = visits es1 ++ visits es2.
Proof.
  induction es1 as [|e es1 IH]; [reflexivity|].
  destruct e; simpl; rewrite ?IH; reflexivity.
Qed.

Lemma steps_app (es1 es2 : list Effect) :
  steps (es1 ++ es2) = steps es1 ++ steps es2.
Proof.
  induction es1 as [|e es1 IH]; [reflexivity|].
  destruct e; simpl; rewrite ?IH; reflexivity.
Qed.

Lemma scrapeRequests_app (es1 es2 : list Effect) :
  scrapeRequests (es1 ++ es2) = scrapeRequests es1 + scrapeRequests es2.
Proof.
  induction es1 as [|e es1 IH]; [reflexivity|].
  destruct e; simpl; rewrite ?IH; reflexivity.
Qed.

(** [scrapeNextKeyword] when a keyword is left for the location. *)
Lemma scrapeNextKeyword_begins (fuel : nat) (st : State)
  (location : Location) (keyword : string) :
  isRunning st = true ->
  selectedLocations c !! currentLocationIndex st = Some location ->
  keywords c !! currentKeywordIndex st = Some keyword ->
  scrapeNextKeyword (S fuel) c st
  = suspend (AwaitTabQuery location keyword)
            (emit [StepInfo location keyword] st).
Proof.
  intros Hrun Hloc Hkw. cbn [scrapeNextKeyword]. rewrite Hrun. cbn [negb].
  apply lookup_lt_Some in Hkw as Hlt.
  destruct (Nat.leb_spec (length (keywords c)) (currentKeywordIndex st));
    [lia|].
  rewrite Hloc, Hkw. reflexivity.
Qed.

(** [scrapeNextKeyword] when the keywords of the location are exhausted
    and another location follows. *)
Lemma scrapeNextKeyword_next_location (fuel : nat) (st : State)
  (location : Location) (keyword : string) :
  isRunning st = true ->
  length (keywords c) <= currentKeywordIndex st ->
  selectedLocations c !! S (currentLocationIndex st) = Some location ->
  keywords c !! 0 = Some keyword ->
  scrapeNextKeyword (S (S (S fuel))) c st
  = suspend (AwaitTabQuery location keyword)
      (emit [StepInfo location keyword]
         (setKeywordIndex 0
            (setLocationIndex (S (currentLocationIndex st)) st))).
Proof.
  intros Hrun Hk Hloc Hkw.
  cbn [scrapeNextKeyword]. rewrite Hrun. cbn [negb].
  destruct (Nat.leb_spec (length (keywords c)) (currentKeywordIndex st));
    [|lia].
  cbn [scrapeNextLocation isRunning setLocationIndex currentLocationIndex].
  rewrite Hrun. cbn [negb orb].
  apply lookup_lt_Some in Hloc as Hlt.
  destruct (Nat.leb_spec (length (selectedLocations c))
              (S (currentLocationIndex st))); [lia|].
  apply scrapeNextKeyword_begins; assumption.
Qed.

(** [scrapeNextKeyword] after the last keyword of the last location. *)
Lemma scrapeNextKeyword_finishes (fuel : nat) (st : State) :
  isRunning st = true ->
  length (keywords c) <= currentKeywordIndex st ->
  length (selectedLocations c) <= S (currentLocationIndex st) ->
  scrapeNextKeyword (S (S fuel)) c st
  = finish c (setLocationIndex (S (currentLocationIndex st)) st).
Proof.
  intros Hrun Hk Hloc.
  cbn [scrapeNextKeyword]. rewrite Hrun. cbn [negb].
  destruct (Nat.leb_spec (length (keywords c)) (currentKeywordIndex st));
    [|lia].
  cbn [scrapeNextLocation isRunning setLocationIndex currentLocationIndex].
  rewrite Hrun. cbn [negb orb].
  destruct (Nat.leb_spec (length (selectedLocations c))
              (S (currentLocationIndex st))); [reflexivity | lia].
Qed.

Lemma run_cons (st : State) (i : Input) (inputs : list Input) :
  run c st (i :: inputs) = run c (step c st i) inputs.
Proof. reflexivity. Qed.

(** The turns of a search step that meets no obstacle, one by one. *)
Lemma step_tab_found (i k : nat) (location : Location) (keyword : string)
  (jobs : list Content.Job) (es : list Effect) :
  step c (ready i k location keyword jobs es) (Resolve true)
  = {| isRunning := true; currentLocationIndex := i;
       currentKeywordIndex := k; allJobs := jobs;
       pending := [AwaitTabUpdate]; awaited := 0;
       trace := es ++ [Navigate location keyword] |}.
Proof. reflexivity. Qed.

Lemma step_navigated (i k : nat) (jobs : list Content.Job) (es : list Effect) :
  step c {| isRunning := true; currentLocationIndex := i;
            currentKeywordIndex := k; allJobs := jobs;
            pending := [AwaitTabUpdate]; awaited := 0; trace := es |}
       (Resolve true)
  = {| isRunning := true; currentLocationIndex := i;
       currentKeywordIndex := k; allJobs := jobs;
       pending := [SettleTimer]; awaited := 0; trace := es |}.
Proof. reflexivity. Qed.

Lemma step_settled (i k : nat) (jobs : list Content.Job) (es : list Effect) :
  step c {| isRunning := true; currentLocationIndex := i;
            currentKeywordIndex := k; allJobs := jobs;
            pending := [SettleTimer]; awaited := 0; trace := es |}
       Fire
  = {| isRunning := true; currentLocationIndex := i;
       currentKeywordIndex := k; allJobs := jobs;
       pending := [AwaitPageTabQuery]; awaited := 0; trace := es |}.
Proof. reflexivity. Qed.

Lemma step_requested (i k : nat) (jobs : list Content.Job) (es : list Effect) :
  step c {| isRunning := true; currentLocationIndex := i;
            currentKeywordIndex := k; allJobs := jobs;
            pending := [AwaitPageTabQuery]; awaited := 0; trace := es |}
       (Resolve true)
  = {| isRunning := true; currentLocationIndex := i;
       currentKeywordIndex := S k; allJobs := jobs;
       pending := [NextTimer (searchDelay c)]; awaited := 1;
       trace := es ++ [ScrapeRequest] |}.
Proof. reflexivity. Qed.

Lemma step_replied (running : bool) (i k n : nat) (jobs : list Content.Job)
  (ks : list Cont) (es : list Effect) (response : option (list Content.Job)) :
  step c {| isRunning := running; currentLocationIndex := i;
            currentKeywordIndex := k; allJobs := jobs;
            pending := ks; awaited := S n; trace := es |}
       (Reply response)
  = {| isRunning := running; currentLocationIndex := i;
       currentKeywordIndex := k; allJobs := jobs ++ jobsOf response;
       pending := ks; awaited := n; trace := es ++ replyEffects response |}.
Proof.
  destruct response as [[|job more]|]; cbn; rewrite ?app_nil_r; reflexivity.
Qed.

Lemma step_next (i k ms : nat) (jobs : list Content.Job) (es : list Effect) :
  step c {| isRunning := true; currentLocationIndex := i;
            currentKeywordIndex := k; allJobs := jobs;
            pending := [NextTimer ms]; awaited := 0; trace := es |}
       Fire
  = scrapeNextKeyword (depth c) c
      {| isRunning := true; currentLocationIndex := i;
         currentKeywordIndex := k; allJobs := jobs;
         pending := []; awaited := 0; trace := es |}.
Proof. reflexivity. Qed.

(** A search step that meets no obstacle. *)
Lemma calm_step (i k : nat) (location : Location) (keyword : string)
  (jobs : list Content.Job) (es : list Effect)
  (response : option (list Content.Job)) :
  run c (ready i k location keyword jobs es) (calmStep response)
  = scrapeNextKeyword (depth c) c
      {| isRunning := true; currentLocationIndex := i;
         currentKeywordIndex := S k; allJobs := jobs ++ jobsOf response;
         pending := []; awaited := 0;
         trace := es ++ [Navigate location keyword; ScrapeRequest]
                     ++ replyEffects response |}.
Proof.
  unfold calmStep.
  rewrite run_cons, step_tab_found, run_cons, step_navigated, run_cons,
    step_settled, run_cons, step_requested, run_cons, step_replied,
    run_cons, step_next, <- !app_assoc.
  reflexivity.
Qed.

Lemma run_app (st : State) (inputs1 inputs2 : list Input) :
  run c st (inputs1 ++ inputs2) = run c (run c st inputs1) inputs2.
Proof. apply foldl_app. Qed.

Lemma finish_spec (st : State) :
  isRunning (finish c st) = false
  /\ pending (finish c st) = pending st
  /\ allJobs (finish c st) = allJobs st
  /\ awaited (finish c st) = awaited st
  /\ currentLocationIndex (finish c st) = currentLocationIndex st
  /\ exists es, trace (finish c st) = trace st ++ es
                /\ visits es = [] /\ steps es = [] /\ scrapeRequests es = 0.
Proof.
  unfold finish.
  destruct (autoUpload c && (0 <? length (allJobs _))); fields.
  - do 5 (split; [reflexivity|]).
    exists [Finished; Upload (allJobs st)].
    rewrite <- app_assoc. do 3 (split; [reflexivity|]). reflexivity.
  - do 5 (split; [reflexivity|]).
    exists [Finished]. do 3 (split; [reflexivity|]). reflexivity.
Qed.

Lemma begin_ready (i k : nat) (location : Location) (keyword : string)
  (jobs : list Content.Job) (es : list Effect) :
  suspend (AwaitTabQuery location keyword)
    (emit [StepInfo location keyword]
       {| isRunning := true; currentLocationIndex := i;
          currentKeywordIndex := k; allJobs := jobs; pending := [];
          awaited := 0; trace := es |})
  = ready i k location keyword jobs (es ++ [StepInfo location keyword]).
Proof. reflexivity. Qed.

(** A crawl that meets no obstacle, from the step for the keyword [k] of
    the location [i] on. *)
Lemma visits_reply (response : option (list Content.Job)) :
  visits (replyEffects response) = [].
Proof. destruct response; reflexivity. Qed.











Lemma start_ready (location : Location) (locations : list Location)
  (keyword : string) (more : list string) :
  selectedLocations c = location :: locations ->
  keywords c = keyword :: more ->
  start c = ready 0 0 location keyword [] [StepInfo location keyword].
Proof.
  intros Hl Hk. unfold start. rewrite Hk. unfold depth.
  cbn [Nat.add scrapeNextLocation].
  rewrite Hl. cbn [setRunning isRunning negb orb length Nat.leb
                   currentLocationIndex].
  rewrite (scrapeNextKeyword_begins _ _ location keyword).
  - reflexivity.
  - reflexivity.
  - cbn. rewrite Hl. reflexivity.
  - cbn. rewrite Hk. reflexivity.
Qed.


(** A stopped crawl stays stopped, begins no step and keeps what it
    collected. *)
Lemma step_stopped (st : State) (i : Input) :
  isRunning st = false ->
  isRunning (step c st i) = false
  /\ steps (trace (step c st i)) = steps (trace st)
  /\ allJobs st `prefix_of` allJobs (step c st i).
Proof.
  destruct st as [running li ki jobs ks aw es]. cbn [isRunning].
  intros ->.
  assert (Hresume : forall k st',
            resume c k i {| isRunning := false; currentLocationIndex := li;
                            currentKeywordIndex := ki; allJobs := jobs;
                            pending := List.tl ks; awaited := aw;
                            trace := es |}
            = Some st' ->
            isRunning st' = false /\ steps (trace st') = steps es
            /\ jobs `prefix_of` allJobs st').
  { intros k st' Hres.
    destruct k, i as [[|]| | | |]; cbv beta iota delta [resume] in Hres;
      try discriminate;
      apply (inj Some) in Hres; subst st'; fields;
      rewrite ?steps_app, ?app_nil_r; auto. }
  destruct i as [tab| | |response|].
  - cbn [step pending]. setters. cbn [isRunning trace allJobs pending awaited].
    destruct ks as [|k rest]; [auto|].
    destruct (resume c k (Resolve tab) _) eqn:Hres; [|auto].
    apply (Hresume k), Hres.
  - cbn [step pending]. setters. cbn [isRunning trace allJobs pending awaited].
    destruct ks as [|k rest]; [auto|].
    destruct (resume c k Reject _) eqn:Hres; [|auto].
    apply (Hresume k), Hres.
  - cbn [step pending]. setters. cbn [isRunning trace allJobs pending awaited].
    destruct ks as [|k rest]; [auto|].
    destruct (resume c k Fire _) eqn:Hres; [|auto].
    apply (Hresume k), Hres.
  - destruct aw as [|n]; [cbn [step awaited]; auto|].
    rewrite step_replied. cbn [isRunning trace allJobs].
    rewrite steps_app.
    split; [reflexivity|]. split; [|apply prefix_app_r; reflexivity].
    destruct response; cbn; apply app_nil_r.
  - cbn [step]. setters. cbn [isRunning trace allJobs]. auto.
Qed.

Lemma run_stopped (inputs : list Input) :
  forall st, isRunning st = false ->
  isRunning (run c st inputs) = false
  /\ steps (trace (run c st inputs)) = steps (trace st)
  /\ allJobs st `prefix_of` allJobs (run c st inputs).
Proof.
  induction inputs as [|i inputs IH]; intros st Hst; [auto|].
  rewrite run_cons.
  destruct (step_stopped st i Hst) as (Hr & Hs & Hj).
  destruct (IH _ Hr) as (Hr' & Hs' & Hj').
  rewrite Hs', Hs. repeat split; [exact Hr'|]. etrans; eassumption.
Qed.

Lemma lookups_app (ks1 ks2 : list Cont) :
  lookups (ks1 ++ ks2) = lookups ks1 ++ lookups ks2.
Proof.
  induction ks1 as [|k ks1 IH]; [reflexivity|].
  destruct k; cbn [app lookups]; rewrite IH; reflexivity.
Qed.

(** A turn of a stopped crawl issues no search but that of a tab query
    in flight, which it then leaves, and puts no tab query in flight. *)
Lemma step_stopped_visits (st : State) (i : Input) :
  isRunning st = false ->
  exists es,
    trace (step c st i) = trace st ++ es
    /\ visits es ++ lookups (pending (step c st i))
         `sublist_of` lookups (pending st).
Proof.
  destruct st as [running li ki jobs ks aw es]. cbn [isRunning].
  intros ->.
  assert (Hnone : exists es',
            es = es ++ es'
            /\ visits es' ++ lookups ks `sublist_of` lookups ks).
  { exists []. rewrite app_nil_r. split; reflexivity. }
  assert (Hresume : forall k rest st',
            resume c k i {| isRunning := false; currentLocationIndex := li;
                            currentKeywordIndex := ki; allJobs := jobs;
                            pending := rest; awaited := aw; trace := es |}
            = Some st' ->
            exists es',
              trace st' = es ++ es'
              /\ visits es' ++ lookups (pending st')
                   `sublist_of` lookups (k :: rest)).
  { intros k rest st' Hres.
    destruct k, i as [[|]| | | |]; cbv beta iota delta [resume] in Hres;
      try discriminate;
      apply (inj Some) in Hres; subst st'; fields;
      first [ eexists; split; [reflexivity|]
            | exists []; split; [rewrite app_nil_r; reflexivity|] ];
      cbn [visits lookups app]; rewrite ?lookups_app, ?app_nil_r;
      cbn [lookups]; rewrite ?app_nil_r;
      first [ reflexivity | apply sublist_cons; reflexivity ]. }
  destruct i as [tab| | |response|].
  - cbn [step pending]. setters. cbn [trace pending].
    destruct ks as [|k rest]; [exact Hnone|].
    destruct (resume c k (Resolve tab) _) eqn:Hres; [|exact Hnone].
    apply (Hresume k rest), Hres.
  - cbn [step pending]. setters. cbn [trace pending].
    destruct ks as [|k rest]; [exact Hnone|].
    destruct (resume c k Reject _) eqn:Hres; [|exact Hnone].
    apply (Hresume k rest), Hres.
  - cbn [step pending]. setters. cbn [trace pending].
    destruct ks as [|k rest]; [exact Hnone|].
    destruct (resume c k Fire _) eqn:Hres; [|exact Hnone].
    apply (Hresume k rest), Hres.
  - destruct aw as [|n]; [cbn [step awaited trace pending]; exact Hnone|].
    rewrite step_replied. cbn [trace pending].
    exists (replyEffects response). split; [reflexivity|].
    rewrite visits_reply. reflexivity.
  - cbn [step]. setters. cbn [trace pending]. exact Hnone.
Qed.

Lemma run_stopped_visits (inputs : list Input) :
  forall st, isRunning st = false ->
  exists es,
    trace (run c st inputs) = trace st ++ es
    /\ visits es `sublist_of` lookups (pending st).
Proof.
  induction inputs as [|i inputs IH]; intros st Hst.
  { exists []. rewrite app_nil_r. split; [reflexivity | apply sublist_nil_l]. }
  rewrite run_cons.
  destruct (step_stopped_visits st i Hst) as (es1 & Ht1 & Hv1).
  destruct (step_stopped st i Hst) as (Hr & _).
  destruct (IH _ Hr) as (es2 & Ht2 & Hv2).
  exists (es1 ++ es2). rewrite Ht2, Ht1, <- app_assoc.
  split; [reflexivity|]. rewrite visits_app.
  etransitivity; [|exact Hv1].
  apply sublist_app; [reflexivity | exact Hv2].
Qed.

Lemma errorsOnly_app (es1 es2 : list Effect) :
  errorsOnly es1 -> errorsOnly es2 -> errorsOnly (es1 ++ es2).
Proof. intros H1 H2. apply Forall_app. auto. Qed.

Lemma errorsOnly_reply (response : option (list Content.Job)) :
  errorsOnly (replyEffects response).
Proof. destruct response; repeat constructor. Qed.

(** A crawl that is winding down issues no search, sends no scrape
    request and finishes nothing: it shows errors at most, and it takes
    the replies it still awaits. *)
Ltac quiet es0 :=
  cbn;
  split; [split; [reflexivity | eauto 6]|];
  split; [exists es0; split; [rewrite ?app_nil_r; reflexivity
                             | repeat constructor]|];
  intros; split; first [reflexivity | assumption | congruence].

Lemma step_winding (st : State) (i : Input) :
  windingDown st ->
  windingDown (step c st i)
  /\ (exists es, trace (step c st i) = trace st ++ es /\ errorsOnly es)
  /\ (awaited st = 0 ->
      awaited (step c st i) = 0 /\ allJobs (step c st i) = allJobs st).
Proof.
  destruct st as [running li ki jobs ks aw es]. unfold windingDown.
  cbn [isRunning pending awaited trace allJobs]. intros [-> Hks].
  destruct i as [tab| | |response|].
  - destruct Hks as [-> | [-> | [-> | [ms ->]]]]; quiet (@nil Effect).
  - destruct Hks as [-> | [-> | [-> | [ms ->]]]];
      [quiet (@nil Effect) | quiet (@nil Effect) | quiet [ShowError]
       | quiet (@nil Effect)].
  - destruct Hks as [-> | [-> | [-> | [ms ->]]]]; quiet (@nil Effect).
  - destruct aw as [|n].
    { destruct Hks as [-> | [-> | [-> | [ms ->]]]]; quiet (@nil Effect). }
    rewrite step_replied. cbn [isRunning pending trace awaited allJobs].
    split; [auto|].
    split; [exists (replyEffects response);
            split; [reflexivity | apply errorsOnly_reply]|].
    discriminate.
  - destruct Hks as [-> | [-> | [-> | [ms ->]]]]; quiet (@nil Effect).
Qed.

Lemma run_winding (inputs : list Input) :
  forall st, windingDown st ->
  (exists es, trace (run c st inputs) = trace st ++ es /\ errorsOnly es)
  /\ (awaited st = 0 -> allJobs (run c st inputs) = allJobs st).
Proof.
  induction inputs as [|i inputs IH]; intros st Hst.
  { split; [exists []; rewrite app_nil_r; split; [reflexivity | constructor]
           | reflexivity]. }
  rewrite run_cons.
  destruct (step_winding st i Hst) as (Hw & (es1 & Ht1 & He1) & Ha1).
  destruct (IH _ Hw) as ((es2 & Ht2 & He2) & Ha2).
  split.
  - exists (es1 ++ es2). rewrite Ht2, Ht1, <- app_assoc.
    split; [reflexivity | apply errorsOnly_app; assumption].
  - intros Haw. destruct (Ha1 Haw) as [Haw' Hjobs]. rewrite Ha2; auto.
Qed.

(** An abandoned crawl does nothing more; it only takes the replies it
    still awaits. *)
Lemma step_abandoned (st : State) (i : Input) :
  abandoned st -> awaited st = 0 ->
  abandoned (step c st i) /\ awaited (step c st i) = 0
  /\ trace (step c st i) = trace st.
Proof.
  destruct st as [running li ki jobs ks aw es]. unfold abandoned.
  cbn [isRunning pending awaited trace allJobs]. intros [-> Hks] ->.
  destruct i; cbn [step pending awaited]; setters;
    cbn [isRunning trace allJobs pending awaited];
    try (destruct Hks as [-> | ->]; cbn; auto); auto.
Qed.

Lemma run_abandoned (inputs : list Input) :
  forall st, abandoned st -> awaited st = 0 ->
  trace (run c st inputs) = trace st.
Proof.
  induction inputs as [|i inputs IH]; intros st Hst Haw; [reflexivity|].
  rewrite run_cons.
  destruct (step_abandoned st i Hst Haw) as (Hab & Haw' & Ht).
  rewrite IH by assumption. exact Ht.
Qed.

(** After a stop during the tab query of a step, the navigation of this
    step may still be issued; nothing else is. *)
Lemma run_stopped_in_lookup (location : Location) (keyword : string)
  (inputs : list Input) :
  forall st,
  isRunning st = false ->
  pending st = [AwaitTabQuery location keyword] ->
  exists es,
    trace (run c st inputs) = trace st ++ es
    /\ Forall (fun e => e = ShowError \/ e = Navigate location keyword) es
    /\ (visits es = [] \/ visits es = [(location, keyword)]).
Proof.
  assert (Hvisits : forall es, errorsOnly es -> visits es = []).
  { induction 1 as [|e es -> _ IH]; [reflexivity | exact IH]. }
  assert (Hweak : forall es, errorsOnly es ->
            Forall (fun e => e = ShowError \/ e = Navigate location keyword)
                   es).
  { intros es Hes. eapply Forall_impl; [exact Hes|]. cbn. auto. }
  assert (Hwind : forall (st st' : State) es1 rest,
            windingDown st' -> trace st' = trace st ++ es1 ->
            Forall (fun e => e = ShowError \/ e = Navigate location keyword)
                   es1 ->
            visits es1 = [] \/ visits es1 = [(location, keyword)] ->
            exists es,
              trace (run c st' rest) = trace st ++ es
              /\ Forall (fun e => e = ShowError
                                  \/ e = Navigate location keyword) es
              /\ (visits es = [] \/ visits es = [(location, keyword)])).
  { intros st st' es1 rest Hw Ht Hes1 Hv1.
    destruct (run_winding rest st' Hw) as ((es2 & Ht2 & He2) & _).
    exists (es1 ++ es2). rewrite Ht2, Ht, <- app_assoc.
    split; [reflexivity|]. split; [apply Forall_app; auto|].
    rewrite visits_app, (Hvisits es2 He2), app_nil_r. exact Hv1. }
  induction inputs as [|i inputs IH]; intros st Hrun Hp.
  { exists []. rewrite app_nil_r. repeat split; [constructor | auto]. }
  rewrite run_cons.
  destruct st as [running li ki jobs ks aw es].
  cbn [isRunning pending] in Hrun, Hp. subst running ks.
  destruct i as [[|]| | |response|].
  - eapply Hwind with (es1 := [Navigate location keyword]).
    + split; [reflexivity | cbn; tauto].
    + reflexivity.
    + constructor; [right; reflexivity | constructor].
    + right. reflexivity.
  - eapply Hwind with (es1 := [ShowError]).
    + split; [reflexivity | cbn; tauto].
    + reflexivity.
    + constructor; [left; reflexivity | constructor].
    + left. reflexivity.
  - eapply Hwind with (es1 := [ShowError]).
    + split; [reflexivity | cbn; eauto 6].
    + reflexivity.
    + constructor; [left; reflexivity | constructor].
    + left. reflexivity.
  - apply (IH {| isRunning := false; currentLocationIndex := li;
                 currentKeywordIndex := ki; allJobs := jobs;
                 pending := [AwaitTabQuery location keyword];
                 awaited := aw; trace := es |}); reflexivity.
  - destruct aw as [|n].
    { apply (IH {| isRunning := false; currentLocationIndex := li;
                   currentKeywordIndex := ki; allJobs := jobs;
                   pending := [AwaitTabQuery location keyword];
                   awaited := 0; trace := es |}); reflexivity. }
    rewrite step_replied.
    destruct (IH {| isRunning := false; currentLocationIndex := li;
                    currentKeywordIndex := ki;
                    allJobs := jobs ++ jobsOf response;
                    pending := [AwaitTabQuery location keyword];
                    awaited := n; trace := es ++ replyEffects response |}
                eq_refl eq_refl) as (es2 & Ht2 & He2 & Hv2).
    exists (replyEffects response ++ es2).
    rewrite Ht2. cbn [trace]. rewrite <- app_assoc.
    split; [reflexivity|].
    split; [apply Forall_app; split;
            [apply Hweak, errorsOnly_reply | exact He2]|].
    rewrite visits_app, visits_reply. exact Hv2.
  - apply (IH {| isRunning := false; currentLocationIndex := li;
                 currentKeywordIndex := ki; allJobs := jobs;
                 pending := [AwaitTabQuery location keyword];
                 awaited := aw; trace := es |}); reflexivity.
Qed.

(** C6, as the code has it.  The Stop button only clears [isRunning],
    which the crawl reads before it begins a step, when its settle timer
    fires and when its next timer fires.  After a stop, whatever the
    state, the crawl stays stopped, begins no further step and issues no
    search but that of a tab query that was in flight at the stop, and
    what was collected stays in [allJobs].  The step in flight goes on
    until its next reading of [isRunning].  When the stop comes during
    its tab query, its navigation may still be issued, and nothing else
    but error messages follows.  When the stop comes during its
    navigation or its settle delay, the search is abandoned: only error
    messages follow, so that no scrape request is sent, and without a
    reply outstanding [allJobs] stays as it is and, in the settle delay,
    nothing at all happens.  When the stop comes after
    [scrapeCurrentPage] has started, the page is still scraped and its
    jobs are appended; a reply outstanding at the stop is appended when
    it arrives. *)
Theorem stop_takes_effect_at_the_next_check (st : State)
  (inputs : list Input) :
  (isRunning (run c (step c st StopClick) inputs) = false
   /\ steps (trace (run c (step c st StopClick) inputs)) = steps (trace st)
   /\ allJobs st `prefix_of` allJobs (run c (step c st StopClick) inputs)
   /\ exists es,
        trace (run c (step c st StopClick) inputs) = trace st ++ es
        /\ visits es `sublist_of` lookups (pending st))
  /\ (forall location keyword,
      pending st = [AwaitTabQuery location keyword] ->
      exists es,
        trace (run c (step c st StopClick) inputs) = trace st ++ es
        /\ Forall (fun e => e = ShowError \/ e = Navigate location keyword) es
        /\ (visits es = [] \/ visits es = [(location, keyword)]))
  /\ (pending st = [AwaitTabUpdate] \/ pending st = [SettleTimer] ->
      (exists es,
         trace (run c (step c st StopClick) inputs) = trace st ++ es
         /\ errorsOnly es)
      /\ (awaited st = 0 ->
          allJobs (run c (step c st StopClick) inputs) = allJobs st)
      /\ (awaited st = 0 -> pending st = [SettleTimer] ->
          trace (run c (step c st StopClick) inputs) = trace st))
  /\ (forall jobs, pending st = [AwaitPageTabQuery] -> awaited st = 0 ->
      allJobs (run c (step c st StopClick)
                 [Resolve true; Reply (Some jobs)])
      = allJobs st ++ jobs)
  /\ (forall n jobs, awaited st = S n ->
      allJobs (step c (step c st StopClick) (Reply (Some jobs)))
      = allJobs st ++ jobs).
Proof.
  split; [|split; [|split; [|split]]].
  - destruct (run_stopped inputs (step c st StopClick) eq_refl)
      as (Hr & Hs & Hj).
    split; [exact Hr|]. split; [exact Hs|]. split; [exact Hj|].
    apply (run_stopped_visits inputs (step c st StopClick)). reflexivity.
  - intros location keyword Hp.
    apply (run_stopped_in_lookup location keyword inputs
             (step c st StopClick)); [reflexivity | exact Hp].
  - intros Hp.
    assert (Hw : windingDown (step c st StopClick)).
    { split; [reflexivity|]. cbn [step setRunning pending]. tauto. }
    destruct (run_winding inputs _ Hw) as (Ht & Hj).
    split; [exact Ht|]. split; [exact Hj|].
    intros Haw Hsettle.
    apply (run_abandoned inputs (step c st StopClick));
      [split; [reflexivity | right; exact Hsettle] | exact Haw].
  - intros jobs Hp Haw. destruct st as [running li ki js ks aw es].
    cbn [pending awaited] in Hp, Haw. subst ks aw.
    destruct jobs as [|job more]; cbn; rewrite ?app_nil_r; reflexivity.
  - intros n jobs Haw. destruct st as [running li ki js ks aw es].
    cbn [awaited] in Haw. subst aw.
    destruct jobs as [|job more]; cbn; rewrite ?app_nil_r; reflexivity.
Qed.

End Crawl.



(** C6 fails on the code: the search for (A, x) has been issued and its
    settle delay runs when Stop is clicked; the settle timer then finds
    [isRunning] cleared and returns, so the page is never scraped and
    nothing is appended for this search. *)
Lemma stop_during_settle_skips_the_extraction :
  Popup.visits
    (Popup.trace
       (Popup.run Samples.crawlAB (Popup.start Samples.crawlAB)
          [Popup.Resolve true; Popup.Resolve true]))
  = [(Samples.A, "x")]
  /\ Popup.scrapeRequests
       (Popup.trace
          (Popup.run Samples.crawlAB (Popup.start Samples.crawlAB)
             [Popup.Resolve true; Popup.Resolve true; Popup.StopClick;
              Popup.Fire; Popup.Resolve true;
              Popup.Reply (Some [Samples.foundJob]); Popup.Fire]))
     = 0
  /\ Popup.allJobs
       (Popup.run Samples.crawlAB (Popup.start Samples.crawlAB)
          [Popup.Resolve true; Popup.Resolve true; Popup.StopClick;
           Popup.Fire; Popup.Resolve true;
           Popup.Reply (Some [Samples.foundJob]); Popup.Fire])
     = [].
Proof. repeat split; reflexivity. Qed.

Lemma stop_takes_effect_at_the_next_check_witness :
  Popup.trace
    (Popup.run Samples.crawlAB
       (Popup.step Samples.crawlAB Samples.settling Popup.StopClick)
       [Popup.Fire; Popup.Resolve true;
        Popup.Reply (Some [Samples.foundJob]); Popup.Fire])
  = Popup.trace Samples.settling
  /\ Popup.allJobs
       (Popup.run Samples.crawlAB
          (Popup.step Samples.crawlAB Samples.settling Popup.StopClick)
          [Popup.Fire; Popup.Resolve true;
           Popup.Reply (Some [Samples.foundJob]); Popup.Fire])
     = Popup.allJobs Samples.settling.
Proof.
  destruct (stop_takes_effect_at_the_next_check Samples.crawlAB
              Samples.settling
              [Popup.Fire; Popup.Resolve true;
               Popup.Reply (Some [Samples.foundJob]); Popup.Fire])
    as (_ & _ & Hsettle & _ & _).
  destruct (Hsettle (or_intror eq_refl)) as (_ & Hjobs & Htrace).
  split; [exact (Htrace eq_refl eq_refl) | exact (Hjobs eq_refl)].
Defined.

(** * Further properties of the code *)

(** ** The job service *)

Section JobServiceMore.
Import Text Db JobService.
Variable plusOneMonth : Z -> Z.
Variable toLocaleDateString : Z -> string.
Variable like : string -> string -> bool.

Abbreviation insertLoop' := (insertLoop plusOneMonth toLocaleDateString).
Abbreviation addJobs := (addJobsToSystem plusOneMonth toLocaleDateString).
Abbreviation newRow' := (newRow plusOneMonth toLocaleDateString).

(** The loop, whether it completes or is cut short: it keeps every row it
    finds, and its counter grows by the number of rows it adds, which is
    at most the number of records. *)
Lemma insertLoop_any (server : Server) (now : Z) (jobs : list RawJob) :
  forall (tbl : Table) (n : nat),
  (forall i r, tbl !! i = Some r ->
               (insertLoop' server now jobs tbl n).1.1 !! i = Some r)
  /\ size (insertLoop' server now jobs tbl n).1.1 + n
     = size tbl + (insertLoop' server now jobs tbl n).1.2
  /\ (insertLoop' server now jobs tbl n).1.2 <= n + length jobs.
Proof.
  induction jobs as [|j jobs IH]; intros tbl n; cbn [insertLoop].
  { cbn. repeat split; auto; lia. }
  destruct (faulty server (SelectId (id j))); [cbn; repeat split; auto; lia|].
  destruct (tbl !! id j) as [r0|] eqn:Hj.
  - destruct (IH tbl n) as (Hk & Hs & Hn). cbn [length].
    repeat split; auto; lia.
  - destruct (faulty server (InsertJob (id j) (newRow' now j)));
      [cbn; repeat split; auto; lia|].
    destruct (IH (<[id j := newRow' now j]> tbl) (S n)) as (Hk & Hs & Hn).
    cbn [length]. split; [|split].
    + intros i r Hi. apply Hk. rewrite lookup_insert_ne; [exact Hi|].
      intros Heq. rewrite Heq, Hi in Hj. discriminate.
    + rewrite map_size_insert_None in Hs by exact Hj. lia.
    + lia.
Qed.

(** Every row the loop leaves is a row it found or the row it made of a
    record of the batch. *)
Lemma insertLoop_rows (server : Server) (now : Z) (jobs : list RawJob) :
  forall (tbl : Table) (n : nat) (i : string) (r : Row),
  (insertLoop' server now jobs tbl n).1.1 !! i = Some r ->
  tbl !! i = Some r
  \/ exists j, j ∈ jobs /\ id j = i /\ r = newRow' now j.
Proof.
  induction jobs as [|j jobs IH]; intros tbl n i r; cbn [insertLoop];
    [auto|].
  destruct (faulty server (SelectId (id j))); [auto|].
  assert (Hrest : forall t m,
            (insertLoop' server now jobs t m).1.1 !! i = Some r ->
            t !! i = Some r
            \/ exists j0, j0 ∈ j :: jobs /\ id j0 = i /\ r = newRow' now j0).
  { intros t m H. destruct (IH t m i r H) as [Ht | (j0 & Hin & Hj0)];
      [auto|]. right. exists j0. split; [right; exact Hin | exact Hj0]. }
  destruct (tbl !! id j) as [r0|] eqn:Hj; [apply Hrest|].
  destruct (faulty server (InsertJob (id j) (newRow' now j))); [auto|].
  intros H. apply Hrest in H as [H | H]; [|auto].
  destruct (decide (id j = i)) as [Heq|Hne].
  - rewrite Heq, lookup_insert_eq in H. injection H as <-.
    right. exists j. split; [left|auto].
  - rewrite lookup_insert_ne in H by exact Hne. auto.
Qed.

(** X1.  Ingestion never changes or removes a row, and a row it adds is the
    row made of a record of the batch, under the id of this record. *)
Theorem ingestion_only_adds_rows_of_the_batch (server : Server) (now : Z)
  (R : list RawJob) (tbl : Table) :
  (forall i r, tbl !! i = Some r ->
               table (addJobs server now R tbl) !! i = Some r)
  /\ (forall i r, table (addJobs server now R tbl) !! i = Some r ->
        tbl !! i = Some r
        \/ exists j, j ∈ R /\ id j = i /\ r = newRow' now j).
Proof.
  unfold addJobsToSystem.
  destruct R as [|j R]; [auto|].
  destruct (getConnection server); [|auto].
  destruct (insertLoop_any server now (j :: R) tbl 0) as (Hk & _).
  pose proof (insertLoop_rows server now (j :: R) tbl 0) as Hrows.
  destruct (insertLoop' server now (j :: R) tbl 0) as [[tbl' n] threw].
  auto.
Qed.

(** X2.  The number returned is the number of rows added, at most one for a
    record of the batch. *)
Theorem returned_count_is_rows_added (server : Server) (now : Z)
  (R : list RawJob) (tbl : Table) (n : nat) :
  returned (addJobs server now R tbl) = Some n ->
  size (table (addJobs server now R tbl)) = size tbl + n
  /\ n <= length R.
Proof.
  unfold addJobsToSystem.
  destruct R as [|j R].
  { cbn. intros H. injection H as <-. split; lia. }
  destruct (getConnection server); [|discriminate].
  destruct (insertLoop_any server now (j :: R) tbl 0) as (_ & Hs & Hn).
  destruct (insertLoop' server now (j :: R) tbl 0) as [[tbl' m] threw].
  cbn in *. intros H. injection H as <-. split; lia.
Qed.

(** X3.  The first record of a batch that carries a new id decides the row
    stored under it. *)
Theorem first_record_of_an_id_is_stored (server : Server) (now : Z)
  (pre : list RawJob) (j : RawJob) (post : list RawJob) (tbl : Table)
  (n : nat) :
  returned (addJobs server now (pre ++ j :: post) tbl) = Some n ->
  loggedError (addJobs server now (pre ++ j :: post) tbl) = false ->
  tbl !! id j = None ->
  Forall (fun j' => id j' <> id j) pre ->
  table (addJobs server now (pre ++ j :: post) tbl) !! id j
  = Some (newRow' now j).
Proof.
  intros Hret Hlog Hnew Hpre. unfold addJobsToSystem in *.
  destruct (pre ++ j :: post) eqn:Hlist; [destruct pre; discriminate|].
  rewrite <- Hlist in *. clear Hlist.
  destruct (getConnection server); [|discriminate].
  rewrite insertLoop_app in *.
  assert (Hkeep : forall tbl0 m,
            tbl0 !! id j = None ->
            (insertLoop' server now pre tbl0 m).1.1 !! id j = None).
  { clear Hret Hlog. induction Hpre as [|j' pre Hj' _ IH];
      intros tbl0 m H0; cbn [insertLoop]; [exact H0|].
    destruct (faulty server (SelectId (id j'))); [exact H0|].
    destruct (tbl0 !! id j'); [apply IH, H0|].
    destruct (faulty server (InsertJob (id j') (newRow' now j')));
      [exact H0|].
    apply IH. rewrite lookup_insert_ne by exact Hj'. exact H0. }
  specialize (Hkeep tbl 0 Hnew).
  destruct (insertLoop' server now pre tbl 0) as [[tbl1 n1] threw1].
  cbn [fst] in Hkeep.
  destruct threw1; [cbn in Hlog; discriminate|].
  cbn [insertLoop] in *.
  destruct (faulty server (SelectId (id j))); [cbn in Hlog; discriminate|].
  rewrite Hkeep in *.
  destruct (faulty server (InsertJob (id j) (newRow' now j)));
    [cbn in Hlog; discriminate|].
  destruct (insertLoop_any server now post
              (<[id j := newRow' now j]> tbl1) (S n1)) as (Hk & _).
  destruct (insertLoop' server now post _ (S n1)) as [[tbl2 n2] threw2].
  cbn [table fst] in *. apply Hk, lookup_insert_eq.
Qed.

#[local] Instance newerFirst_total : Total newerFirst.
Proof. intros a b. unfold newerFirst. lia. Qed.

Lemma getJobs_elem (server : Server) (now : Z)
  (filters : option Filters) (tbl : Table) (l : Listing) :
  getConnection server = true ->
  faulty server (SelectLive (params filters)) = false ->
  l ∈ getJobs like server now filters tbl <->
  tbl !! l_id l = Some (l_row l)
  /\ selected like now filters (l_row l) = true
  /\ l_posted l = posted_date (l_row l).
Proof.
  intros Hc Hf. unfold getJobs. rewrite Hc, Hf. cbn [negb orb].
  rewrite list_elem_of_fmap. split.
  - intros [[i r] [-> Hin]]. cbn.
    rewrite merge_sort_Permutation in Hin.
    apply list_elem_of_filter in Hin as [Hsel Hin].
    apply elem_of_map_to_list in Hin. auto.
  - intros (Hrow & Hsel & Hposted). exists (l_id l, l_row l). split.
    + destruct l as [i r p]. cbn in *. subst p. reflexivity.
    + rewrite merge_sort_Permutation. apply list_elem_of_filter.
      split; [exact Hsel|]. apply elem_of_map_to_list, Hrow.
Qed.

(** X4.  What [getJobs] lists when the query runs: exactly the rows that have
    not expired and pass the filters, each once, with [posted] copied
    from [posted_date]. *)
Theorem getJobs_lists_the_live_matches (server : Server) (now : Z)
  (filters : option Filters) (tbl : Table) :
  getConnection server = true ->
  faulty server (SelectLive (params filters)) = false ->
  (forall l, l ∈ getJobs like server now filters tbl <->
             tbl !! l_id l = Some (l_row l)
             /\ selected like now filters (l_row l) = true
             /\ l_posted l = posted_date (l_row l))
  /\ NoDup (l_id <$> getJobs like server now filters tbl).
Proof.
  intros Hc Hf.
  split; [intros l; apply getJobs_elem; assumption|].
  unfold getJobs. rewrite Hc, Hf. cbn [negb orb].
  rewrite <- list_fmap_compose.
  assert (Hfst : forall l : list (string * Row),
            (l_id ∘ (fun '(i, r) =>
               {| l_id := i; l_row := r; l_posted := posted_date r |}))
              <$> l = l.*1).
  { intros l. apply list_fmap_ext. intros _ [i r] _. reflexivity. }
  rewrite Hfst, merge_sort_Permutation.
  refine (sublist_NoDup _ _ _ (fmap_sublist _ _ _ (sublist_filter _ _))).
  apply NoDup_fst_map_to_list.
Qed.

(** X5.  The listing is ordered from the newest row to the oldest. *)
Theorem getJobs_newest_first (server : Server) (now : Z)
  (filters : option Filters) (tbl : Table) :
  Sorted (fun a b => (added_at (l_row b) <= added_at (l_row a))%Z)
         (getJobs like server now filters tbl).
Proof.
  unfold getJobs.
  destruct (negb (getConnection server) || faulty server _); [constructor|].
  apply (Sorted_fmap _ newerFirst).
  - intros [i r] [i' r'] H. exact H.
  - apply Sorted_merge_sort. apply _.
Qed.

(** X6.  A filter that is missing, empty or blank is no filter. *)
Theorem blank_filters_are_ignored (server : Server) (now : Z)
  (filters : Filters) (tbl : Table) :
  trim (default "" (search filters)) = "" ->
  trim (default "" (f_location filters)) = "" ->
  getJobs like server now (Some filters) tbl
  = getJobs like server now None tbl.
Proof.
  intros Hs Hl.
  assert (Hblank : forall f, trim (default "" f) = "" -> active f = None).
  { intros [s|] H; [|reflexivity]. change (trim s = "") in H.
    unfold active, truthy.
    destruct (String.eqb s ""); [reflexivity|]. rewrite H. reflexivity. }
  unfold getJobs, params, selected. cbn [mbind option_bind].
  rewrite (Hblank _ Hs), (Hblank _ Hl). reflexivity.
Qed.

(** X7.  A record ingested at [now] under a new id is listed by an unfiltered
    read at any time before its expiry. *)
Theorem ingested_job_is_listed (server reader : Server) (now t : Z)
  (R : list RawJob) (tbl : Table) (n : nat) (j : RawJob) :
  returned (addJobs server now R tbl) = Some n ->
  loggedError (addJobs server now R tbl) = false ->
  j ∈ R ->
  tbl !! id j = None ->
  (t < plusOneMonth now)%Z ->
  getConnection reader = true ->
  faulty reader (SelectLive []) = false ->
  id j ∈ l_id <$> getJobs like reader t None (table (addJobs server now R tbl)).
Proof.
  intros Hret Hlog Hin Hnew Ht Hc Hf.
  assert (Hrow : exists j', table (addJobs server now R tbl) !! id j
                            = Some (newRow' now j')).
  { revert Hret Hlog. unfold addJobsToSystem.
    destruct R as [|x R]; [inversion Hin|].
    destruct (getConnection server); [|discriminate].
    pose proof (insertLoop_rows server now (x :: R) tbl 0 (id j)) as Hrows.
    pose proof (insertLoop_completed plusOneMonth toLocaleDateString server now
                  (x :: R) tbl 0) as Hdone.
    destruct (insertLoop' server now (x :: R) tbl 0) as [[tbl' m] threw].
    cbn [table loggedError fst] in *. intros _ ->.
    destruct (Hdone tbl' m eq_refl) as (Hall & _).
    rewrite Forall_forall in Hall. destruct (Hall j Hin) as [r Hr].
    destruct (Hrows r Hr) as [Hold | (j' & _ & _ & ->)];
      [congruence | eauto]. }
  destruct Hrow as [j' Hrow].
  apply list_elem_of_fmap.
  exists {| l_id := id j; l_row := newRow' now j';
            l_posted := posted_date (newRow' now j') |}.
  split; [reflexivity|]. apply getJobs_elem; [assumption..|].
  cbn [l_id l_row l_posted].
  split; [exact Hrow|]. split; [|reflexivity].
  unfold selected. cbn. rewrite !andb_true_r. apply Z.ltb_lt, Ht.
Qed.

End JobServiceMore.

(** ** The enrichment run *)

Section EnrichmentMore.
Import Text Db Enricher.
Variable server : Server.
Variable site : Site.

Lemma viable_Some (o : option string) (d : string) :
  viable o = Some d <-> o = Some d /\ 50 < String.length d.
Proof.
  unfold viable. destruct o as [d'|]; [|split; [discriminate | intros [? _]; discriminate]].
  destruct (Nat.ltb_spec 50 (String.length d')); split.
  - intros H0. injection H0 as ->. auto.
  - intros [H0 _]. exact H0.
  - discriminate.
  - intros [H0 Hl]. injection H0 as ->. lia.
Qed.

(** Rewrites with the outcomes of the visits already examined. *)
Ltac known :=
  repeat (cbn [mbind option_bind Nat.sub];
          match goal with
          | H : viable _ = _ |- _ => rewrite H
          | H : ?site _ _ = _ |- _ => is_var site; rewrite H
          end).

(** Closes the case of a fetch that ends after [k] visits. *)
Ltac leaf k :=
  exists k;
  split; [unfold MAX_RETRIES; lia|];
  split; [cbn; rewrite ?String.eqb_refl; reflexivity|];
  split; [intros n Hn;
          repeat (destruct n as [|n]; [known; reflexivity|]); lia|];
  split; [cbn; known; reflexivity|];
  split; [cbn; intros; first [reflexivity | discriminate]|];
  cbn; intros d Hd;
  match goal with
  | H : forall d, _ = Some d -> 50 < _ |- _ => apply (H d); known; exact Hd
  end.

(** X8.  What a fetch does, whatever the site: it makes between one and three
    visits, with the retry counts 0, 1, ...; it stops at the first visit
    that gives a description of more than 50 characters and returns this
    description; it returns nothing when no visit gives one. *)
Theorem fetch_stops_at_the_first_viable_visit (job : Candidate) :
  exists k,
    1 <= k <= S MAX_RETRIES
    /\ visitsOf (id job) (snd (fetchJobDescription site job)) = seq 0 k
    /\ (forall n, S n < k -> viableAt site job n = None)
    /\ fst (fetchJobDescription site job) = viableAt site job (k - 1)
    /\ (fst (fetchJobDescription site job) = None -> k = S MAX_RETRIES)
    /\ (forall d, fst (fetchJobDescription site job) = Some d ->
                  50 < String.length d).
Proof.
  unfold fetchJobDescription, MAX_RETRIES, viableAt. cbn [fetchFrom].
  assert (Hlen : forall n d,
            (site job n ≫= fun page => viable (extractDescription job page))
            = Some d -> 50 < String.length d).
  { intros n d H. destruct (site job n) as [page|]; [|discriminate].
    cbn in H. apply viable_Some in H. tauto. }
  pose proof (Hlen 0) as H0. pose proof (Hlen 1) as H1.
  pose proof (Hlen 2) as H2. clear Hlen.
  cbn [mbind option_bind].
  destruct (site job 0) as [p0|] eqn:E0;
    [destruct (viable (extractDescription job p0)) as [d0|] eqn:V0|].
  1: leaf 1.
  all: destruct (site job 1) as [p1|] eqn:E1;
    [destruct (viable (extractDescription job p1)) as [d1|] eqn:V1|].
  1, 4: leaf 2.
  all: destruct (site job 2) as [p2|] eqn:E2;
    [destruct (viable (extractDescription job p2)) as [d2|] eqn:V2|];
    leaf 3.
Qed.

Lemma fetched_viable (job : Candidate) (d : string) :
  fst (fetchJobDescription site job) = Some d -> 50 < String.length d.
Proof.
  unfold fetchJobDescription, MAX_RETRIES. cbn [fetchFrom].
  repeat match goal with
         | |- context [site job ?n] => destruct (site job n) as [?|] eqn:?
         | |- context [viable ?o] => destruct (viable o) as [?|] eqn:?
         end;
    cbn; intros H; try discriminate; injection H as <-;
    match goal with
    | V : viable _ = Some _ |- _ => apply viable_Some in V; tauto
    end.
Qed.

Lemma fetched_is_truthy (job : Candidate) :
  truthy (fst (fetchJobDescription site job))
  = fst (fetchJobDescription site job).
Proof.
  pose proof (fetched_viable job) as Hlen.
  destruct (fst (fetchJobDescription site job)) as [d|]; [|reflexivity].
  specialize (Hlen d eq_refl). unfold truthy.
  destruct (String.eqb_spec d ""); [subst d; simpl in Hlen; lia | reflexivity].
Qed.

(** The write of one job, as [written] folds it. *)
Abbreviation write := (fun (t : Table) (job : Candidate) =>
  match fst (fetchJobDescription site job) with
  | Some d =>
      if negb (getConnection server)
         || faulty server (UpdateDescription (id job) d)
      then t
      else alter (setDescription d) (id job) t
  | None => t
  end).

Lemma record_tbl (st : Progress) (job : Candidate) :
  tbl (record server st (settle site job)) = write (tbl st) job.
Proof.
  unfold record, settle, updateJobDescription. rewrite fetched_is_truthy.
  destruct (fst (fetchJobDescription site job)) as [d|]; [|reflexivity].
  destruct (negb (getConnection server) || faulty server _); reflexivity.
Qed.

Lemma records_tbl (batch : list Candidate) :
  forall st,
  tbl (foldl (record server) st (settle site <$> batch))
  = written server site batch (tbl st).
Proof.
  induction batch as [|job batch IH]; intros st; [reflexivity|].
  rewrite fmap_cons. cbn [foldl]. rewrite IH, record_tbl. reflexivity.
Qed.

Lemma processBatch_tbl (batch : list Candidate) (st : Progress) :
  tbl (processBatch server site batch st)
  = written server site batch (tbl st).
Proof.
  unfold processBatch. rewrite zip_settle, records_tbl. reflexivity.
Qed.

Lemma written_app (jobs1 jobs2 : list Candidate) (tbl0 : Table) :
  written server site (jobs1 ++ jobs2) tbl0
  = written server site jobs2 (written server site jobs1 tbl0).
Proof. apply foldl_app. Qed.

Lemma batchLoop_tbl (jobs : list Candidate) (st0 : Progress) :
  tbl (batchLoop (length jobs) server site jobs 0 st0)
  = written server site jobs (tbl st0).
Proof.
  destruct (batchLoop_invariant server site jobs
              (fun i st => tbl st = written server site (take i jobs) (tbl st0)))
    with (fuel := length jobs) (i := 0) (st := st0)
    as (i & Hi & Htbl).
  - intros i st _ Hst. unfold turn.
    rewrite <- (take_take_drop jobs i BATCH_SIZE), written_app, <- Hst.
    destruct (i + BATCH_SIZE <? length jobs); cbn [say tbl];
      apply processBatch_tbl.
  - unfold BATCH_SIZE. lia.
  - rewrite take_0. reflexivity.
  - rewrite Htbl, take_ge by exact Hi. reflexivity.
Qed.

(** The table a run leaves is the one obtained by writing the fetched
    descriptions job by job in the order of the candidates. *)
Lemma run_writes_job_by_job (tbl0 : Table) :
  table (enrichJobDescriptions server site true tbl0)
  = written server site (fst (getJobsNeedingEnrichment server tbl0)) tbl0.
Proof.
  unfold enrichJobDescriptions.
  destruct (getJobsNeedingEnrichment server tbl0) as [jobs selection].
  destruct jobs as [|j jobs]; [reflexivity|].
  cbn [table fst]. apply batchLoop_tbl.
Qed.

Lemma setDescription_twice (d1 d2 : string) (r : Row) :
  setDescription d2 (setDescription d1 r) = setDescription d2 r.
Proof. reflexivity. Qed.

Lemma written_rows (jobs : list Candidate) :
  forall (tbl0 : Table) (i : string),
  written server site jobs tbl0 !! i = tbl0 !! i
  \/ exists r d,
       tbl0 !! i = Some r
       /\ written server site jobs tbl0 !! i = Some (setDescription d r)
       /\ 50 < String.length d
       /\ i ∈ id <$> jobs.
Proof.
  induction jobs as [|job jobs IH]; intros tbl0 i; [left; reflexivity|].
  change (written server site (job :: jobs) tbl0)
    with (written server site jobs (write tbl0 job)).
  assert (Hstep : write tbl0 job !! i = tbl0 !! i
                  \/ exists r d, tbl0 !! i = Some r
                       /\ write tbl0 job !! i = Some (setDescription d r)
                       /\ 50 < String.length d /\ i = id job).
  { pose proof (fetched_viable job) as Hlen.
    destruct (fst (fetchJobDescription site job)) as [d|]; [|auto].
    destruct (negb (getConnection server) || faulty server _); [auto|].
    destruct (decide (id job = i)) as [<-|Hne].
    - rewrite lookup_alter_eq.
      destruct (tbl0 !! id job) as [r|]; [|auto].
      right. exists r, d. auto.
    - left. apply lookup_alter_ne, Hne. }
  destruct (IH (write tbl0 job) i) as [Hsame | (r & d & Hr & Hw & Hd & Hin)].
  - rewrite Hsame. destruct Hstep as [Hs | (r & d & Hr & Hw & Hd & ->)].
    + left. exact Hs.
    + right. exists r, d. repeat split; auto. rewrite fmap_cons. left.
  - destruct Hstep as [Hs | (r0 & d0 & Hr0 & Hw0 & Hd0 & ->)].
    + right. exists r, d. rewrite <- Hs. repeat split; auto.
      rewrite fmap_cons. right. exact Hin.
    + right. exists r0, d. rewrite Hw0 in Hr. injection Hr as <-.
      repeat split; auto. rewrite fmap_cons. left.
Qed.

(** X9.  A run only rewrites descriptions, only of its candidates, and only
    with texts of more than 50 characters: every other row and column is
    as it was, and no row is added or removed.  A run whose browser does
    not launch leaves the table as it was. *)
Theorem run_only_writes_viable_descriptions (tbl0 : Table)
  (launches : bool) (i : string) :
  (launches = false ->
   table (enrichJobDescriptions server site launches tbl0) = tbl0)
  /\ (table (enrichJobDescriptions server site launches tbl0) !! i = tbl0 !! i
      \/ exists r d,
           tbl0 !! i = Some r
           /\ table (enrichJobDescriptions server site launches tbl0) !! i
              = Some (setDescription d r)
           /\ 50 < String.length d
           /\ i ∈ id <$> fst (getJobsNeedingEnrichment server tbl0)).
Proof.
  assert (Hnone : table (enrichJobDescriptions server site false tbl0) = tbl0).
  { unfold enrichJobDescriptions.
    destruct (getJobsNeedingEnrichment server tbl0) as [[|j jobs] selection];
      reflexivity. }
  split; [intros ->; exact Hnone|].
  destruct launches; [rewrite run_writes_job_by_job; apply written_rows|].
  left. rewrite Hnone. reflexivity.
Qed.


Lemma candidate_row (tbl0 : Table) (job : Candidate) :
  job ∈ fst (getJobsNeedingEnrichment server tbl0) ->
  exists r, tbl0 !! id job = Some r
            /\ job = candidateOf (id job, r)
            /\ needsEnrichment r = true.
Proof.
  unfold getJobsNeedingEnrichment.
  destruct (negb (getConnection server) || faulty server _);
    [intros Hin; inversion Hin|].
  cbn [fst]. intros Hin. apply list_elem_of_fmap in Hin as ([i r] & -> & Hin).
  apply elem_of_take in Hin as (k & Hin & _).
  apply list_elem_of_lookup_2 in Hin.
  rewrite merge_sort_Permutation in Hin.
  apply list_elem_of_filter in Hin as [Hneed Hin].
  apply elem_of_map_to_list in Hin. exists r. auto.
Qed.




(** X12.  The summary of a run that ends normally counts every candidate once,
    as enriched or as failed, the candidates are at most 100, and the
    failures counted are those the log reports. *)
Theorem run_summary_accounts_for_every_candidate (tbl0 : Table)
  (launches : bool) (s : Summary) :
  result (enrichJobDescriptions server site launches tbl0) = Some s ->
  total s = length (fst (getJobsNeedingEnrichment server tbl0))
  /\ total s <= 100
  /\ enriched s + failed s = total s
  /\ failed s
     = failures (events (enrichJobDescriptions server site launches tbl0)).
Proof.
  intros Hres.
  assert (Hcap : length (fst (getJobsNeedingEnrichment server tbl0)) <= 100).
  { unfold getJobsNeedingEnrichment.
    destruct (negb (getConnection server) || faulty server _);
      [cbn; lia|].
    cbn [fst]. rewrite length_fmap, length_take. lia. }
  pose proof (selection_quiet server tbl0) as (Hq & _ & _).
  destruct (fst (getJobsNeedingEnrichment server tbl0)) as [|j jobs] eqn:Hjobs.
  { revert Hres. unfold enrichJobDescriptions.
    destruct (getJobsNeedingEnrichment server tbl0) as [jobs' selection].
    cbn [fst snd] in *. subst jobs'. cbn [result events].
    intros Hres. injection Hres as <-. cbn. auto. }
  destruct launches.
  - assert (Hne : j :: jobs <> []) by discriminate.
    destruct (run_settles server site tbl0 _ Hjobs Hne)
      as (st & [Hf Hs _ _ _] & _ & Hrun).
    rewrite take_ge in Hs by reflexivity.
    rewrite Hrun in Hres |- *. cbn [result events] in *.
    injection Hres as <-. cbn [total enriched failed].
    cbn [log enrichedCount failedCount] in Hf, Hs.
    rewrite failures_app in Hf. rewrite Hq in Hf.
    rewrite failures_app.
    change (failures [BrowserLaunched]) with 0 in Hf.
    change (failures [BrowserClosed]) with 0.
    repeat split; [exact Hcap | simpl in *; lia | simpl in *; lia].
  - revert Hres. unfold enrichJobDescriptions.
    destruct (getJobsNeedingEnrichment server tbl0) as [jobs' selection].
    cbn [fst] in Hjobs. subst jobs'. discriminate.
Qed.









End EnrichmentMore.

Section Candidates.
Import Text Db Enricher.
Variable server : Server.

Abbreviation needy := (fun tbl0 : Table =>
  filter (fun p : string * Row => needsEnrichment (snd p) = true)
         (map_to_list tbl0)).

(** X15.  The candidates of a run are rows of the table that have a url to
    visit, other than the placeholder, and need a description: no row is
    taken twice, at most 100 are taken, and all are when they are at most
    100. *)
Theorem candidates_are_the_rows_needing_enrichment (tbl0 : Table) :
  (forall job, job ∈ fst (getJobsNeedingEnrichment server tbl0) ->
     exists r u,
       tbl0 !! id job = Some r
       /\ job = candidateOf (id job, r)
       /\ needsEnrichment r = true
       /\ url job = Some u /\ u <> "" /\ u <> "#")
  /\ (getConnection server = true ->
      faulty server SelectNeedingEnrichment = false ->
      length (fst (getJobsNeedingEnrichment server tbl0))
      = Nat.min 100 (length (needy tbl0))
      /\ (length (needy tbl0) <= 100 ->
          forall i r, tbl0 !! i = Some r -> needsEnrichment r = true ->
            candidateOf (i, r) ∈ fst (getJobsNeedingEnrichment server tbl0))).
Proof.
  split.
  - intros job Hin.
    destruct (candidate_row server tbl0 job Hin) as (r & Hr & Hjob & Hneed).
    assert (Hurl : exists u, Db.url r = Some u /\ u <> "" /\ u <> "#").
    { unfold needsEnrichment in Hneed.
      destruct (Db.url r) as [u|]; [|discriminate]. exists u.
      apply andb_true_iff in Hneed as [Hu _].
      apply andb_true_iff in Hu as [H1 H2].
      apply negb_true_iff in H1, H2.
      apply String.eqb_neq in H1, H2. auto. }
    destruct Hurl as (u & Hu & Hu1 & Hu2).
    exists r, u. rewrite Hjob at 4. auto 6.
  - unfold getJobsNeedingEnrichment.
    intros -> ->. cbn [negb orb fst]. split.
    + rewrite length_fmap, length_take, merge_sort_Permutation. reflexivity.
    + intros Hfew i r Hr Hneed. apply list_elem_of_fmap. exists (i, r).
      split; [reflexivity|]. rewrite take_ge.
      * rewrite merge_sort_Permutation. apply list_elem_of_filter.
        split; [exact Hneed | apply elem_of_map_to_list, Hr].
      * rewrite merge_sort_Permutation. exact Hfew.
Qed.

End Candidates.

(** ** The content script *)

Section Matching.
Import Text Regex Content.

Lemma matchK_shrinks (r : regex) :
  forall k, shrinks k -> shrinks (matchK r k).
Proof.
  induction r as [|c|p|r1 IH1 r2 IH2|r IH|r IH]; intros k Hk s rest;
    cbn [matchK].
  - apply Hk.
  - destruct s as [|a t]; [discriminate|].
    destruct (Ascii.eqb a c); [|discriminate].
    intros H. apply Hk in H. simpl. lia.
  - destruct s as [|a t]; [discriminate|].
    destruct (p a); [|discriminate].
    intros H. apply Hk in H. simpl. lia.
  - apply IH1, IH2, Hk.
  - destruct (matchK r k s) as [rest'|] eqn:Hr.
    + intros H. injection H as <-. exact (IH k Hk s rest' Hr).
    + apply Hk.
  - generalize (String.length s) at 1. intros n. revert s rest.
    induction n as [|n IHn]; intros s rest; [apply Hk|].
    match goal with
    | |- context [matchK r ?k' s] =>
        destruct (matchK r k' s) as [rest'|] eqn:Hr;
        [pose proof (IH k') as Hshrink|]
    end.
    + intros H. injection H as <-. apply (Hshrink) in Hr; [exact Hr|].
      intros s' rest''.
      destruct (Nat.ltb_spec (String.length s') (String.length s));
        [|discriminate].
      intros H'. apply IHn in H'. exact H'.
    + apply Hk.
Qed.

Lemma shrinks_Some : shrinks Some.
Proof. intros s rest H. injection H as <-. lia. Qed.


Lemma matchK_lit_class (c : ascii) (p : ascii -> bool) (r1 r2 : regex)
  (k : string -> option string) (s rest : string) :
  shrinks k ->
  matchK (Seq (Lit c) (Seq (Seq (Class p) r1) r2)) k s = Some rest ->
  exists d t, s = String c (String d t) /\ p d = true
              /\ String.length rest <= String.length t.
Proof.
  intros Hk. cbn [matchK].
  destruct s as [|a t]; [discriminate|].
  destruct (Ascii.eqb_spec a c) as [->|]; [|discriminate].
  destruct t as [|d t]; [discriminate|].
  destruct (p d) eqn:Hd; [|discriminate].
  intros H. exists d, t. split; [reflexivity|]. split; [exact Hd|].
  revert H. apply (matchK_shrinks r1), (matchK_shrinks r2), Hk.
Qed.

Lemma matchAt_amount (s m : string) :
  matchAt salaryRegex s = Some m -> amountLike m.
Proof.
  unfold matchAt.
  destruct (matchK salaryRegex Some s) as [rest|] eqn:Hm;
    [|discriminate].
  intros H. injection H as <-.
  unfold salaryRegex, amount in Hm.
  cbn [seqs] in Hm. unfold Plus in Hm.
  change (matchK (Seq (Seq ?a ?b) ?c) Some s)
    with (matchK (Seq a b) (matchK c Some) s) in Hm.
  apply matchK_lit_class in Hm as (d & t & -> & Hd & Hlen).
  - exists d. cbn [String.length].
    replace (S (S (String.length t)) - String.length rest)
      with (S (S (String.length t - String.length rest))) by lia.
    cbn [String.substring]. eauto.
  - apply matchK_shrinks, shrinks_Some.
Qed.

Lemma search_amount (s m : string) :
  search salaryRegex s = Some m -> amountLike m.
Proof.
  induction s as [|a t IH]; cbn [search].
  - destruct (matchAt salaryRegex "") as [m'|] eqn:Hm; [|discriminate].
    intros H. injection H as <-. exact (matchAt_amount _ _ Hm).
  - destruct (matchAt salaryRegex (String a t)) as [m'|] eqn:Hm;
      [|exact IH].
    intros H. injection H as <-. exact (matchAt_amount _ _ Hm).
Qed.

End Matching.

Section ContentMore.
Import Text Regex Content.

Lemma omap_length_le {A B : Type} (f : A -> option B) (l : list A) :
  length (omap f l) <= length l.
Proof.
  induction l as [|x l IH]; [reflexivity|]. cbn [omap list_omap].
  destruct (f x); cbn [length]; lia.
Qed.

Lemma firstSalaryText_matches (els : list Element) (text : string) :
  firstSalaryText els = Some text -> test salaryRegex text = true.
Proof.
  induction els as [|el els IH]; cbn [firstSalaryText]; [discriminate|].
  destruct (test salaryRegex (trim (innerText el))) eqn:Ht; [|exact IH].
  intros H. injection H as <-. exact Ht.
Qed.

(** What the salary search leaves before the cleaning: the sentinel, a
    match of the pattern, or a text in which the pattern matches. *)
Lemma rawSalary_cases (card : Card) :
  rawSalary card = notListed
  \/ amountLike (rawSalary card)
  \/ test salaryRegex (rawSalary card) = true.
Proof.
  unfold rawSalary.
  set (first := match cardQuery card ".artdeco-entity-lockup__metadata" with
                | Some metadataSection =>
                    match search salaryRegex (trim (innerText metadataSection)) with
                    | Some m => m
                    | None => notListed
                    end
                | None => notListed
                end).
  assert (Hfirst : first = notListed \/ amountLike first).
  { unfold first. destruct (cardQuery card _) as [el|]; [|auto].
    destruct (search salaryRegex (trim (innerText el))) as [m|] eqn:Hm;
      [|auto].
    right. exact (search_amount _ _ Hm). }
  clearbody first.
  pose proof (firstSalaryText_matches
                (cardQueryAll card ("span[dir=" +:+ quoted "ltr" +:+ "]")))
    as Hspans.
  pose proof (firstSalaryText_matches
                (cardQueryAll card
                   ".job-card-container__metadata-wrapper li, .artdeco-entity-lockup__metadata li"))
    as Hitems.
  destruct (firstSalaryText (cardQueryAll card ("span[dir=" +:+ _)))
    as [span|];
    destruct (firstSalaryText (cardQueryAll card _)) as [item|];
    destruct (String.eqb_spec first notListed) as [->|Hne];
    repeat match goal with
           | |- context [String.eqb ?a ?b] =>
               destruct (String.eqb_spec a b) as [->|]
           end;
    try tauto; try contradiction;
    try (right; right; apply Hspans; reflexivity);
    try (right; right; apply Hitems; reflexivity).
Qed.

Lemma extractSalary_shape (card : Card) :
  extractSalary card = notListed \/ amountLike (extractSalary card).
Proof.
  unfold extractSalary, cleanSalary.
  destruct (String.eqb_spec (rawSalary card) notListed) as [Heq|Hne];
    [auto|].
  right.
  destruct (search salaryRegex (rawSalary card)) as [m|] eqn:Hm;
    [exact (search_amount _ _ Hm)|].
  destruct (rawSalary_cases card) as [H | [H | H]];
    [contradiction | exact H|].
  unfold test in H. rewrite Hm in H. discriminate.
Qed.

(** X16.  What [scrapeLinkedIn] returns: at most one job for a card of the
    first selector that matches, each with a title, the source LinkedIn
    and a salary that is the sentinel or begins with a dollar sign and a
    digit; nothing when no selector matches. *)
Theorem linkedin_jobs_are_well_formed (document : Document)
  (random : nat -> string) :
  length (scrapeLinkedIn document random)
    <= length (selectCards document jobCardSelectors)
  /\ (Forall (fun selector => document selector = []) jobCardSelectors ->
      scrapeLinkedIn document random = [])
  /\ forall job, job ∈ scrapeLinkedIn document random ->
       source job = "LinkedIn"
       /\ title job <> "Unknown Title"
       /\ (salary job = notListed \/ amountLike (salary job))
       /\ exists i card,
            selectCards document jobCardSelectors !! i = Some card
            /\ scrapeCard card (random i) = Some job.
Proof.
  unfold scrapeLinkedIn. split; [|split].
  - etransitivity; [apply omap_length_le|]. rewrite length_imap. reflexivity.
  - intros Hnone.
    assert (Hsel : selectCards document jobCardSelectors = []).
    { induction Hnone as [|selector rest Hs _ IH]; [reflexivity|].
      cbn [selectCards]. rewrite Hs. exact IH. }
    rewrite Hsel. reflexivity.
  - intros job Hin. apply list_elem_of_omap in Hin as ([i card] & Hin & Hjob).
    apply list_elem_of_lookup in Hin as [n Hin].
    rewrite list_lookup_imap in Hin.
    destruct (selectCards document jobCardSelectors !! n) as [card'|] eqn:Hn;
      [|discriminate].
    cbn in Hin. injection Hin as <- <-.
    assert (Hcard : source job = "LinkedIn"
                    /\ title job <> "Unknown Title"
                    /\ (salary job = notListed \/ amountLike (salary job))).
    { revert Hjob. unfold scrapeCard.
      destruct (String.eqb_spec
                  (fieldText card' titleSelectors "Unknown Title")
                  "Unknown Title") as [|Hne]; [discriminate|].
      intros H. injection H as <-. cbn [source title salary].
      split; [reflexivity|]. split; [exact Hne|]. apply extractSalary_shape. }
    destruct Hcard as (H1 & H2 & H3). eauto 8.
Qed.

End ContentMore.

Section IndeedMore.
Import Text Content Indeed.

Lemma extractLink_absolute (titleElement : Element) :
  String.prefix "/" (extractLink titleElement) = false
  /\ extractLink titleElement <> "".
Proof.
  unfold extractLink.
  destruct (String.prefix "/" (orElse (Some (href titleElement)) "#"))
    eqn:Hrel.
  - split; [reflexivity | discriminate].
  - split; [exact Hrel|]. unfold orElse.
    destruct (String.eqb_spec (href titleElement) ""); [discriminate|].
    assumption.
Qed.

(** X17.  What [scrapeIndeed] returns: at most one job for a card, each with a
    title, the source Indeed, the stub description, and a link that is
    not empty and not a path relative to the site. *)
Theorem indeed_jobs_are_well_formed (document : Document)
  (random : nat -> string) :
  length (scrapeIndeed document random) <= length (document cardsSelector)
  /\ forall job, job ∈ scrapeIndeed document random ->
       source job = "Indeed"
       /\ description job = "View posting for details"
       /\ title job <> "Unknown Title"
       /\ String.prefix "/" (url job) = false
       /\ url job <> "".
Proof.
  unfold scrapeIndeed. split.
  - etransitivity; [apply omap_length_le|]. rewrite length_imap. reflexivity.
  - intros job Hin. apply list_elem_of_omap in Hin as ([i card] & _ & Hjob).
    revert Hjob. unfold scrapeCard.
    destruct (cardQuery card titleSelector) as [titleElement|];
      [|discriminate].
    destruct (metadata (cardQueryAll card metadataSelector)) as [ty sal].
    destruct (String.eqb_spec (trim (innerText titleElement)) "Unknown Title")
      as [|Hne]; [discriminate|].
    intros H. injection H as <-. cbn [source description title url].
    destruct (extractLink_absolute titleElement). auto.
Qed.

Abbreviation salaryWords := ["$"; "year"; "hour"].
Abbreviation typeWords := ["full-time"; "contract"; "part-time"].
Abbreviation metadataStep := (fun '(type, salary) item =>
  let text := toLowerCase (innerText item) in
  (if mentions text typeWords then trim (innerText item) else type,
   if mentions text salaryWords then trim (innerText item) else salary)).

Lemma salary_unmentioned (items : list Element) :
  Forall (fun item =>
            mentions (toLowerCase (innerText item)) salaryWords = false)
         items ->
  forall type salary,
  snd (foldl metadataStep (type, salary) items) = salary.
Proof.
  induction 1 as [|item items Hitem _ IH]; intros type salary;
    [reflexivity|].
  cbn [foldl]. rewrite Hitem. apply IH.
Qed.

Lemma type_unmentioned (items : list Element) :
  Forall (fun item =>
            mentions (toLowerCase (innerText item)) typeWords = false)
         items ->
  forall type salary,
  fst (foldl metadataStep (type, salary) items) = type.
Proof.
  induction 1 as [|item items Hitem _ IH]; intros type salary;
    [reflexivity|].
  cbn [foldl]. rewrite Hitem. apply IH.
Qed.

(** X18.  The salary and the type of an Indeed job are the texts of the last
    metadata item that mentions a word of the salary, respectively of the
    type; they are the defaults when no item does. *)
Theorem last_metadata_item_wins (before : list Element) (item : Element)
  (after : list Element) :
  (Forall (fun later =>
             mentions (toLowerCase (innerText later)) salaryWords = false)
          after ->
   snd (metadata after) = "Not listed"
   /\ (mentions (toLowerCase (innerText item)) salaryWords = true ->
       snd (metadata (before ++ item :: after)) = trim (innerText item)))
  /\ (Forall (fun later =>
                mentions (toLowerCase (innerText later)) typeWords = false)
             after ->
      fst (metadata after) = "Full-time"
      /\ (mentions (toLowerCase (innerText item)) typeWords = true ->
          fst (metadata (before ++ item :: after)) = trim (innerText item))).
Proof.
  unfold metadata. split; intros Hafter.
  - split; [apply salary_unmentioned, Hafter|].
    intros Hitem. rewrite foldl_app. cbn [foldl].
    destruct (foldl _ _ before) as [ty sal]. cbn beta iota zeta.
    rewrite Hitem. apply salary_unmentioned, Hafter.
  - split; [apply type_unmentioned, Hafter|].
    intros Hitem. rewrite foldl_app. cbn [foldl].
    destruct (foldl _ _ before) as [ty sal]. cbn beta iota zeta.
    rewrite Hitem. apply type_unmentioned, Hafter.
Qed.

(** X19.  The page scrape returns the jobs of LinkedIn followed by those of
    Indeed. *)
Theorem page_jobs_are_linkedin_then_indeed (document : Document)
  (randomLinkedIn randomIndeed : nat -> string) :
  scrapeJobsFromPage document randomLinkedIn randomIndeed
  = (FromLinkedIn <$> scrapeLinkedIn document randomLinkedIn)
    ++ (FromIndeed <$> scrapeIndeed document randomIndeed).
Proof.
  unfold scrapeJobsFromPage.
  destruct (scrapeLinkedIn document randomLinkedIn) as [|l ls];
    destruct (scrapeIndeed document randomIndeed) as [|i js];
    cbn; rewrite ?app_nil_r; reflexivity.
Qed.

End IndeedMore.

(** ** The scrapers of the server and the upload *)

Section ScraperMore.
Import Text Db JobService Scraper.
Variable plusOneMonth : Z -> Z.
Variable toLocaleDateString : Z -> string.

Abbreviation newRow' := (newRow plusOneMonth toLocaleDateString).
Abbreviation refresh := (refreshJobCache plusOneMonth toLocaleDateString).

(** X20.  A node of We Work Remotely gives a job exactly when it has a link, a
    title and a company: its classes, which the loop tests first, make no
    difference. *)
Theorem classes_make_no_difference (classes classes' : string -> bool)
  (attributes attributes' : string -> option string)
  (elements : string -> list Content.Element) (random : string) :
  scrapeNode {| classList := classes; attribute := attributes;
                queryAll := elements |} random
  = scrapeNode {| classList := classes'; attribute := attributes';
                  queryAll := elements |} random
  /\ (is_Some (scrapeNode {| classList := classes; attribute := attributes;
                             queryAll := elements |} random)
      <-> is_Some (head (elements "a"))
          /\ is_Some (head (elements ".title"))
          /\ is_Some (head (elements ".company"))).
Proof.
  unfold scrapeNode, query. cbn [classList queryAll].
  destruct (head (elements "a")) as [anchor|].
  - rewrite bool_decide_eq_true_2 by eauto. cbn [negb]. rewrite !andb_false_r.
    split; [reflexivity|].
    destruct (head (elements ".title")), (head (elements ".company"));
      split; try (intros (_ & [] & []); discriminate);
      try (intros []; discriminate); eauto.
  - split.
    + destruct (_ && _), (_ && _); reflexivity.
    + destruct (_ && _); split; try (intros []; discriminate);
        intros ([] & _); discriminate.
Qed.

Lemma scrapeRows_throws (before : list Node) (row : Node) (after : list Node) :
  scrapeRow row = None -> scrapeRows (before ++ row :: after) = None.
Proof.
  intros Hrow. induction before as [|r before IH]; cbn [app scrapeRows].
  - rewrite Hrow. reflexivity.
  - rewrite IH. destruct (scrapeRow r); reflexivity.
Qed.

(** X21.  A row of RemoteOK that carries [data-url] and no [data-href] makes the
    evaluation throw: the scrape then returns no job at all, whatever the
    other rows are. *)
Theorem one_row_with_data_url_voids_the_scrape (browser : Browser)
  (before : list Node) (row : Node) (after : list Node) :
  nodes browser = Some (before ++ row :: after) ->
  classList row "do-not-expand" = false ->
  is_Some (query row ".company_and_position h2") ->
  is_Some (query row ".company_and_position h3") ->
  truthy (attribute row "data-href") = None ->
  is_Some (truthy (attribute row "data-url")) ->
  launches browser = true -> closes browser = true ->
  scrapeRemoteOK browser = Some [].
Proof.
  intros Hnodes Hclass [h2 Hh2] [h3 Hh3] Hhref [u Hu] Hl Hc.
  unfold scrapeRemoteOK, scraped. rewrite Hnodes, Hl, Hc. cbn [andb mbind option_bind].
  rewrite scrapeRows_throws; [reflexivity|].
  unfold scrapeRow, rowUrl. rewrite Hclass, Hh2, Hh3, Hhref, Hu.
  destruct (tags _). reflexivity.
Qed.


Lemma scrapeWeWorkRemotely_jobs (browser : Browser) (random : nat -> string)
  (jobs : list RawJob) (job : RawJob) :
  scrapeWeWorkRemotely browser random = Some jobs -> job ∈ jobs ->
  exists node r, scrapeNode node r = Some job.
Proof.
  unfold scrapeWeWorkRemotely, scraped.
  destruct (launches browser && closes browser); [|discriminate].
  intros H. injection H as <-.
  destruct (nodes browser) as [jobNodes|]; cbn; [|intros Hin; inversion Hin].
  intros Hin. apply list_elem_of_omap in Hin as ([i node] & _ & Hjob). eauto.
Qed.

Lemma scrapeRows_jobs (rows : list Node) :
  forall jobs job,
  scrapeRows rows = Some jobs -> job ∈ jobs ->
  exists row, scrapeRow row = Some (Some job).
Proof.
  induction rows as [|row rows IH]; intros jobs job; cbn [scrapeRows].
  - intros H. injection H as <-. intros Hin. inversion Hin.
  - destruct (scrapeRow row) as [pushed|] eqn:Hrow; [|discriminate].
    destruct (scrapeRows rows) as [jobs'|]; [|discriminate].
    intros H. injection H as <-. rewrite elem_of_app.
    intros [Hin | Hin]; [|eauto].
    destruct pushed as [j|]; [|inversion Hin].
    apply list_elem_of_singleton in Hin as ->. eauto.
Qed.

Lemma scrapeRemoteOK_jobs (browser : Browser) (jobs : list RawJob)
  (job : RawJob) :
  scrapeRemoteOK browser = Some jobs -> job ∈ jobs ->
  exists row, scrapeRow row = Some (Some job).
Proof.
  unfold scrapeRemoteOK, scraped.
  destruct (launches browser && closes browser); [|discriminate].
  intros H. injection H as <-.
  destruct (nodes browser) as [rows|]; cbn; [|intros Hin; inversion Hin].
  destruct (scrapeRows rows) as [jobs|] eqn:Hrows;
    cbn; [|intros Hin; inversion Hin].
  intros Hin. exact (scrapeRows_jobs _ _ _ Hrows Hin).
Qed.

End ScraperMore.

Section Pipeline.
Import Text Db JobService Scraper Routes.
Variable plusOneMonth : Z -> Z.
Variable toLocaleDateString : Z -> string.

Abbreviation newRow' := (newRow plusOneMonth toLocaleDateString).
Abbreviation stored := (fun (now : Z) (job : RawJob) =>
  Enricher.candidateOf (id job, newRow' now job)).

(** X22.  A scraped job, once stored, waits for enrichment when it has a link
    to visit, and the description is then extracted as its source
    requires: a job of the extension is stored without a description or
    with the stub of Indeed, a job of the server's scrapers with a
    description that begins with [Job scraped from]. *)
Theorem scraped_jobs_await_enrichment (now : Z) :
  (forall document random job,
     job ∈ Content.scrapeLinkedIn document random ->
     Enricher.needsEnrichment (newRow' now (ofLinkedIn job))
     = negb (String.eqb (Content.url job) "")
       && negb (String.eqb (Content.url job) "#")
     /\ Enricher.extractDescription (stored now (ofLinkedIn job))
        = Enricher.extractLinkedInDescription)
  /\ (forall document random job,
        job ∈ Indeed.scrapeIndeed document random ->
        Enricher.needsEnrichment (newRow' now (ofIndeed job))
        = negb (String.eqb (Indeed.url job) "#")
        /\ Enricher.extractDescription (stored now (ofIndeed job))
           = Enricher.extractIndeedDescription)
  /\ (forall browser random jobs job,
        scrapeWeWorkRemotely browser random = Some jobs -> job ∈ jobs ->
        Enricher.needsEnrichment (newRow' now job) = true
        /\ Enricher.extractDescription (stored now job)
           = Enricher.extractWeWorkRemotelyDescription)
  /\ (forall browser jobs job,
        scrapeRemoteOK browser = Some jobs -> job ∈ jobs ->
        Enricher.needsEnrichment (newRow' now job)
        = negb (bool_decide (url job = Some ""))
        /\ Enricher.extractDescription (stored now job)
           = Enricher.extractGenericDescription).
Proof.
  split; [|split; [|split]].
  - intros document random job Hin.
    apply list_elem_of_omap in Hin as ([i card] & _ & Hjob).
    revert Hjob. unfold Content.scrapeCard.
    destruct (String.eqb _ "Unknown Title"); [discriminate|].
    intros H. injection H as <-.
    split; [|reflexivity].
    unfold Enricher.needsEnrichment, newRow, ofLinkedIn, orElse.
    cbn [Db.url Db.description url description Content.url].
    destruct (String.eqb (Content.extractLink card) "") eqn:He;
      [reflexivity|].
    rewrite He. cbn. rewrite andb_true_r. reflexivity.
  - intros document random job Hin.
    apply list_elem_of_omap in Hin as ([i card] & _ & Hjob).
    revert Hjob. unfold Indeed.scrapeCard.
    destruct (Content.cardQuery card Indeed.titleSelector) as [el|];
      [|discriminate].
    destruct (Indeed.metadata _) as [ty sal].
    destruct (String.eqb _ "Unknown Title"); [discriminate|].
    intros H. injection H as <-.
    split; [|reflexivity].
    unfold Enricher.needsEnrichment, newRow, ofIndeed, orElse.
    cbn [Db.url Db.description url description Indeed.url
         Indeed.description].
    assert (He : String.eqb (Indeed.extractLink el) "" = false).
    { apply String.eqb_neq. unfold Indeed.extractLink, orElse.
      destruct (String.eqb_spec (Content.href el) ""); [discriminate|].
      destruct (String.prefix "/" (Content.href el)); [discriminate|].
      assumption. }
    rewrite He. cbn. rewrite He, andb_true_r. reflexivity.
  - intros browser random jobs job Hjobs Hin.
    destruct (scrapeWeWorkRemotely_jobs _ _ _ _ Hjobs Hin)
      as (node & r & Hjob).
    revert Hjob. unfold scrapeNode.
    destruct (_ && _); [discriminate|].
    destruct (query node "a") as [anchor|]; [|discriminate].
    destruct (query node ".title"); [|discriminate].
    destruct (query node ".company"); [|discriminate].
    intros H. injection H as <-. split; reflexivity.
  - intros browser jobs job Hjobs Hin.
    destruct (scrapeRemoteOK_jobs _ _ _ Hjobs Hin) as (row & Hjob).
    revert Hjob. unfold scrapeRow.
    destruct (classList row "do-not-expand"); [discriminate|].
    destruct (query row ".company_and_position h2"); [|discriminate].
    destruct (query row ".company_and_position h3"); [|discriminate].
    destruct (tags _) as [sal locs].
    destruct (rowUrl row) as [jobUrl|] eqn:Hurl; [|discriminate].
    intros H. injection H as <-. split; [|reflexivity].
    revert Hurl. unfold rowUrl.
    destruct (truthy (attribute row "data-href"));
      [intros H; injection H as <-; reflexivity|].
    destruct (truthy (attribute row "data-url")); [discriminate|].
    destruct (query row ".preventLink" ≫= _);
      [intros H; injection H as <-; reflexivity|].
    destruct (truthy (attribute row "data-id"));
      intros H; injection H as <-; reflexivity.
Qed.


Abbreviation addJobs := (addJobsToSystem plusOneMonth toLocaleDateString).
Abbreviation insertLoop' := (insertLoop plusOneMonth toLocaleDateString).

(** What a call of [addJobsToSystem] does to the table and returns. *)
Lemma addJobs_facts (server : Server) (now : Z) (R : list RawJob)
  (tbl : Table) :
  (forall i r, tbl !! i = Some r ->
               table (addJobs server now R tbl) !! i = Some r)
  /\ (forall i r, table (addJobs server now R tbl) !! i = Some r ->
        tbl !! i = Some r
        \/ exists j, j ∈ R /\ id j = i /\ r = newRow' now j)
  /\ (forall n, returned (addJobs server now R tbl) = Some n ->
        size (table (addJobs server now R tbl)) = size tbl + n
        /\ n <= length R)
  /\ (returned (addJobs server now R tbl) = None ->
      getConnection server = false /\ R <> []
      /\ table (addJobs server now R tbl) = tbl).
Proof.
  unfold addJobsToSystem.
  destruct R as [|j R].
  { cbn [table returned].
    split; [auto | split; [auto | split; [|discriminate]]].
    intros n Hret. injection Hret as <-. cbn [length]. lia. }
  destruct (getConnection server).
  2: { cbn [table returned].
       split; [auto | split; [auto | split; [discriminate | auto]]]. }
  destruct (insertLoop_any plusOneMonth toLocaleDateString server now
              (j :: R) tbl 0) as (Hk & Hs & Hn).
  pose proof (insertLoop_rows plusOneMonth toLocaleDateString server now
                (j :: R) tbl 0) as Hrows.
  destruct (insertLoop' server now (j :: R) tbl 0) as [[tbl' m] threw].
  cbn [table returned fst snd] in *.
  split; [exact Hk | split; [exact Hrows | split; [|discriminate]]].
  intros n Hret. injection Hret as <-. lia.
Qed.

(** X23.  A request to the upload endpoint that the JSON body parser
    refuses is answered with the status of the refusal, and the route is
    not run: the table is untouched.  For a request that the parser hands
    over, the route answers 400 exactly when the body is not an array and
    500 only when no connection is obtained for a body with jobs, in both
    cases without touching the table; otherwise it answers 200 with the
    number of rows added, even when statements failed on the way, and
    every row that was stored is kept. *)
Theorem upload_answers (server : Server) (now : Z)
  (request : Request) (tbl : Table) :
  match served plusOneMonth toLocaleDateString server now request tbl with
  | (Rejected status, tbl') => request = Refused status /\ tbl' = tbl
  | (BadRequest, tbl') => request = Parsed None /\ tbl' = tbl
  | (ServerError, tbl') =>
      getConnection server = false /\ tbl' = tbl
      /\ exists jobs, request = Parsed (Some jobs) /\ jobs <> []
  | (Received added, tbl') =>
      exists jobs,
        request = Parsed (Some jobs)
        /\ (getConnection server = true \/ jobs = [])
        /\ size tbl' = size tbl + added
        /\ added <= length jobs
        /\ forall i r, tbl !! i = Some r -> tbl' !! i = Some r
  end.
Proof.
  unfold served, upload. destruct request as [status | [jobs|]]; [auto | | auto].
  destruct (addJobs_facts server now jobs tbl) as (Hkeep & _ & Hcount & Hrej).
  destruct (returned (addJobs server now jobs tbl)) as [n|] eqn:Hret.
  - exists jobs. destruct (Hcount n eq_refl) as [Hsize Hle].
    repeat split; auto.
    revert Hret. unfold addJobsToSystem.
    destruct jobs; [auto|]. destruct (getConnection server); [auto|].
    discriminate.
  - destruct (Hrej eq_refl) as (Hc & Hne & Ht). eauto 6.
Qed.

(** X24.  A refresh keeps every row that is stored, and a row it adds is made
    of a job of Adzuna or of one of the two scrapes.  When the three
    sources give nothing, the database is not even asked for a
    connection; the refresh rejects only when there are jobs to store
    and no connection is obtained. *)
Theorem refresh_only_adds_scraped_jobs (server : Server) (now : Z)
  (apiJobs : list RawJob) (wwr rok : Browser) (random : nat -> string)
  (tbl : Table) :
  let after :=
    refreshJobCache plusOneMonth toLocaleDateString server now apiJobs
      wwr rok random tbl in
  (forall i r, tbl !! i = Some r -> table after !! i = Some r)
  /\ (forall i r, table after !! i = Some r ->
        tbl !! i = Some r
        \/ exists j, id j = i /\ r = newRow' now j
             /\ (j ∈ apiJobs
                 \/ j ∈ default [] (scrapeWeWorkRemotely wwr random)
                 \/ j ∈ default [] (scrapeRemoteOK rok)))
  /\ (apiJobs = [] ->
      default [] (scrapeWeWorkRemotely wwr random) = [] ->
      default [] (scrapeRemoteOK rok) = [] ->
      after = {| returned := Some tt; table := tbl; loggedError := false |})
  /\ (returned after = None ->
      getConnection server = false /\ table after = tbl).
Proof.
  intros after. unfold after, refreshJobCache.
  set (newJobs := (apiJobs ++ default [] (scrapeWeWorkRemotely wwr random))
                    ++ default [] (scrapeRemoteOK rok)).
  destruct (addJobs_facts server now newJobs tbl)
    as (Hkeep & Hrows & _ & Hrej).
  split; [|split; [|split]].
  - destruct (0 <? length newJobs); [exact Hkeep | auto].
  - destruct (0 <? length newJobs); [|auto]. cbn [table].
    intros i r Hr. destruct (Hrows i r Hr) as [Hold | (j & Hin & Hid & Hj)];
      [auto|].
    right. exists j. split; [exact Hid|]. split; [exact Hj|].
    unfold newJobs in Hin. rewrite !elem_of_app in Hin. tauto.
  - intros Ha Hw Hr. unfold newJobs. rewrite Ha, Hw, Hr. reflexivity.
  - destruct (0 <? length newJobs); [|discriminate]. cbn [returned table].
    destruct (returned (addJobs server now newJobs tbl)) eqn:Hret;
      [discriminate|].
    intros _. destruct (Hrej eq_refl) as (Hc & _ & Ht). auto.
Qed.

End Pipeline.

(** ** The crawl of the popup *)

Section CrawlMore.
Import Popup.
Variable c : Crawl.

Lemma step_lookup_failed (i k : nat) (location : Location) (keyword : string)
  (jobs : list Content.Job) (es : list Effect) :
  step c (ready i k location keyword jobs es) Reject
  = {| isRunning := true; currentLocationIndex := i;
       currentKeywordIndex := S k; allJobs := jobs;
       pending := [NextTimer 2000]; awaited := 0;
       trace := es ++ [ShowError] |}.
Proof. reflexivity. Qed.

Lemma step_navigation_failed (i k : nat) (jobs : list Content.Job)
  (es : list Effect) :
  step c {| isRunning := true; currentLocationIndex := i;
            currentKeywordIndex := k; allJobs := jobs;
            pending := [AwaitTabUpdate]; awaited := 0; trace := es |}
       Reject
  = {| isRunning := true; currentLocationIndex := i;
       currentKeywordIndex := S k; allJobs := jobs;
       pending := [NextTimer 2000]; awaited := 0;
       trace := es ++ [ShowError] |}.
Proof. reflexivity. Qed.

Lemma step_page_tab_missing (i k : nat) (jobs : list Content.Job)
  (es : list Effect) :
  step c {| isRunning := true; currentLocationIndex := i;
            currentKeywordIndex := k; allJobs := jobs;
            pending := [AwaitPageTabQuery]; awaited := 0; trace := es |}
       (Resolve false)
  = {| isRunning := true; currentLocationIndex := i;
       currentKeywordIndex := S k; allJobs := jobs;
       pending := [NextTimer (searchDelay c)]; awaited := 0;
       trace := es ++ [ShowError] |}.
Proof. reflexivity. Qed.

(** A search step, however it goes, ends in the call of
    [scrapeNextKeyword] for the next keyword. *)
Lemma course_step (i k : nat) (location : Location) (keyword : string)
  (jobs : list Content.Job) (es : list Effect) (course : Course) :
  run c (ready i k location keyword jobs es) (inputsOf course)
  = scrapeNextKeyword (depth c) c
      {| isRunning := true; currentLocationIndex := i;
         currentKeywordIndex := S k; allJobs := jobs ++ found course;
         pending := []; awaited := 0;
         trace := es ++ outcomeOf (location, keyword) course |}.
Proof.
  destruct course as [response| | |]; cbn [inputsOf found outcomeOf fst snd];
    rewrite ?app_nil_r.
  - apply (calm_step c).
  - rewrite run_cons, step_tab_found, run_cons, step_navigated, run_cons,
      step_settled, run_cons, step_page_tab_missing, run_cons, step_next,
      <- app_assoc.
    reflexivity.
  - rewrite run_cons, step_lookup_failed, run_cons, step_next. reflexivity.
  - rewrite run_cons, step_tab_found, run_cons, step_navigation_failed,
      run_cons, step_next, <- app_assoc.
    reflexivity.
Qed.

Lemma finish_trace (st : State) :
  trace (finish c st) = trace st ++ closing c (allJobs st).
Proof.
  unfold finish, closing.
  change (allJobs (emit [Finished] (setRunning false st))) with (allJobs st).
  destruct (autoUpload c && (0 <? length (allJobs st)));
    cbn [emit setRunning trace]; rewrite <- ?app_assoc; reflexivity.
Qed.


(** A crawl that is not stopped, whatever obstacles its steps meet, from
    the step for the keyword [k] of the location [i] on. *)
Lemma scripted_from (courses : list Course) :
  forall (i k : nat) (location : Location) (keyword : string)
         (jobs : list Content.Job) (es : list Effect),
  selectedLocations c !! i = Some location ->
  keywords c !! k = Some keyword ->
  length courses
  = length (remaining c location k (drop (S i) (selectedLocations c))) ->
  trace (run c (ready i k location keyword jobs
                  (es ++ [StepInfo location keyword])) (script courses))
  = es ++ concat (zip_with effectsOf
                    (remaining c location k (drop (S i) (selectedLocations c)))
                    courses)
       ++ closing c (jobs ++ concat (found <$> courses))
  /\ allJobs (run c (ready i k location keyword jobs
                       (es ++ [StepInfo location keyword])) (script courses))
     = jobs ++ concat (found <$> courses)
  /\ isRunning (run c (ready i k location keyword jobs
                         (es ++ [StepInfo location keyword])) (script courses))
     = false
  /\ pending (run c (ready i k location keyword jobs
                       (es ++ [StepInfo location keyword])) (script courses))
     = [].
Proof.
  induction courses as [|o os IH];
    intros i k location keyword jobs es Hloc Hkw Hlen.
  { exfalso. unfold remaining in Hlen.
    rewrite (drop_S _ _ _ Hkw) in Hlen. discriminate. }
  unfold script. rewrite fmap_cons. cbn [concat]. fold (script os).
  rewrite run_app, course_step.
  assert (Hremaining :
            remaining c location k (drop (S i) (selectedLocations c))
            = (location, keyword)
              :: map (pair location) (drop (S k) (keywords c))
              ++ list_prod (drop (S i) (selectedLocations c)) (keywords c)).
  { unfold remaining. rewrite (drop_S _ _ _ Hkw). reflexivity. }
  set (es2 := (es ++ [StepInfo location keyword])
                ++ outcomeOf (location, keyword) o).
  set (st2 := {| isRunning := true; currentLocationIndex := i;
                 currentKeywordIndex := S k;
                 allJobs := jobs ++ found o; pending := []; awaited := 0;
                 trace := es2 |}).
  assert (Hes2 : forall rest,
            es2 ++ rest
            = es ++ effectsOf (location, keyword) o ++ rest).
  { intros rest. unfold es2, effectsOf. cbn [fst snd].
    rewrite <- !app_assoc. reflexivity. }
  assert (Hk0 : exists keyword0, keywords c !! 0 = Some keyword0).
  { destruct (keywords c) as [|keyword0 ks]; [discriminate Hkw|].
    exists keyword0. reflexivity. }
  destruct Hk0 as [keyword0 Hk0].
  rewrite Hremaining in Hlen |- *. cbn [length] in Hlen.
  rewrite fmap_cons. cbn [zip_with concat].
  rewrite (app_assoc jobs).
  destruct (keywords c !! S k) as [keyword'|] eqn:Hkw'.
  - (* the next keyword of the same location *)
    unfold depth. cbn [Nat.add].
    rewrite (scrapeNextKeyword_begins c _ st2 location keyword')
      by (assumption || reflexivity).
    unfold st2. rewrite begin_ready.
    destruct (IH i (S k) location keyword' (jobs ++ found o) es2)
      as (Ht & Hj & Hr & Hp).
    { exact Hloc. } { exact Hkw'. }
    { unfold remaining. injection Hlen as Hlen. exact Hlen. }
    rewrite Ht, Hj, Hr, Hp. unfold remaining.
    rewrite Hes2, <- !app_assoc. auto.
  - apply lookup_ge_None in Hkw'.
    rewrite (drop_ge (keywords c) (S k)) in Hlen |- * by exact Hkw'.
    cbn [map app] in Hlen |- *.
    destruct (selectedLocations c !! S i) as [location'|] eqn:Hloc'.
    + (* the first keyword of the next location *)
      unfold depth. cbn [Nat.add].
      rewrite (scrapeNextKeyword_next_location c _ st2 location' keyword0)
        by (assumption || reflexivity).
      unfold st2.
      change (setKeywordIndex 0 (setLocationIndex (S _) _))
        with {| isRunning := true; currentLocationIndex := S i;
                currentKeywordIndex := 0; allJobs := jobs ++ found o;
                pending := []; awaited := 0; trace := es2 |}.
      rewrite begin_ready.
      rewrite (drop_S _ _ _ Hloc') in Hlen |- *.
      destruct (IH (S i) 0 location' keyword0 (jobs ++ found o) es2)
        as (Ht & Hj & Hr & Hp).
      { exact Hloc'. } { exact Hk0. }
      { unfold remaining. rewrite drop_0. injection Hlen as Hlen. exact Hlen. }
      rewrite Ht, Hj, Hr, Hp. unfold remaining.
      rewrite drop_0, Hes2, <- !app_assoc. auto.
    + (* the crawl is over *)
      apply lookup_ge_None in Hloc'.
      rewrite (drop_ge (selectedLocations c) (S i)) in Hlen |- * by exact Hloc'.
      cbn [list_prod length] in Hlen |- *.
      destruct os; [|discriminate].
      cbn [script fmap list_fmap concat run foldl zip_with].
      unfold depth. cbn [Nat.add].
      rewrite (scrapeNextKeyword_finishes c _ st2) by (assumption || reflexivity).
      rewrite finish_trace.
      destruct (finish_spec c (setLocationIndex (S (currentLocationIndex st2)) st2))
        as (Hr & Hp & Hj & _).
      rewrite Hr, Hp, Hj. unfold st2.
      cbn [setLocationIndex trace allJobs pending currentLocationIndex].
      rewrite Hes2, !app_nil_r. auto.
Qed.

(** X25.  A crawl that is not stopped and whose every step takes one of
    the four courses of [Course] goes through every pair of a location
    and a keyword: a step whose page is scraped, whether the content
    script answers with jobs, without any or not at all, a step whose tab
    query or navigation rejects, and a step whose page has no tab when it
    is to be scraped, are each followed by the next step, the last three
    after an error message.  The jobs collected are those of the answers
    in order, and the crawl ends with the announcement that it is
    finished, followed by the upload of these jobs when the automatic
    upload is on and there is a job.  The two courses that halt the crawl
    are not among the four. *)
Theorem failed_steps_are_skipped (courses : list Course) :
  selectedLocations c <> [] ->
  keywords c <> [] ->
  length courses = length (selectedLocations c) * length (keywords c) ->
  trace (run c (start c) (script courses))
  = concat (zip_with effectsOf
              (list_prod (selectedLocations c) (keywords c)) courses)
    ++ closing c (concat (found <$> courses))
  /\ allJobs (run c (start c) (script courses)) = concat (found <$> courses)
  /\ isRunning (run c (start c) (script courses)) = false
  /\ pending (run c (start c) (script courses)) = [].
Proof.
  intros Hl Hk Hlen.
  destruct (selectedLocations c) as [|location locations] eqn:Hlocs;
    [congruence|].
  destruct (keywords c) as [|keyword more] eqn:Hkws; [congruence|].
  rewrite (start_ready c location locations keyword more Hlocs Hkws).
  destruct (scripted_from courses 0 0 location keyword [] [])
    as (Ht & Hj & Hr & Hp).
  { rewrite Hlocs. reflexivity. }
  { rewrite Hkws. reflexivity. }
  { unfold remaining. rewrite Hlocs, Hkws, drop_0. cbn [drop].
    rewrite drop_0, Hlen, length_app, length_map, length_prod. simpl. lia. }
  cbn [app] in Ht, Hj, Hr, Hp. rewrite Ht, Hj, Hr, Hp. unfold remaining.
  rewrite Hlocs, Hkws, drop_0. cbn [drop list_prod].
  rewrite drop_0. auto.
Qed.












End CrawlMore.

(** ** Examples of the further properties *)

Lemma ingestion_only_adds_rows_of_the_batch_witness :
  JobService.table
    (JobService.addJobsToSystem Samples.nextMonth Samples.dateText
       Samples.flaky 5%Z Samples.threeJobs Samples.oldAndNew) !! "old"
  = Some (Samples.rowExpiring "Analyst" 10%Z (Some 999%Z)).
Proof.
  apply (proj1 (ingestion_only_adds_rows_of_the_batch Samples.nextMonth
                  Samples.dateText Samples.flaky 5%Z Samples.threeJobs
                  Samples.oldAndNew)).
  vm_compute. reflexivity.
Defined.

Lemma returned_count_is_rows_added_witness :
  size (JobService.table
          (JobService.addJobsToSystem Samples.nextMonth Samples.dateText
             Db.healthy 5%Z Samples.threeJobs Samples.oldAndNew))
  = size Samples.oldAndNew + 2
  /\ 2 <= length Samples.threeJobs.
Proof.
  apply (returned_count_is_rows_added Samples.nextMonth Samples.dateText
           Db.healthy 5%Z Samples.threeJobs Samples.oldAndNew 2).
  vm_compute. reflexivity.
Defined.

Lemma first_record_of_an_id_is_stored_witness :
  JobService.table
    (JobService.addJobsToSystem Samples.nextMonth Samples.dateText
       Db.healthy 5%Z
       ([Samples.rawJob "new"]
          ++ Samples.rawJob "a" :: [Samples.rawJob "b"; Samples.rawJob "a"])
       Samples.oldAndNew) !! "a"
  = Some (JobService.newRow Samples.nextMonth Samples.dateText 5%Z
            (Samples.rawJob "a")).
Proof.
  apply (first_record_of_an_id_is_stored Samples.nextMonth Samples.dateText
           Db.healthy 5%Z [Samples.rawJob "new"] (Samples.rawJob "a")
           [Samples.rawJob "b"; Samples.rawJob "a"] Samples.oldAndNew 2).
  - vm_compute. reflexivity.
  - vm_compute. reflexivity.
  - vm_compute. reflexivity.
  - repeat constructor. vm_compute. discriminate.
Defined.

Lemma getJobs_lists_the_live_matches_witness :
  NoDup (JobService.l_id
           <$> JobService.getJobs Samples.contains Db.healthy 1000%Z
                 (Some Samples.searchAnalyst) Samples.oldAndNew).
Proof.
  apply (getJobs_lists_the_live_matches Samples.contains Db.healthy 1000%Z
           (Some Samples.searchAnalyst) Samples.oldAndNew).
  - reflexivity.
  - reflexivity.
Defined.

Lemma blank_filters_are_ignored_witness :
  JobService.getJobs Samples.contains Db.healthy 1000%Z
    (Some Samples.blankSearch) Samples.oldAndNew
  = JobService.getJobs Samples.contains Db.healthy 1000%Z None
      Samples.oldAndNew.
Proof.
  apply (blank_filters_are_ignored Samples.contains Db.healthy 1000%Z
           Samples.blankSearch Samples.oldAndNew).
  - vm_compute. reflexivity.
  - vm_compute. reflexivity.
Defined.

Lemma ingested_job_is_listed_witness :
  "a" ∈ JobService.l_id
        <$> JobService.getJobs Samples.contains Db.healthy 1000%Z None
              (JobService.table
                 (JobService.addJobsToSystem Samples.nextMonth
                    Samples.dateText Db.healthy 5%Z Samples.threeJobs
                    Samples.oldAndNew)).
Proof.
  apply (ingested_job_is_listed Samples.nextMonth Samples.dateText
           Samples.contains Db.healthy Db.healthy 5%Z 1000%Z
           Samples.threeJobs Samples.oldAndNew 2 (Samples.rawJob "a")).
  - vm_compute. reflexivity.
  - vm_compute. reflexivity.
  - left.
  - vm_compute. reflexivity.
  - vm_compute. reflexivity.
  - reflexivity.
  - reflexivity.
Defined.

Lemma fetch_stops_at_the_first_viable_visit_witness :
  exists k,
    1 <= k <= 3
    /\ Enricher.visitsOf "j1"
         (snd (Enricher.fetchJobDescription Samples.goodSite
                 Samples.pendingJob))
       = seq 0 k
    /\ fst (Enricher.fetchJobDescription Samples.goodSite Samples.pendingJob)
       = Enricher.viableAt Samples.goodSite Samples.pendingJob (k - 1).
Proof.
  destruct (fetch_stops_at_the_first_viable_visit Samples.goodSite
              Samples.pendingJob) as (k & Hk & Hvisits & _ & Hfetch & _).
  exists k. split; [exact Hk|]. split; [exact Hvisits | exact Hfetch].
Defined.



Lemma run_summary_accounts_for_every_candidate_witness :
  3 = length (fst (Enricher.getJobsNeedingEnrichment Db.healthy
                     Samples.onePending))
  /\ 3 <= 100
  /\ 0 + 3 = 3
  /\ 3 = Enricher.failures
           (Enricher.events
              (Enricher.enrichJobDescriptions Db.healthy Samples.shortSite
                 true Samples.onePending)).
Proof.
  apply (run_summary_accounts_for_every_candidate Db.healthy
           Samples.shortSite Samples.onePending true
           {| Enricher.total := 3; Enricher.enriched := 0;
              Enricher.failed := 3 |}).
  vm_compute. reflexivity.
Defined.


Lemma candidates_are_the_rows_needing_enrichment_witness :
  Enricher.candidateOf ("j1", Samples.pendingRow 30%Z)
    ∈ fst (Enricher.getJobsNeedingEnrichment Db.healthy Samples.onePending).
Proof.
  refine (proj2 (proj2 (candidates_are_the_rows_needing_enrichment Db.healthy
                          Samples.onePending) _ _) _ "j1"
            (Samples.pendingRow 30%Z) _ _).
  - reflexivity.
  - reflexivity.
  - vm_compute. lia.
  - vm_compute. reflexivity.
  - vm_compute. reflexivity.
Defined.

Lemma linkedin_jobs_are_well_formed_witness :
  Content.source Samples.analystJob = "LinkedIn"
  /\ Content.title Samples.analystJob <> "Unknown Title"
  /\ (Content.salary Samples.analystJob = Content.notListed
      \/ Content.amountLike (Content.salary Samples.analystJob)).
Proof.
  destruct (proj2 (proj2 (linkedin_jobs_are_well_formed Samples.oneCard
                            (fun _ => "r")))
              Samples.analystJob) as (Hsource & Htitle & Hsalary & _).
  - vm_compute. constructor.
  - split; [exact Hsource|]. split; [exact Htitle | exact Hsalary].
Defined.

Lemma indeed_jobs_are_well_formed_witness :
  Indeed.source Samples.engineerJob = "Indeed"
  /\ Indeed.description Samples.engineerJob = "View posting for details"
  /\ Indeed.title Samples.engineerJob <> "Unknown Title"
  /\ String.prefix "/" (Indeed.url Samples.engineerJob) = false
  /\ Indeed.url Samples.engineerJob <> "".
Proof.
  apply (proj2 (indeed_jobs_are_well_formed Samples.indeedPage
                  (fun _ => "r"))).
  vm_compute. constructor.
Defined.

Lemma last_metadata_item_wins_witness :
  snd (Indeed.metadata Samples.indeedItems) = "$50 an hour"
  /\ fst (Indeed.metadata Samples.indeedItems) = "Contract".
Proof.
  split.
  - refine (proj2 (proj1 (last_metadata_item_wins
                            [Samples.textElement "Contract"]
                            (Samples.textElement " $50 an hour ")
                            [Samples.textElement "Remote"]) _) _).
    + repeat constructor.
    + vm_compute. reflexivity.
  - refine (proj2 (proj2 (last_metadata_item_wins []
                            (Samples.textElement "Contract")
                            [Samples.textElement " $50 an hour ";
                             Samples.textElement "Remote"]) _) _).
    + repeat constructor.
    + vm_compute. reflexivity.
Defined.

Lemma classes_make_no_difference_witness :
  is_Some (Scraper.scrapeNode Samples.listedNode "r").
Proof.
  apply (proj2 (classes_make_no_difference
                  (Scraper.classList Samples.listedNode) (fun _ => false)
                  (Scraper.attribute Samples.listedNode) (fun _ => None)
                  (Scraper.queryAll Samples.listedNode) "r")).
  repeat split; vm_compute; eauto.
Defined.

Lemma one_row_with_data_url_voids_the_scrape_witness :
  Scraper.scrapeRemoteOK Samples.remoteBoard = Some [].
Proof.
  apply (one_row_with_data_url_voids_the_scrape Samples.remoteBoard
           [Samples.hrefRow] Samples.urlRow []).
  - reflexivity.
  - reflexivity.
  - vm_compute. eauto.
  - vm_compute. eauto.
  - vm_compute. reflexivity.
  - vm_compute. eauto.
  - reflexivity.
  - reflexivity.
Defined.

Lemma scraped_jobs_await_enrichment_witness :
  Enricher.needsEnrichment
    (JobService.newRow Samples.nextMonth Samples.dateText 5%Z
       Samples.listedJob)
  = true
  /\ Enricher.extractDescription
       (Enricher.candidateOf
          ("wwr-r",
           JobService.newRow Samples.nextMonth Samples.dateText 5%Z
             Samples.listedJob))
     = Enricher.extractWeWorkRemotelyDescription.
Proof.
  apply (proj1 (proj2 (proj2 (scraped_jobs_await_enrichment Samples.nextMonth
                                Samples.dateText 5%Z)))
           Samples.listing (fun _ => "r") [Samples.listedJob]
           Samples.listedJob).
  - vm_compute. reflexivity.
  - left.
Defined.

Lemma upload_answers_witness :
  size (snd (Routes.served Samples.nextMonth Samples.dateText Samples.flaky
               5%Z (Routes.Parsed (Some Samples.threeJobs))
               Samples.oldAndNew))
  = size Samples.oldAndNew + 0.
Proof.
  pose proof (upload_answers Samples.nextMonth Samples.dateText Samples.flaky
                5%Z (Routes.Parsed (Some Samples.threeJobs))
                Samples.oldAndNew) as Hanswer.
  assert (Hupload :
            Routes.served Samples.nextMonth Samples.dateText Samples.flaky
              5%Z (Routes.Parsed (Some Samples.threeJobs)) Samples.oldAndNew
            = (Routes.Received 0, Samples.oldAndNew))
    by (vm_compute; reflexivity).
  rewrite Hupload in Hanswer |- *.
  destruct Hanswer as (jobs & _ & _ & Hsize & _). exact Hsize.
Defined.

Lemma refresh_only_adds_scraped_jobs_witness :
  Scraper.refreshJobCache Samples.nextMonth Samples.dateText
    Samples.unreachable 5%Z [] Samples.noBrowser Samples.noBrowser
    (fun _ => "r") Samples.oldAndNew
  = {| JobService.returned := Some tt; JobService.table := Samples.oldAndNew;
       JobService.loggedError := false |}.
Proof.
  apply (refresh_only_adds_scraped_jobs Samples.nextMonth Samples.dateText
           Samples.unreachable 5%Z [] Samples.noBrowser Samples.noBrowser
           (fun _ => "r") Samples.oldAndNew).
  - reflexivity.
  - reflexivity.
  - reflexivity.
Defined.

Lemma failed_steps_are_skipped_witness :
  Popup.trace
    (Popup.run Samples.crawlUp (Popup.start Samples.crawlUp)
       (Popup.script Samples.roughCourses))
  = [ Popup.StepInfo Samples.A "x"; Popup.Navigate Samples.A "x";
      Popup.ScrapeRequest;
      Popup.StepInfo Samples.A "y"; Popup.ShowError;
      Popup.StepInfo Samples.B "x"; Popup.Navigate Samples.B "x";
      Popup.ShowError;
      Popup.StepInfo Samples.B "y"; Popup.Navigate Samples.B "y";
      Popup.ShowError;
      Popup.Finished; Popup.Upload [Samples.foundJob] ].
Proof.
  refine (eq_trans
            (proj1 (failed_steps_are_skipped Samples.crawlUp
                      Samples.roughCourses _ _ _)) _).
  - discriminate.
  - discriminate.
  - reflexivity.
  - vm_compute. reflexivity.
Defined.


